(** * mcvm: version acquisition (net/assets.cc) and launch arguments (io/game.cc)

    A shallow embedding of the two translation units and the properties
    of them that the specification states.  JSON documents are rapidjson
    values, C++ [assert]s and rapidjson's own assertions abort, exceptions
    are a separate outcome, and the file system, the network and the
    console are an explicit world threaded through the acquisition code. *)

From Stdlib Require Import ZArith Ascii String List Bool Lia Permutation.
From stdpp Require Import base gmap strings.

Import ListNotations.
Set Warnings "-register-all".
Local Open Scope string_scope.
Local Open Scope list_scope.

(** ** Outcomes *)

(** Exceptions thrown by the code ([out_of_range] is [std::map::at]'s). *)
Inductive Exn : Type :=
| VersionNotFoundException
| IntegrityError
| out_of_range.

(** The result of running a piece of code: it returns, an assertion fails
    (the process aborts), or an exception unwinds. *)
Inductive Res (A : Type) : Type :=
| Ok (a : A)
| AssertFail
| Throw (e : Exn).
Arguments Ok {A} a.
Arguments AssertFail {A}.
Arguments Throw {A} e.

Definition rbind {A B} (r : Res A) (k : A -> Res B) : Res B :=
  match r with
  | Ok a => k a
  | AssertFail => AssertFail
  | Throw e => Throw e
  end.

#[export] Instance Res_ret : MRet Res := fun A a => Ok a.
#[export] Instance Res_bind : MBind Res := fun A B k r => rbind r k.

(** [assert(b)] *)
Definition assert (b : bool) : Res unit := if b then Ok tt else AssertFail.

(** ** Strings *)

Definition dquote : string := String "034"%char EmptyString.

(** [std::string::find(char)]: the position of the first occurrence, or
    [None] for [npos]. *)
Fixpoint find_char (c : ascii) (s : string) : option nat :=
  match s with
  | EmptyString => None
  | String d s' =>
      if Ascii.eqb d c then Some 0
      else match find_char c s' with Some n => Some (S n) | None => None end
  end.

(** [s.empty()] *)
Definition empty (s : string) : bool :=
  match s with EmptyString => true | _ => false end.

(** [std::string::substr(pos, n)] with [pos] within the string. *)
Definition substr (s : string) (pos n : nat) : string := String.substring pos n s.

(** A [const char*] read as a C string: the text up to its first NUL. *)
Fixpoint c_str (s : string) : string :=
  match s with
  | EmptyString => EmptyString
  | String c rest => if Ascii.eqb c "000" then EmptyString else String c (c_str rest)
  end.

(** ** rapidjson values *)

Inductive Value : Type :=
| kNull
| kBool (b : bool)
| kNumber (n : Z)
| kString (s : string)
| kArray (elements : list Value)
| kObject (members : list (string * Value)).

Definition GenericObject : Type := list (string * Value).
Definition GenericArray : Type := list Value.

(** [FindMember]: the first member with the name. *)
Fixpoint FindMember (o : GenericObject) (name : string) : option Value :=
  match o with
  | [] => None
  | (k, v) :: o' => if String.eqb k name then Some v else FindMember o' name
  end.

Definition HasMember (o : GenericObject) (name : string) : bool :=
  match FindMember o name with Some _ => true | None => false end.

(** The accessors assert the type of the value.  [GetString] yields a
    [const char*], and every use of it in the files at hand (a copy into a
    [std::string], a [std::string_view], a path, a comparison) reads it as
    a C string. *)
Definition GetString (v : Value) : Res string :=
  match v with kString s => Ok (c_str s) | _ => AssertFail end.
Definition GetArray (v : Value) : Res GenericArray :=
  match v with kArray l => Ok l | _ => AssertFail end.
Definition GetObject (v : Value) : Res GenericObject :=
  match v with kObject o => Ok o | _ => AssertFail end.

(** [obj[name]] asserts that the member is there. *)
Definition member (o : GenericObject) (name : string) : Res Value :=
  match FindMember o name with Some v => Ok v | None => AssertFail end.

(** Modelled from the spec: [json_access] is declared outside the files at
    hand; a required member that is missing is a fatal structural error,
    so the access asserts an object holding the member and yields it. *)
Definition json_access_o (o : GenericObject) (name : string) : Res Value :=
  match FindMember o name with Some v => Ok v | None => AssertFail end.

(** The same on a document or a value, which has to be an object. *)
Definition json_access (v : Value) (name : string) : Res Value :=
  o ← GetObject v; json_access_o o name.

(** [value == "literal"]: true for a string value with the same text. *)
Definition value_eq_str (v : Value) (s : string) : bool :=
  match v with kString t => String.eqb t s | _ => false end.

(** ** io/game.cc *)

Module Game.

(** Modelled from the spec: [fandr] (find and replace) is declared outside
    the files at hand.  The JVM phase substitutes its placeholders in a
    literal: every occurrence of [find] in [source], taken from left to
    right, is replaced by [repl], and the replacement text is not searched
    again.  [skip] counts the characters of a match that are still to be
    dropped. *)
Fixpoint fandr_from (skip : nat) (find repl source : string) : string :=
  match source with
  | EmptyString => EmptyString
  | String c rest =>
      match skip with
      | S k => fandr_from k find repl rest
      | O =>
          if String.prefix find source
          then repl +:+ fandr_from (String.length find - 1) find repl rest
          else String c (fandr_from O find repl rest)
      end
  end.

Definition fandr (source find repl : string) : string :=
  fandr_from 0 find repl source.

(** [fs::path::operator/]: an absolute right operand replaces the left
    one; otherwise a separator is added unless the left operand is empty
    or already ends with one (POSIX paths). *)
Definition is_absolute (p : string) : bool :=
  match p with String c _ => Ascii.eqb c "/" | EmptyString => false end.

Fixpoint ends_with_slash (p : string) : bool :=
  match p with
  | EmptyString => false
  | String c EmptyString => Ascii.eqb c "/"
  | String _ p' => ends_with_slash p'
  end.

Definition path_join (a b : string) : string :=
  if is_absolute b then b
  else if empty a || ends_with_slash a then a +:+ b
  else a +:+ "/" +:+ b.

Infix "//" := path_join (at level 40, left associativity).

Record User : Type := {
  is_offline : bool;
  is_demo : bool
}.

Record CachedPaths : Type := {
  internal : string;
  assets : string
}.

(** [MinecraftVersion] is an enumeration declared outside the files at
    hand; a value of it is its number. *)
Definition MinecraftVersion : Type := nat.

Record GameRunner : Type := {
  version : MinecraftVersion;
  mc_dir : string;
  jar_path : string;
  user : User;
  classpath : string;
  output : string;
  flags : list string
}.

Section GameRunner.

(** The build's platform macros, the action predicate and the version
    table ([std::map], read with [at]) are declared outside the files at
    hand. *)
Variable OS_STRING : string.
Variable ARCH_STRING : string.
Variable is_allowed : string -> bool.
Variable mc_version_reverse_map : gmap MinecraftVersion string.

(** The constructor: no output and no flags yet. *)
Definition new_GameRunner (_version : MinecraftVersion) (_mc_dir _jar_path : string)
    (_user : User) (_classpath : string) : GameRunner :=
  {| version := _version; mc_dir := _mc_dir; jar_path := _jar_path;
     user := _user; classpath := _classpath;
     output := EmptyString; flags := [] |}.

Definition set_output (g : GameRunner) (o : string) : GameRunner :=
  {| version := version g; mc_dir := mc_dir g; jar_path := jar_path g;
     user := user g; classpath := classpath g; output := o; flags := flags g |}.

Definition set_flags (g : GameRunner) (f : list string) : GameRunner :=
  {| version := version g; mc_dir := mc_dir g; jar_path := jar_path g;
     user := user g; classpath := classpath g; output := output g; flags := f |}.

Definition add_word (g : GameRunner) (word : string) : GameRunner :=
  set_output g (output g +:+ " " +:+ word).

Definition add_flag (g : GameRunner) (flag : string) : GameRunner :=
  set_flags g (flags g ++ [flag]).

(** [flags.pop_back()] *)
Definition pop_back (l : list string) : list string := removelast l.

(** [_GAME_ARG_REPL(check, expr)]: [if (contents == check) contents = expr] *)
Definition _GAME_ARG_REPL (contents check expr : string) : string :=
  if String.eqb contents check then expr else contents.

(** The four JVM substitutions, in the order of the source. *)
Definition jvm_repl (g : GameRunner) (paths : CachedPaths) (version_string contents : string)
    : string :=
  let contents := fandr contents "${launcher_name}" "mcvm" in
  let contents := fandr contents "${launcher_version}" "alpha" in
  let contents := fandr contents "${classpath}" (dquote +:+ classpath g +:+ dquote) in
  fandr contents "${natives_directory}"
        (internal paths // "versions" // version_string // "natives").

(** The game substitutions before the authentication block. *)
Definition game_repl_head (g : GameRunner) (paths : CachedPaths)
    (version_string contents : string) : string :=
  let contents := _GAME_ARG_REPL contents "${version_name}" version_string in
  let contents := _GAME_ARG_REPL contents "${version_type}" "mcvm" in
  let contents := _GAME_ARG_REPL contents "${game_directory}" (mc_dir g) in
  let contents := _GAME_ARG_REPL contents "${assets_root}" (assets paths) in
  _GAME_ARG_REPL contents "${assets_index_name}" version_string.

Definition is_auth_placeholder (contents : string) : bool :=
  String.eqb contents "${auth_player_name}"
  || String.eqb contents "${auth_access_token}"
  || String.eqb contents "${auth_uuid}".

(** The substitutions of an online user. *)
Definition game_repl_auth (contents : string) : string :=
  let contents := _GAME_ARG_REPL contents "${auth_player_name}" "CarbonSmasher" in
  let contents := _GAME_ARG_REPL contents "${auth_access_token}" "abc123abc123" in
  _GAME_ARG_REPL contents "${auth_uuid}" "aaaaa-aaaaa-aaaa-a".

(** [GameRunner::repl_arg_token]: [contents] is passed by reference, so
    the new text is returned next to the boolean. *)
Definition repl_arg_token (g : GameRunner) (contents : string) (is_jvm : bool)
    (paths : CachedPaths) : Res (string * bool) :=
  match mc_version_reverse_map !! version g with
  | None => Throw out_of_range
  | Some version_string =>
      if is_jvm then
        let contents := jvm_repl g paths version_string contents in
        assert (bool_decide (find_char "$" contents = None));;
        Ok (contents, false)
      else
        let contents := game_repl_head g paths version_string contents in
        if is_offline (user g) then
          if is_auth_placeholder contents then Ok (contents, true)
          else
            let contents := _GAME_ARG_REPL contents "${user_type}" "mojang" in
            assert (bool_decide (find_char "$" contents = None));;
            Ok (contents, false)
        else
          let contents := game_repl_auth contents in
          let contents := _GAME_ARG_REPL contents "${user_type}" "mojang" in
          assert (bool_decide (find_char "$" contents = None));;
          Ok (contents, false)
  end.

(** Lines 106 to 111 of [parse_single_arg]: what happens to [contents]
    once the argument has been read. *)
Definition emit_contents (g : GameRunner) (contents : string) (is_jvm : bool)
    (paths : CachedPaths) : Res GameRunner :=
  '(contents, drop) ← repl_arg_token g contents is_jvm paths;
  if (drop : bool) then
    Ok (if (0 <? length (flags g))%nat then set_flags g (pop_back (flags g)) else g)
  else
    assert (negb (String.eqb contents EmptyString));;
    Ok (add_flag g contents).

(** The rule loop of an object argument: [true] when no rule returned. *)
Definition rule_passes (u : User) (rule_val : Value) : Res bool :=
  rule ← GetObject rule_val;
  action_val ← json_access_o rule "action";
  action ← GetString action_val;
  let allowed := is_allowed action in
  os_ok ←
    (if HasMember rule "os" then
       os_val ← member rule "os";
       os ← GetObject os_val;
       name_ok ←
         (if HasMember os "name" then
            name ← member os "name";
            Ok (Bool.eqb allowed (value_eq_str name OS_STRING))
          else Ok true);
       if (name_ok : bool) then
         if HasMember os "arch" then
           arch ← member os "arch";
           Ok (Bool.eqb allowed (value_eq_str arch ARCH_STRING))
         else Ok true
       else Ok false
     else Ok true);
  if (os_ok : bool) then
    if HasMember rule "features" then
      features_val ← member rule "features";
      features ← GetObject features_val;
      if HasMember features "has_custom_resolution" then Ok false
      else if HasMember features "is_demo_user" then Ok (is_demo u)
      else Ok true
    else Ok true
  else Ok false.

Fixpoint rules_pass (u : User) (rules : GenericArray) : Res bool :=
  match rules with
  | [] => Ok true
  | rule_val :: rest =>
      ok ← rule_passes u rule_val;
      if (ok : bool) then rules_pass u rest else Ok false
  end.

(** [GameRunner::parse_single_arg] *)
Fixpoint parse_single_arg (arg : Value) (is_jvm : bool) (paths : CachedPaths)
    (g : GameRunner) {struct arg} : Res GameRunner :=
  match arg with
  | kString s => emit_contents g (c_str s) is_jvm paths
  | kObject arg_obj =>
      rules_val ← json_access_o arg_obj "rules";
      rules ← GetArray rules_val;
      ok ← rules_pass (user g) rules;
      if (ok : bool) then
        (fix value_of (o : GenericObject) : Res GameRunner :=
           match o with
           | [] => AssertFail
           | (k, v) :: o' =>
               if String.eqb k "value" then parse_single_arg v is_jvm paths g
               else value_of o'
           end) arg_obj
      else Ok g
  | kArray values =>
      g' ←
        (fix each (l : list Value) (g : GameRunner) : Res GameRunner :=
           match l with
           | [] => Ok g
           | value :: l' =>
               g' ← parse_single_arg value is_jvm paths g; each l' g'
           end) values g;
      emit_contents g' EmptyString is_jvm paths
  | _ => AssertFail
  end.

Fixpoint parse_each (args : list Value) (is_jvm : bool) (paths : CachedPaths)
    (g : GameRunner) : Res GameRunner :=
  match args with
  | [] => Ok g
  | arg :: rest =>
      g' ← parse_single_arg arg is_jvm paths g; parse_each rest is_jvm paths g'
  end.

(** [GameRunner::write_flags] *)
Definition write_flags (g : GameRunner) : GameRunner :=
  set_flags (fold_left add_word (flags g) g) [].

(** [GameRunner::parse_args] *)
Definition parse_args (ret : Value) (paths : CachedPaths) (g : GameRunner)
    : Res GameRunner :=
  assert (match ret with kObject _ => true | _ => false end);;
  arguments_val ← json_access ret "arguments";
  arguments ← GetObject arguments_val;
  game_val ← json_access_o arguments "game";
  game_args ← GetArray game_val;
  jvm_val ← json_access_o arguments "jvm";
  jvm_args ← GetArray jvm_val;
  g ← parse_each jvm_args true paths g;
  let g := add_flag g "-Dorg.lwjgl.util.DebugLoader=true" in
  let g := write_flags g in
  main_val ← json_access ret "mainClass";
  main_class ← GetString main_val;
  let g := add_word g main_class in
  g ← parse_each game_args false paths g;
  Ok (write_flags g).

End GameRunner.

End Game.

(** ** net/assets.cc *)

Module Net.

Import Game.

(** What the acquisition code does to its surroundings, in order: console
    lines, directories asked for, transfers, archives opened. *)
Inductive Mode : Type := FILE | FILE_AND_STR.

Inductive Event : Type :=
| EvOut (text : string)
| EvCreateDir (p : string)
| EvCreateLeading (p : string)
| EvDownload (mode : Mode) (url path : string)
| EvZipOpen (path : string).

(** The world: the regular files with their contents, and the events so
    far (oldest first). *)
Record World : Type := {
  files : gmap string string;
  events : list Event
}.

(** State over the world, with the outcomes of [Res]; the world at the
    point of failure is kept. *)
Definition M (A : Type) : Type := World -> Res A * World.

#[export] Instance M_ret : MRet M := fun A a w => (Ok a, w).
#[export] Instance M_bind : MBind M := fun A B k m w =>
  match m w with
  | (Ok a, w') => k a w'
  | (AssertFail, w') => (AssertFail, w')
  | (Throw e, w') => (Throw e, w')
  end.

Definition liftR {A} (r : Res A) : M A := fun w => (r, w).
Definition throw {A} (e : Exn) : M A := fun w => (Throw e, w).

Definition log (e : Event) : M unit :=
  fun w => (Ok tt, {| files := files w; events := events w ++ [e] |}).

Definition write_file (path contents : string) : M unit :=
  fun w => (Ok tt, {| files := <[path := contents]> (files w); events := events w |}).

(** [OUT] and [OUT_LIT] print a line. *)
Definition OUT (text : string) : M unit := log (EvOut text).

(** The directory helpers only ever add directories; the calls are
    recorded. *)
Definition create_dir_if_not_exists (p : string) : M unit := log (EvCreateDir p).
Definition create_leading_directories (p : string) : M unit := log (EvCreateLeading p).

(** Modelled from the spec: [file_exists] is declared outside the files at
    hand; it is the existence check of the destination file. *)
Definition file_exists (p : string) : M bool :=
  fun w => (Ok (bool_decide (is_Some (files w !! p))), w).

Record DownloadHelper : Type := {
  mode : Mode;
  url : string;
  path : string;
  str : string
}.

Definition fresh_helper : DownloadHelper :=
  {| mode := FILE; url := EmptyString; path := EmptyString; str := EmptyString |}.

Definition set_options (h : DownloadHelper) (m : Mode) (u p : string) : DownloadHelper :=
  {| mode := m; url := u; path := p; str := str h |}.

Definition get_str (h : DownloadHelper) : string := str h.

(** What the network does with a transfer: the whole body arrives, or the
    transfer fails and leaves at the destination nothing or a part of the
    body. *)
Inductive Transfer : Type :=
| Arrives (body : string)
| Fails (part : option string).

Definition completed (t : Transfer) : bool :=
  match t with Arrives _ => true | Fails _ => false end.

(** What is at the destination afterwards, if the transfer wrote there. *)
Definition landed (t : Transfer) : option string :=
  match t with Arrives body => Some body | Fails part => part end.

(** The text that the helper holds afterwards in mode [FILE_AND_STR]. *)
Definition received (t : Transfer) : string := default EmptyString (landed t).

Section Acquisition.

Variable OS_STRING : string.
(** [get_internal_dir()], [ASSETS_DIR] and [VERSION_MANIFEST_URL] *)
Variable internal_dir : string.
Variable ASSETS_DIR : string.
Variable VERSION_MANIFEST_URL : string.
(** What the network does with the transfer of a URL, rapidjson's parser
    as it is called here (on the [c_str()] of a text), the SHA-1 digest in
    hexadecimal, and libzip's reading of a file as an archive (the names
    of its entries, or nothing when it is no archive). *)
Variable remote : string -> Transfer.
Variable Parse : string -> Value.
Variable sha1 : string -> string.
Variable zip_entries : string -> option (list string).

(** Modelled from the spec: [DownloadHelper] is declared outside the files
    at hand.  [perform] transfers the body at the helper's URL to its
    destination file and, in mode [FILE_AND_STR], keeps it as text too;
    its [bool] result says whether the transfer succeeded.  A transfer that
    fails may leave a half-written file.  The helper is shared, so its new
    state is returned next to the result. *)
Definition perform (h : DownloadHelper) : M (DownloadHelper * bool) :=
  let t := remote (url h) in
  log (EvDownload (mode h) (url h) (path h));;
  match landed t with
  | Some contents => write_file (path h) contents
  | None => mret tt
  end;;
  mret ({| mode := mode h; url := url h; path := path h;
           str := match mode h with FILE_AND_STR => received t | FILE => str h end |},
        completed t).

(** Modelled from the spec: [sha1_checksum] verifies that the checksum of
    the body equals the expected one; a mismatch is a fatal integrity
    error. *)
Definition sha1_checksum (h : DownloadHelper) (checksum : string) : M unit :=
  if String.eqb (sha1 (get_str h)) checksum then mret tt else throw IntegrityError.

(** Modelled from the spec: [download_cached_file] yields the text of the
    file at [path], transferring it from [url] first when it is not there. *)
Definition download_cached_file (u p : string) (download_str : bool) : M string :=
  fun w =>
    match files w !! p with
    | Some contents => (Ok contents, w)
    | None =>
        ('(h, _) ← perform (set_options fresh_helper FILE_AND_STR u p); mret (get_str h)) w
    end.

(** Modelled from the spec: [MultiDownloadHelper::perform_blocking] runs
    every helper of the batch and returns when all of them are done, with
    a result for each task; a task that fails does not stop the others. *)
Fixpoint perform_blocking (helpers : list DownloadHelper) : M (list bool) :=
  match helpers with
  | [] => mret []
  | h :: rest =>
      '(_, success) ← perform h;
      results ← perform_blocking rest;
      mret (success :: results)
  end.

(** [get_version_manifest] *)
Definition get_version_manifest : M DownloadHelper :=
  let assets_path := internal_dir // ASSETS_DIR in
  create_dir_if_not_exists assets_path;;
  OUT "Obtaining version index...";;
  let manifest_file_path := assets_path // "version_manifest.json" in
  let helper := set_options fresh_helper FILE_AND_STR VERSION_MANIFEST_URL manifest_file_path in
  '(helper, _) ← perform helper;
  mret helper.

(** The search loop of [obtain_version_json]: the pair is
    [(ver_url, ver_hash)]. *)
Fixpoint find_version (versions : GenericArray) (version : string)
    (found : string * string) : Res (string * string) :=
  match versions with
  | [] => Ok found
  | ver :: rest =>
      ver_obj ← GetObject ver;
      id_val ← json_access_o ver_obj "id";
      id ← GetString id_val;
      if String.eqb id version then
        url_val ← json_access_o ver_obj "url";
        ver_url ← GetString url_val;
        hash_val ← json_access_o ver_obj "sha1";
        ver_hash ← GetString hash_val;
        assert (String.length ver_hash =? 40)%nat;;
        Ok (ver_url, ver_hash)
      else find_version rest version found
  end.

(** [obtain_version_json]: the document written through [ret] is returned
    next to the helper. *)
Definition obtain_version_json (version : string) : M (DownloadHelper * Value) :=
  OUT "Downloading version json...";;
  helper ← get_version_manifest;
  let manifest_file := get_str helper in
  let doc := Parse manifest_file in
  versions_val ← liftR (json_access doc "versions");
  versions ← liftR (GetArray versions_val);
  '(ver_url, ver_hash) ← liftR (find_version versions version (EmptyString, EmptyString));
  if empty ver_url then throw VersionNotFoundException
  else
    let index_file_name := version +:+ ".json" in
    let index_file_path := internal_dir // ASSETS_DIR // index_file_name in
    let helper := set_options helper FILE_AND_STR ver_url index_file_path in
    '(helper, _) ← perform helper;
    sha1_checksum helper ver_hash;;
    mret (helper, Parse (get_str helper)).

(** [zip_open], [zip_get_num_entries] (-1 on a null archive) and
    [zip_stat_index] (the entry's name when the index is valid). *)
Definition zip_open (p : string) : M (option (list string)) :=
  fun w => (Ok (files w !! p ≫= zip_entries),
            {| files := files w; events := events w ++ [EvZipOpen p] |}).

Definition zip_get_num_entries (z : option (list string)) : Z :=
  match z with Some entries => Z.of_nat (length entries) | None => (-1)%Z end.

Definition zip_stat_index (z : option (list string)) (i : nat) : option string :=
  match z with Some entries => nth_error entries i | None => None end.

(** The loop of [install_native_library] over the indices below the
    number of entries. *)
Fixpoint list_entries (z : option (list string)) (indices : list nat) : M unit :=
  match indices with
  | [] => mret tt
  | i :: rest =>
      match zip_stat_index z i with
      | Some name => OUT ("NATIVE" +:+ name)
      | None => mret tt
      end;;
      list_entries z rest
  end.

(** [install_native_library] *)
Definition install_native_library (p : string) : M unit :=
  z ← zip_open p;
  list_entries z (seq 0 (Z.to_nat (zip_get_num_entries z))).

(** One turn of the rule loop of [obtain_libraries]: whether the rule
    sets [rule_fail]. *)
Definition rule_vetoes (rule : Value) : Res bool :=
  action_val ← json_access rule "action";
  action ← GetString action_val;
  rule_obj ← GetObject rule;
  if HasMember rule_obj "os" then
    os ← member rule_obj "os";
    name_val ← json_access os "name";
    os_name ← GetString name_val;
    Ok ((String.eqb action "allow" && negb (String.eqb os_name OS_STRING))
        || (String.eqb action "disallow" && String.eqb os_name OS_STRING))
  else Ok false.

Fixpoint rules_loop (rules : GenericArray) (rule_fail : bool) : Res bool :=
  match rules with
  | [] => Ok rule_fail
  | rule :: rest =>
      veto ← rule_vetoes rule;
      rules_loop rest (if (veto : bool) then true else rule_fail)
  end.

(** The body of the library loop; the state is the batch of helpers and
    [native_libs]. *)
Definition library_step (libraries_path natives_path : string) (lib_val : Value)
    (st : list DownloadHelper * list string) : M (list DownloadHelper * list string) :=
  let '(multi_helper, native_libs) := st in
  lib ← liftR (GetObject lib_val);
  downloads ← liftR (json_access_o lib "downloads");
  artifact_val ← liftR (json_access downloads "artifact");
  download_artifact ← liftR (GetObject artifact_val);
  name_val ← liftR (json_access_o lib "name");
  name ← liftR (GetString name_val);
  path_val ← liftR (json_access_o download_artifact "path");
  path_str ← liftR (GetString path_val);
  let p := if HasMember lib "natives" then natives_path // path_str
           else libraries_path // path_str in
  let native_libs := if HasMember lib "natives" then native_libs ++ [p] else native_libs in
  present ← file_exists p;
  if (present : bool) then mret (multi_helper, native_libs)
  else
    create_leading_directories p;;
    url_val ← liftR (json_access_o download_artifact "url");
    u ← liftR (GetString url_val);
    rule_fail ← liftR (if HasMember lib "rules" then
                         rules_val ← member lib "rules";
                         rules ← GetArray rules_val;
                         rules_loop rules false
                       else Ok false);
    if (rule_fail : bool) then mret (multi_helper, native_libs)
    else
      let lib_helper := set_options fresh_helper FILE u p in
      OUT ("Found library " +:+ name);;
      mret (multi_helper ++ [lib_helper], native_libs).

Fixpoint libraries_loop (libraries_path natives_path : string) (libs : GenericArray)
    (st : list DownloadHelper * list string) : M (list DownloadHelper * list string) :=
  match libs with
  | [] => mret st
  | lib_val :: rest =>
      st' ← library_step libraries_path natives_path lib_val st;
      libraries_loop libraries_path natives_path rest st'
  end.

Definition hash_path (hash : string) : string := substr hash 0 2 +:+ "/" +:+ hash.

(** The body of the asset loop. *)
Definition asset_step (assets_path : string) (asset_val : string * Value)
    (multi_helper : list DownloadHelper) : M (list DownloadHelper) :=
  asset ← liftR (GetObject asset_val.2);
  hash_val ← liftR (json_access_o asset "hash");
  hash ← liftR (GetString hash_val);
  let p := assets_path // "objects" // hash_path hash in
  present ← file_exists p;
  if (present : bool) then mret multi_helper
  else
    let u := ("http://resources.download.minecraft.net/" +:+ hash_path hash) in
    create_leading_directories p;;
    let asset_helper := set_options fresh_helper FILE u p in
    mret (multi_helper ++ [asset_helper]).

Fixpoint assets_loop (assets_path : string) (objects : GenericObject)
    (multi_helper : list DownloadHelper) : M (list DownloadHelper) :=
  match objects with
  | [] => mret multi_helper
  | asset_val :: rest =>
      multi_helper' ← asset_step assets_path asset_val multi_helper;
      assets_loop assets_path rest multi_helper'
  end.

Fixpoint install_each (native_libs : list string) : M unit :=
  match native_libs with
  | [] => mret tt
  | p :: rest => install_native_library p;; install_each rest
  end.

(** [obtain_libraries]: the descriptor written through [ret] is returned. *)
Definition obtain_libraries (version : string) : M Value :=
  '(helper, ret) ← obtain_version_json version;
  let libraries_path := internal_dir // "libraries" in
  create_dir_if_not_exists libraries_path;;
  let natives_path := internal_dir // "versions" // version // "natives" in
  create_leading_directories natives_path;;
  OUT "Downloading libraries...";;
  libs_val ← liftR (json_access ret "libraries");
  libs ← liftR (GetArray libs_val);
  '(multi_helper, native_libs) ← libraries_loop libraries_path natives_path libs ([], []);
  let assets_path := internal_dir // "assets" in
  create_dir_if_not_exists (assets_path // "indexes");;
  let asset_index_path := assets_path // "indexes" // (version +:+ ".json") in
  index_val ← liftR (json_access ret "assetIndex");
  index_url_val ← liftR (json_access index_val "url");
  index_url ← liftR (GetString index_url_val);
  asset_index_contents ← download_cached_file index_url asset_index_path true;
  create_dir_if_not_exists (assets_path // "objects");;
  create_dir_if_not_exists (assets_path // "virtual");;
  let asset_index := Parse asset_index_contents in
  objects_val ← liftR (json_access asset_index "objects");
  objects ← liftR (GetObject objects_val);
  multi_helper ← assets_loop assets_path objects multi_helper;
  OUT "Downloading libraries and assets...";;
  perform_blocking multi_helper;;
  OUT "Libraries and assets downloaded";;
  OUT "Extracting natives...";;
  install_each native_libs;;
  mret ret.

End Acquisition.

End Net.

(** ** Vocabulary of the specification *)

Module Shape.

Import Game Net.

(** [p] occurs in [s]. *)
Definition is_substring (p s : string) : Prop :=
  exists pre post : string, s = pre +:+ p +:+ post.

(** The literal has no ['$']: what the assertion of [repl_arg_token]
    checks. *)
Definition no_dollar (s : string) : Prop := find_char "$" s = None.


(** The text that [write_flags] appends for a list of flags. *)
Fixpoint words (l : list string) : string :=
  match l with
  | [] => EmptyString
  | w :: l' => " " +:+ w +:+ words l'
  end.


(** The text of [contents] where [repl_arg_token] stops substituting:
    at its assertion, or at the early return of the offline branch. *)
Definition substituted (g : GameRunner) (paths : CachedPaths) (version_string : string)
    (is_jvm : bool) (contents : string) : string :=
  if is_jvm then jvm_repl g paths version_string contents
  else
    let contents := game_repl_head g paths version_string contents in
    if is_offline (user g) then
      if is_auth_placeholder contents then contents
      else _GAME_ARG_REPL contents "${user_type}" "mojang"
    else _GAME_ARG_REPL (game_repl_auth contents) "${user_type}" "mojang".



Definition auth_placeholders : list string :=
  ["${auth_player_name}"; "${auth_access_token}"; "${auth_uuid}"].


(** The member is a string that [GetString] reads as [text]. *)
Definition reads_as (member : option Value) (text : string) : Prop :=
  exists s, member = Some (kString s) /\ c_str s = text.

(** A manifest entry, as the code reads it, and the JSON values that hold
    one. *)
Record ManifestEntry : Type := {
  id : string;
  entry_url : string;
  entry_sha1 : string
}.

Definition is_entry (v : Value) (e : ManifestEntry) : Prop :=
  exists o, v = kObject o
    /\ reads_as (FindMember o "id") (id e)
    /\ reads_as (FindMember o "url") (entry_url e)
    /\ reads_as (FindMember o "sha1") (entry_sha1 e).

(** The entry that resolution looks at: the first one with the id. *)
Definition lookup_entry (version : string) (entries : list ManifestEntry)
    : option ManifestEntry :=
  List.find (fun e => String.eqb (id e) version) entries.

Definition is_manifest (doc : Value) (entries : list ManifestEntry) : Prop :=
  exists o vs, doc = kObject o
    /\ FindMember o "versions" = Some (kArray vs)
    /\ Forall2 is_entry vs entries.

(** The descriptor path and the helper of a resolved entry. *)
Definition index_file_path (internal_dir ASSETS_DIR version : string) : string :=
  internal_dir // ASSETS_DIR // (version +:+ ".json").

Definition descriptor_helper (internal_dir ASSETS_DIR : string) (remote : string -> Transfer)
    (version : string) (e : ManifestEntry) : DownloadHelper :=
  {| mode := FILE_AND_STR; url := entry_url e;
     path := index_file_path internal_dir ASSETS_DIR version;
     str := received (remote (entry_url e)) |}.

(** A library rule, as far as the library loop reads it. *)
Inductive Action : Type := Allow | Disallow.

Definition action_text (a : Action) : string :=
  match a with Allow => "allow" | Disallow => "disallow" end.

Record Rule : Type := {
  action : Action;
  osName : option string
}.

Definition is_rule (v : Value) (r : Rule) : Prop :=
  exists o, v = kObject o
    /\ reads_as (FindMember o "action") (action_text (action r))
    /\ match osName r with
       | None => FindMember o "os" = None
       | Some n => exists os, FindMember o "os" = Some (kObject os)
                              /\ reads_as (FindMember os "name") n
       end.

(** The rule evaluator in the words of the specification, for the
    operating-system name: an Allow rule narrows to its name, a Disallow
    rule excludes its name, and an item is excluded when any rule vetoes. *)
Definition vetoes (os : string) (r : Rule) : bool :=
  match osName r with
  | None => false
  | Some n =>
      match action r with
      | Allow => negb (String.eqb n os)
      | Disallow => String.eqb n os
      end
  end.

Definition excluded (os : string) (rs : list Rule) : bool := existsb (vetoes os) rs.

Record LibraryEntry : Type := {
  name : string;
  artifactPath : string;
  lib_url : string;
  isNative : bool;
  rules : option (list Rule)
}.

Definition is_library (v : Value) (e : LibraryEntry) : Prop :=
  exists o d a, v = kObject o
    /\ FindMember o "downloads" = Some (kObject d)
    /\ FindMember d "artifact" = Some (kObject a)
    /\ reads_as (FindMember o "name") (name e)
    /\ reads_as (FindMember a "path") (artifactPath e)
    /\ reads_as (FindMember a "url") (lib_url e)
    /\ HasMember o "natives" = isNative e
    /\ match rules e with
       | None => FindMember o "rules" = None
       | Some rs => exists vs, FindMember o "rules" = Some (kArray vs)
                               /\ Forall2 is_rule vs rs
       end.

(** Where the planner puts a library. *)
Definition destination (libraries_path natives_path : string) (e : LibraryEntry) : string :=
  if isNative e then natives_path // artifactPath e
  else libraries_path // artifactPath e.

(** What the library loop reads of an entry before it looks at the file
    system: the destination and whether the entry is a native library. *)
Definition library_target (libraries_path natives_path : string) (lib_val : Value)
    : Res (string * bool) :=
  lib ← GetObject lib_val;
  downloads ← json_access_o lib "downloads";
  artifact_val ← json_access downloads "artifact";
  download_artifact ← GetObject artifact_val;
  name_val ← json_access_o lib "name";
  name ← GetString name_val;
  path_val ← json_access_o download_artifact "path";
  path_str ← GetString path_val;
  Ok (if HasMember lib "natives" then natives_path // path_str
      else libraries_path // path_str,
      HasMember lib "natives").

(** What it reads once the destination is known to be absent: the helper
    to add with the console line, or nothing when a rule vetoes. *)
Definition library_task (os : string) (lib_val : Value) (p : string)
    : Res (option (DownloadHelper * string)) :=
  lib ← GetObject lib_val;
  downloads ← json_access_o lib "downloads";
  artifact_val ← json_access downloads "artifact";
  download_artifact ← GetObject artifact_val;
  name_val ← json_access_o lib "name";
  name ← GetString name_val;
  url_val ← json_access_o download_artifact "url";
  u ← GetString url_val;
  rule_fail ← (if HasMember lib "rules" then
                 rules_val ← member lib "rules";
                 rules ← GetArray rules_val;
                 rules_loop os rules false
               else Ok false);
  Ok (if (rule_fail : bool) then None
      else Some (set_options fresh_helper FILE u p, "Found library " +:+ name)).

(** The hash that the asset loop reads of an object. *)
Definition asset_hash (asset_val : string * Value) : Res string :=
  asset ← GetObject asset_val.2;
  hash_val ← json_access_o asset "hash";
  GetString hash_val.

Definition add_event (w : World) (e : Event) : World :=
  {| files := files w; events := events w ++ [e] |}.

Definition put_file (w : World) (p contents : string) : World :=
  {| files := <[p := contents]> (files w); events := events w |}.

(** The world after the transfer [t] of [u] to [p]: the attempt is
    recorded, and the destination holds what the transfer left there. *)
Definition fetched (w : World) (m : Mode) (u p : string) (t : Transfer) : World :=
  match landed t with
  | Some contents => put_file (add_event w (EvDownload m u p)) p contents
  | None => add_event w (EvDownload m u p)
  end.

(** The world once [obtain_version_json] is through with the manifest. *)
Definition manifest_fetched (internal_dir ASSETS_DIR manifest_url : string) (t : Transfer)
    (w : World) : World :=
  fetched
    (add_event
       (add_event (add_event w (EvOut "Downloading version json..."))
                  (EvCreateDir (internal_dir // ASSETS_DIR)))
       (EvOut "Obtaining version index..."))
    FILE_AND_STR manifest_url
    (internal_dir // ASSETS_DIR // "version_manifest.json") t.

(** Every file of [w] is a file of [w2]. *)
Definition covers (w w2 : World) : Prop :=
  forall p, is_Some (files w !! p) -> is_Some (files w2 !! p).

Definition is_asset (v : Value) (hash : string) : Prop :=
  exists o, v = kObject o /\ reads_as (FindMember o "hash") hash.

Definition is_hex (c : ascii) : bool :=
  let n := nat_of_ascii c in
  ((48 <=? n) && (n <=? 57) || (97 <=? n) && (n <=? 102))%nat.

Fixpoint all_hex (s : string) : bool :=
  match s with
  | EmptyString => true
  | String c s' => is_hex c && all_hex s'
  end.

(** A lowercase 40-character hexadecimal SHA-1. *)
Definition is_sha1 (h : string) : Prop := String.length h = 40%nat /\ all_hex h = true.

End Shape.

(** ** A concrete launch and a concrete acquisition *)

Module Sample.

Import Game Net Shape.

Definition os : string := "linux".
Definition arch : string := "x86_64".
Definition allowed (action : string) : bool := String.eqb action "allow".
Definition versions : gmap MinecraftVersion string := {[ 0%nat := "1.19" ]}.

Definition paths : CachedPaths := {| internal := "/mcvm"; assets := "/mcvm/assets" |}.

Definition offline_user : User := {| is_offline := true; is_demo := false |}.

Definition runner : GameRunner :=
  new_GameRunner 0%nat "/mc" "/mc/client.jar" offline_user "a.jar:b.jar".


(** A descriptor with two JVM arguments and a game phase that names the
    user and the version. *)
Definition descriptor : Value :=
  kObject
    [("arguments",
      kObject
        [("game", kArray [kString "--username"; kString "${auth_player_name}";
                          kString "--version"; kString "${version_name}"]);
         ("jvm", kArray [kString "-Xmx2G"; kString "-Dbrand=${launcher_name}"])]);
     ("mainClass", kString "net.minecraft.client.main.Main")].

Definition launched : GameRunner :=
  set_output runner
    (" -Xmx2G -Dbrand=mcvm -Dorg.lwjgl.util.DebugLoader=true"
     +:+ " net.minecraft.client.main.Main --version 1.19").

(** The acquisition of version 1.19 on Linux: one plain library, one
    native library for Linux, one native library that the rules keep for
    macOS, and one asset. *)
Definition internal_dir : string := "/mcvm".
Definition ASSETS_DIR : string := "assets".
Definition VERSION_MANIFEST_URL : string := "https://meta.example/version_manifest.json".

Definition sha1_descriptor : string := "0123456789abcdef0123456789abcdef01234567".
Definition icon_hash : string := "89abcdef0123456789abcdef0123456789abcdef".

Definition entry_1_19 : ManifestEntry :=
  {| id := "1.19"; entry_url := "https://meta.example/1.19.json";
     entry_sha1 := sha1_descriptor |}.

(** An entry whose url is the empty string. *)
Definition entry_1_18 : ManifestEntry :=
  {| id := "1.18"; entry_url := EmptyString; entry_sha1 := sha1_descriptor |}.

(** An entry whose sha1 is too short. *)
Definition entry_1_17 : ManifestEntry :=
  {| id := "1.17"; entry_url := EmptyString; entry_sha1 := "abc" |}.

Definition entry_json (e : ManifestEntry) : Value :=
  kObject [("id", kString (id e)); ("type", kString "release");
           ("url", kString (entry_url e)); ("sha1", kString (entry_sha1 e))].

Definition manifest : Value :=
  kObject [("latest", kObject [("release", kString "1.19")]);
           ("versions", kArray [entry_json entry_1_19; entry_json entry_1_18;
                                entry_json entry_1_17])].

Definition allow_on (name : string) : Value :=
  kObject [("action", kString "allow"); ("os", kObject [("name", kString name)])].


Definition library (name p u : string) (extra : GenericObject) : Value :=
  kObject ([("name", kString name);
            ("downloads",
             kObject [("artifact", kObject [("path", kString p); ("url", kString u)])])]
           ++ extra).

Definition brigadier : Value :=
  library "com.mojang:brigadier:1.0.18" "com/mojang/brigadier.jar"
          "https://libs.example/brigadier.jar" [].

Definition glfw_linux : Value :=
  library "org.lwjgl:glfw:natives-linux" "org/lwjgl/glfw-natives-linux.jar"
          "https://libs.example/glfw-natives-linux.jar"
          [("natives", kObject [("linux", kString "natives-linux")]);
           ("rules", kArray [allow_on "linux"])].

Definition glfw_macos : Value :=
  library "org.lwjgl:glfw:natives-macos" "org/lwjgl/glfw-natives-macos.jar"
          "https://libs.example/glfw-natives-macos.jar"
          [("natives", kObject [("osx", kString "natives-macos")]);
           ("rules", kArray [allow_on "osx"])].

Definition glfw_macos_entry : LibraryEntry :=
  {| name := "org.lwjgl:glfw:natives-macos";
     artifactPath := "org/lwjgl/glfw-natives-macos.jar";
     lib_url := "https://libs.example/glfw-natives-macos.jar";
     isNative := true;
     rules := Some [{| action := Allow; osName := Some "osx" |}] |}.

Definition brigadier_entry : LibraryEntry :=
  {| name := "com.mojang:brigadier:1.0.18";
     artifactPath := "com/mojang/brigadier.jar";
     lib_url := "https://libs.example/brigadier.jar";
     isNative := false;
     rules := None |}.

Definition icon : Value := kObject [("hash", kString icon_hash); ("size", kNumber 3665)].

Definition version_json : Value :=
  kObject [("libraries", kArray [brigadier; glfw_linux; glfw_macos]);
           ("assetIndex", kObject [("url", kString "https://meta.example/index.json")])].

Definition asset_index : Value :=
  kObject [("objects", kObject [("icons/icon.png", icon)])].

(** The network serves three documents, named here by a word each, and
    for any other URL a body that is the URL itself; no transfer fails. *)
Definition remote (u : string) : Transfer :=
  Arrives
    (if String.eqb u VERSION_MANIFEST_URL then "manifest"
     else if String.eqb u "https://meta.example/1.19.json" then "descriptor"
     else if String.eqb u "https://meta.example/index.json" then "index"
     else u).

Definition Parse (text : string) : Value :=
  if String.eqb text "manifest" then manifest
  else if String.eqb text "descriptor" then version_json
  else if String.eqb text "index" then asset_index
  else kNull.

Definition sha1 (body : string) : string :=
  if String.eqb body "descriptor" then sha1_descriptor
  else "da39a3ee5e6b4b0d3255bfef95601890afd80709".

(** A digest under which the descriptor does not match its entry. *)
Definition sha1_off (body : string) : string := "da39a3ee5e6b4b0d3255bfef95601890afd80709".

(** Only the Linux archive is an archive, with two entries. *)
Definition zip_entries (contents : string) : option (list string) :=
  if String.eqb contents "https://libs.example/glfw-natives-linux.jar"
  then Some ["liblwjgl_glfw.so"; "META-INF/MANIFEST.MF"]
  else None.

Definition nothing : World := {| files := ∅; events := [] |}.

Definition libraries_path : string := internal_dir // "libraries".
Definition natives_path : string := internal_dir // "versions" // "1.19" // "natives".
Definition macos_archive : string := natives_path // "org/lwjgl/glfw-natives-macos.jar".
Definition linux_archive : string := natives_path // "org/lwjgl/glfw-natives-linux.jar".

Definition acquire (version : string) : M Value :=
  Net.obtain_libraries os internal_dir ASSETS_DIR VERSION_MANIFEST_URL remote Parse sha1
    zip_entries version.

Definition resolve (version : string) : M (DownloadHelper * Value) :=
  Net.obtain_version_json internal_dir ASSETS_DIR VERSION_MANIFEST_URL remote Parse sha1
    version.

End Sample.

(** ** data/profile.cc *)

Module Instances.

Import Game Net.

(** A [Package*]: null, or the address of a package on the heap. *)
Definition PackagePtr : Type := option nat.

Record Profile : Type := {
  profile_name : string;
  profile_version : string;
  packages : list PackagePtr
}.

(** [Profile::Profile]: no packages yet. *)
Definition new_Profile (_name _version : string) : Profile :=
  {| profile_name := _name; profile_version := _version; packages := [] |}.

Definition get_version (p : Profile) : string := profile_version p.

(** [Profile::add_package] *)
Definition add_package (p : Profile) (pkg : PackagePtr) : Profile :=
  {| profile_name := profile_name p; profile_version := profile_version p;
     packages := packages p ++ [pkg] |}.

(** [delete pkg] on the set of live packages: nothing for a null pointer,
    the release of a live package, and no defined result ([None]) for an
    address that is not live. *)
Definition delete (pkg : PackagePtr) (live : gset nat) : option (gset nat) :=
  match pkg with
  | None => Some live
  | Some a => if bool_decide (a ∈ live) then Some (live ∖ {[a]}) else None
  end.

Fixpoint delete_each (pkgs : list PackagePtr) (live : gset nat) : option (gset nat) :=
  match pkgs with
  | [] => Some live
  | pkg :: rest =>
      match delete pkg live with
      | Some live' => delete_each rest live'
      | None => None
      end
  end.

(** [Profile::delete_all_packages] *)
Definition delete_all_packages (p : Profile) (live : gset nat)
    : option (Profile * gset nat) :=
  match delete_each (packages p) live with
  | Some live' =>
      Some ({| profile_name := profile_name p; profile_version := profile_version p;
               packages := [] |}, live')
  | None => None
  end.

Record Instance : Type := {
  parent : Profile;
  name : string;
  dir : string
}.

(** [Instance::Instance] *)
Definition new_Instance (_parent : Profile) (_name mcvm_dir subpath : string) : Instance :=
  {| parent := _parent; name := _name; dir := mcvm_dir // subpath // _name |}.

(** [Instance::ensure_instance_dir] *)
Definition ensure_instance_dir (i : Instance) : M unit :=
  create_leading_directories (dir i);;
  create_dir_if_not_exists (dir i).

(** [Instance::create] *)
Definition create (i : Instance) : M unit := ensure_instance_dir i.

(** What [ServerInstance::create] can end with: what the acquisition code
    ends with, or [FileOpenError]. *)
Inductive Outcome (A : Type) : Type :=
| Returned (a : A)
| Asserted
| Raised (e : Exn)
| FileOpenError.
Arguments Returned {A} a.
Arguments Asserted {A}.
Arguments Raised {A} e.
Arguments FileOpenError {A}.

(** The text of the EULA file. *)
Definition eula_text : string := "eula = true" +:+ String "010"%char EmptyString.

Section Instances.

Variable OS_STRING : string.
Variable internal_dir : string.
Variable ASSETS_DIR : string.
Variable VERSION_MANIFEST_URL : string.
Variable CLIENT_INSTANCES_DIR : string.
Variable SERVER_INSTANCES_DIR : string.
Variable remote : string -> Transfer.
Variable Parse : string -> Value.
Variable sha1 : string -> string.
Variable zip_entries : string -> option (list string).
(** Whether [fopen(path, "w")] yields a file in a world. *)
Variable fopen_w : World -> string -> bool.

(** [ClientInstance::ClientInstance] *)
Definition new_ClientInstance (_parent : Profile) (_name mcvm_dir : string) : Instance :=
  new_Instance _parent _name mcvm_dir CLIENT_INSTANCES_DIR.

(** [ClientInstance::ensure_instance_dir] *)
Definition client_ensure_instance_dir (i : Instance) : M unit :=
  ensure_instance_dir i;;
  create_dir_if_not_exists (dir i // ".minecraft").

(** [ClientInstance::create] *)
Definition client_create (i : Instance) : M unit :=
  client_ensure_instance_dir i;;
  doc ← obtain_libraries OS_STRING internal_dir ASSETS_DIR VERSION_MANIFEST_URL
          remote Parse sha1 zip_entries (get_version (parent i));
  let jar_path := dir i // "client.jar" in
  o ← liftR (GetObject doc);
  liftR (assert (HasMember o "downloads"));;
  downloads_val ← liftR (member o "downloads");
  downloads ← liftR (GetObject downloads_val);
  client_val ← liftR (member downloads "client");
  client_download ← liftR (GetObject client_val);
  url_val ← liftR (member client_download "url");
  u ← liftR (GetString url_val);
  let helper := set_options fresh_helper FILE u jar_path in
  OUT "Downloading client jar...";;
  '(_, success) ← perform remote helper;
  mret tt.

(** [ServerInstance::ServerInstance]; [server_dir] is [dir / "server"]. *)
Definition new_ServerInstance (_parent : Profile) (_name mcvm_dir : string) : Instance :=
  new_Instance _parent _name mcvm_dir SERVER_INSTANCES_DIR.

Definition server_dir (i : Instance) : string := dir i // "server".

(** [ServerInstance::ensure_instance_dir] *)
Definition server_ensure_instance_dir (i : Instance) : M unit :=
  ensure_instance_dir i;;
  create_dir_if_not_exists (dir i // "server").

(** [ServerInstance::create] up to the EULA. *)
Definition server_fetch (i : Instance) : M unit :=
  server_ensure_instance_dir i;;
  '(_, doc) ← obtain_version_json internal_dir ASSETS_DIR VERSION_MANIFEST_URL
                remote Parse sha1 (get_version (parent i));
  let jar_path := server_dir i // "server.jar" in
  o ← liftR (GetObject doc);
  liftR (assert (HasMember o "downloads"));;
  downloads_val ← liftR (member o "downloads");
  downloads ← liftR (GetObject downloads_val);
  server_val ← liftR (member downloads "server");
  client_download ← liftR (GetObject server_val);
  url_val ← liftR (member client_download "url");
  u ← liftR (GetString url_val);
  let helper := set_options fresh_helper FILE u jar_path in
  OUT "Downloading server jar...";;
  '(_, success) ← perform remote helper;
  mret tt.

(** [ServerInstance::create] *)
Definition server_create (i : Instance) (w : World) : Outcome unit * World :=
  match server_fetch i w with
  | (Ok _, w') =>
      let eula := server_dir i // "eula.txt" in
      if fopen_w w' eula
      then (Returned tt, {| files := <[eula := eula_text]> (files w'); events := events w' |})
      else (FileOpenError, w')
  | (AssertFail, w') => (Asserted, w')
  | (Throw e, w') => (Raised e, w')
  end.

End Instances.

End Instances.

(** ** More vocabulary *)

Module Forms.

Import Game Net Shape.

(** A rule of a conditional argument, as [parse_single_arg] reads it. *)
Record ArgRule : Type := {
  rule_action : string;
  rule_os_name : option string;
  rule_os_arch : option string;
  has_custom_resolution : bool;
  is_demo_user : bool
}.

Definition is_arg_rule (v : Value) (r : ArgRule) : Prop :=
  exists o, v = kObject o
    /\ reads_as (FindMember o "action") (rule_action r)
    /\ match rule_os_name r, rule_os_arch r with
       | None, None => FindMember o "os" = None
       | n, a => exists os, FindMember o "os" = Some (kObject os)
                            /\ FindMember os "name" = option_map kString n
                            /\ FindMember os "arch" = option_map kString a
       end
    /\ (if has_custom_resolution r || is_demo_user r
        then exists f, FindMember o "features" = Some (kObject f)
                       /\ HasMember f "has_custom_resolution" = has_custom_resolution r
                       /\ HasMember f "is_demo_user" = is_demo_user r
        else FindMember o "features" = None).

(** Whether a rule lets the argument through. *)
Definition arg_rule_ok (os arch : string) (is_allowed : string -> bool) (u : User)
    (r : ArgRule) : bool :=
  match rule_os_name r with
  | Some n => Bool.eqb (is_allowed (rule_action r)) (String.eqb n os)
  | None => true
  end
  && match rule_os_arch r with
     | Some a => Bool.eqb (is_allowed (rule_action r)) (String.eqb a arch)
     | None => true
     end
  && negb (has_custom_resolution r)
  && (negb (is_demo_user r) || is_demo u).

(** The helper that the library loop adds for an entry, and the one that
    the asset loop adds for a hash. *)
Definition library_helper (lp np : string) (e : LibraryEntry) : DownloadHelper :=
  set_options fresh_helper FILE (lib_url e) (destination lp np e).

Definition asset_path (assets_path hash : string) : string :=
  assets_path // "objects" // hash_path hash.

Definition asset_helper (assets_path hash : string) : DownloadHelper :=
  set_options fresh_helper FILE
    ("http://resources.download.minecraft.net/" +:+ hash_path hash)
    (asset_path assets_path hash).

(** The url of the jar of a side in a descriptor. *)
Definition jar_url (doc : Value) (side : string) : Res string :=
  o ← GetObject doc;
  assert (HasMember o "downloads");;
  downloads_val ← member o "downloads";
  downloads ← GetObject downloads_val;
  side_val ← member downloads side;
  side_download ← GetObject side_val;
  url_val ← member side_download "url";
  GetString url_val.

(** [w'] has every file of [w] and the events of [w] at the front. *)
Definition extends (w w' : World) : Prop :=
  covers w w' /\ exists more, events w' = events w ++ more.

(** [w'] has the events of [w] at the front, and all the later ones
    satisfy [P]. *)
Definition quiet (P : Event -> Prop) (w w' : World) : Prop :=
  exists more, events w' = events w ++ more /\ Forall P more.

(** The event is no transfer to a file alone, or one to [p]. *)
Definition transfers_only_to (p : string) (e : Event) : Prop :=
  forall u q, e = EvDownload FILE u q -> q = p.

(** The console line of an archive entry. *)
Definition native_line (entry : string) : Event := EvOut ("NATIVE" +:+ entry).

(** The addresses among package pointers. *)
Definition addresses (pkgs : list Instances.PackagePtr) : list nat :=
  flat_map (fun pkg => match pkg with Some a => [a] | None => [] end) pkgs.

Definition present (w : World) (p : string) : bool := bool_decide (is_Some (files w !! p)).

(** The entries for which the library loop adds a helper. *)
Definition wanted (os lp np : string) (w : World) (e : LibraryEntry) : bool :=
  negb (present w (destination lp np e))
  && negb (match rules e with Some rs => excluded os rs | None => false end).

End Forms.

(** ** More concrete cases *)

Module Cases.

Import Game Net Shape Forms.

(** A runner whose version the table of [Sample] does not list, and one
    with a user who is not offline. *)
Definition unlisted_runner : GameRunner :=
  new_GameRunner 7%nat "/mc" "/mc/client.jar" Sample.offline_user "a.jar".

Definition online_runner : GameRunner :=
  new_GameRunner 0%nat "/mc" "/mc/client.jar"
    {| is_offline := false; is_demo := false |} "a.jar".

(** [--demo] for demo users on Linux. *)
Definition demo_rule : ArgRule :=
  {| rule_action := "allow"; rule_os_name := Some "linux"; rule_os_arch := None;
     has_custom_resolution := false; is_demo_user := true |}.

Definition demo_rule_json : Value :=
  kObject [("action", kString "allow");
           ("os", kObject [("name", kString "linux")]);
           ("features", kObject [("is_demo_user", kBool true)])].

Definition demo_argument : GenericObject :=
  [("rules", kArray [demo_rule_json]); ("value", kString "--demo")].

Definition bare_descriptor : GenericObject :=
  [("arguments", kObject [("game", kArray []); ("jvm", kArray [])]);
   ("mainClass", kString "net.minecraft.Main$Inner")].

(** The Linux natives of [Sample] as an entry. *)
Definition glfw_linux_entry : LibraryEntry :=
  {| name := "org.lwjgl:glfw:natives-linux";
     artifactPath := "org/lwjgl/glfw-natives-linux.jar";
     lib_url := "https://libs.example/glfw-natives-linux.jar";
     isNative := true;
     rules := Some [{| action := Allow; osName := Some "linux" |}] |}.

(** A library whose artifact has no url. *)
Definition library_without_url : GenericObject :=
  [("name", kString "com.example:local:1.0");
   ("downloads",
    kObject [("artifact", kObject [("path", kString "com/example/local.jar")])])].

(** A rule whose [os] has a version and no name. *)
Definition version_rule : GenericObject :=
  [("action", kString "allow"); ("os", kObject [("version", kString "^10")])].

(** A descriptor with the jars of both sides, a parser that yields it for
    the descriptor of [Sample], and an instance of each side. *)
Definition jar_descriptor : Value :=
  kObject [("libraries", kArray [Sample.brigadier]);
           ("assetIndex", kObject [("url", kString "https://meta.example/index.json")]);
           ("downloads",
            kObject [("client", kObject [("url", kString "https://jars.example/client.jar")]);
                     ("server", kObject [("url", kString "https://jars.example/server.jar")])])].

Definition Parse_jars (text : string) : Value :=
  if String.eqb text "descriptor" then jar_descriptor else Sample.Parse text.

Definition profile : Instances.Profile := Instances.new_Profile "main" "1.19".

Definition client : Instances.Instance :=
  Instances.new_ClientInstance "client" profile "one" "/mcvm".

Definition server : Instances.Instance :=
  Instances.new_ServerInstance "server" profile "one" "/mcvm".

(** The network of [Sample] with transfers that fail and leave nothing:
    that of one library, and those of the two jars. *)
Definition remote_without_brigadier (u : string) : Transfer :=
  if String.eqb u "https://libs.example/brigadier.jar" then Fails None else Sample.remote u.

Definition remote_without_jars (u : string) : Transfer :=
  if String.eqb u "https://jars.example/client.jar"
     || String.eqb u "https://jars.example/server.jar"
  then Fails None else Sample.remote u.

Definition acquire_without_brigadier (version : string) : M Value :=
  Net.obtain_libraries Sample.os Sample.internal_dir Sample.ASSETS_DIR
    Sample.VERSION_MANIFEST_URL remote_without_brigadier Sample.Parse Sample.sha1
    Sample.zip_entries version.

Definition create_client (remote : string -> Transfer) : M unit :=
  Instances.client_create Sample.os Sample.internal_dir Sample.ASSETS_DIR
    Sample.VERSION_MANIFEST_URL remote Parse_jars Sample.sha1 Sample.zip_entries client.

(** [ServerInstance::create] where every file can be opened, and where
    none can. *)
Definition create_server (remote : string -> Transfer) (can_open : bool) (w : World)
    : Instances.Outcome unit * World :=
  Instances.server_create Sample.internal_dir Sample.ASSETS_DIR Sample.VERSION_MANIFEST_URL
    remote Parse_jars Sample.sha1 (fun _ _ => can_open) server w.

End Cases.

(** * Properties *)

(** ** Strings and outcomes *)

Module Facts.

Import Game Net Shape.

#[local] Arguments String.append : simpl nomatch.

Lemma append_nil_r (s : string) : s +:+ EmptyString = s.
Proof. induction s as [|c s IH]; simpl; [reflexivity | now rewrite IH]. Qed.

Lemma append_assoc (a b c : string) : (a +:+ b) +:+ c = a +:+ (b +:+ c).
Proof. induction a as [|x a IH]; simpl; [reflexivity | now rewrite IH]. Qed.

Lemma length_append (a b : string) :
  String.length (a +:+ b) = (String.length a + String.length b)%nat.
Proof. induction a as [|x a IH]; simpl; [reflexivity | now rewrite IH]. Qed.

Lemma find_char_append_eq (c : ascii) (a b : string) :
  find_char c (a +:+ b) =
  match find_char c a with
  | Some n => Some n
  | None => match find_char c b with
            | Some m => Some (String.length a + m)%nat
            | None => None
            end
  end.
Proof.
  induction a as [|x a IH]; simpl.
  - now destruct (find_char c b).
  - destruct (Ascii.eqb x c); [reflexivity|].
    rewrite IH. destruct (find_char c a); [reflexivity|].
    now destruct (find_char c b).
Qed.

Lemma find_char_append (c : ascii) (a b : string) :
  find_char c (a +:+ b) = None <-> find_char c a = None /\ find_char c b = None.
Proof.
  rewrite find_char_append_eq.
  destruct (find_char c a), (find_char c b); intuition discriminate.
Qed.




Lemma removelast_Forall {A} (P : A -> Prop) (l : list A) :
  Forall P l -> Forall P (removelast l).
Proof.
  induction 1 as [|x l Hx Hl IH]; simpl; [constructor|].
  destruct l; [constructor | now constructor].
Qed.

Lemma words_app (a b : list string) : words (a ++ b) = words a +:+ words b.
Proof.
  induction a as [|w a IH]; simpl; [reflexivity|].
  now rewrite IH, !append_assoc.
Qed.

(** A bind returns only when both of its parts do. *)
Lemma rbind_Ok {A B} (r : Res A) (k : A -> Res B) (b : B) :
  r ≫= k = Ok b -> exists a, r = Ok a /\ k a = Ok b.
Proof. destruct r; simpl; intros H; try discriminate. eauto. Qed.

Lemma assert_Ok (b : bool) (u : unit) : assert b = Ok u -> b = true.
Proof. destruct b; [reflexivity | discriminate]. Qed.

(** Induction over a JSON value with its nested lists. *)
Lemma Value_nested_ind (P : Value -> Prop) :
  P kNull ->
  (forall b, P (kBool b)) ->
  (forall n, P (kNumber n)) ->
  (forall s, P (kString s)) ->
  (forall l, Forall P l -> P (kArray l)) ->
  (forall o, Forall (fun kv => P kv.2) o -> P (kObject o)) ->
  forall v, P v.
Proof.
  intros Hnull Hbool Hnum Hstr Harr Hobj.
  fix IH 1. intros [| b | n | s | l | o].
  - exact Hnull.
  - apply Hbool.
  - apply Hnum.
  - apply Hstr.
  - apply Harr. induction l as [|v l IHl]; constructor; [apply IH | exact IHl].
  - apply Hobj. induction o as [|[k v] o IHo]; constructor; [apply IH | exact IHo].
Qed.

End Facts.

(** ** The launch arguments *)

Module Launch.

Import Game Shape Facts.

#[local] Arguments String.append : simpl nomatch.

Section Launch.

#[local] Set Default Proof Using "Type".

Variable OS_STRING : string.
Variable ARCH_STRING : string.
Variable is_allowed : string -> bool.
Variable mc_version_reverse_map : gmap MinecraftVersion string.

Local Abbreviation repl_arg_token := (Game.repl_arg_token mc_version_reverse_map).
Local Abbreviation emit_contents := (Game.emit_contents mc_version_reverse_map).
Local Abbreviation parse_single_arg :=
  (Game.parse_single_arg OS_STRING ARCH_STRING is_allowed mc_version_reverse_map).
Local Abbreviation parse_each :=
  (Game.parse_each OS_STRING ARCH_STRING is_allowed mc_version_reverse_map).
Local Abbreviation parse_args :=
  (Game.parse_args OS_STRING ARCH_STRING is_allowed mc_version_reverse_map).

(** [repl_arg_token] by cases: the early return of the offline branch,
    the assertion passing, the assertion failing. *)
Lemma repl_arg_token_cases g contents is_jvm paths version_string :
  mc_version_reverse_map !! version g = Some version_string ->
  repl_arg_token g contents is_jvm paths =
    let s := substituted g paths version_string is_jvm contents in
    if negb is_jvm && is_offline (user g)
       && is_auth_placeholder (game_repl_head g paths version_string contents)
    then Ok (s, true)
    else if bool_decide (no_dollar s) then Ok (s, false) else AssertFail.
Proof.
  intros Hv. unfold Game.repl_arg_token, substituted, no_dollar. rewrite Hv.
  destruct is_jvm; simpl.
  - now destruct (bool_decide _).
  - destruct (is_offline (user g)); simpl.
    + destruct (is_auth_placeholder _); [reflexivity|].
      now destruct (bool_decide _).
    + now destruct (bool_decide _).
Qed.

Lemma repl_arg_token_Ok g contents is_jvm paths s drop :
  repl_arg_token g contents is_jvm paths = Ok (s, drop) ->
  exists version_string,
    mc_version_reverse_map !! version g = Some version_string
    /\ s = substituted g paths version_string is_jvm contents
    /\ (drop = false -> no_dollar s)
    /\ (drop = true -> is_jvm = false /\ is_offline (user g) = true
                       /\ is_auth_placeholder s = true).
Proof.
  destruct (mc_version_reverse_map !! version g) as [vs|] eqn:Hv.
  - rewrite (repl_arg_token_cases _ _ _ _ _ Hv). cbv zeta.
    destruct (negb is_jvm && is_offline (user g) && is_auth_placeholder _) eqn:E.
    + intros [= <- <-]. exists vs. repeat split; try discriminate.
      * now destruct is_jvm.
      * destruct is_jvm; [discriminate|]. simpl in E. now destruct (is_offline (user g)).
      * destruct is_jvm; [discriminate|]. simpl in E.
        unfold substituted. destruct (is_offline (user g)); [|discriminate].
        simpl in E. now rewrite E.
    + destruct (bool_decide (no_dollar _)) eqn:D; [|discriminate].
      intros [= <- <-]. exists vs. repeat split; try discriminate.
      intros _. now apply bool_decide_eq_true in D.
  - unfold Game.repl_arg_token. rewrite Hv. discriminate.
Qed.

(** The inner loops of [parse_single_arg] are the loop over the elements
    and the lookup of ["value"]. *)
Lemma parse_single_arg_array values is_jvm paths g :
  parse_single_arg (kArray values) is_jvm paths g =
    (g' ← parse_each values is_jvm paths g; emit_contents g' EmptyString is_jvm paths).
Proof.
  simpl. f_equal. revert g. induction values as [|v l IH]; intros g; simpl; [reflexivity|].
  destruct (Game.parse_single_arg _ _ _ _ v is_jvm paths g); simpl; auto.
Qed.

Lemma parse_single_arg_object arg_obj is_jvm paths g :
  parse_single_arg (kObject arg_obj) is_jvm paths g =
    (rules_val ← json_access_o arg_obj "rules";
     rules ← GetArray rules_val;
     ok ← rules_pass OS_STRING ARCH_STRING is_allowed (user g) rules;
     if (ok : bool) then
       value ← json_access_o arg_obj "value";
       parse_single_arg value is_jvm paths g
     else Ok g).
Proof.
  simpl.
  destruct (json_access_o arg_obj "rules") as [rv| |]; simpl; try reflexivity.
  destruct (GetArray rv) as [rs| |]; simpl; try reflexivity.
  destruct (rules_pass _ _ _ _ rs) as [[|]| |]; simpl; try reflexivity.
  unfold json_access_o.
  induction arg_obj as [|[k v] o IH]; simpl; [reflexivity|].
  destruct (String.eqb k "value"); simpl; [reflexivity | exact IH].
Qed.

Lemma FindMember_In o name v : FindMember o name = Some v -> In (name, v) o.
Proof.
  induction o as [|[k x] o IH]; simpl; [discriminate|].
  destruct (String.eqb k name) eqn:E.
  - intros [= ->]. apply String.eqb_eq in E as ->. now left.
  - intros H. right. auto.
Qed.

(** Whatever [emit_contents] preserves, [parse_single_arg] preserves. *)
Lemma parse_single_arg_preserves (I : GameRunner -> Prop) is_jvm paths :
  (forall g contents g', I g -> emit_contents g contents is_jvm paths = Ok g' -> I g') ->
  forall arg g g', I g -> parse_single_arg arg is_jvm paths g = Ok g' -> I g'.
Proof.
  intros Hemit arg.
  induction arg as [| b | n | s | l IHl | o IHo] using Value_nested_ind;
    intros g g' Hg; try discriminate.
  - simpl. apply Hemit, Hg.
  - rewrite parse_single_arg_array. intros H.
    apply rbind_Ok in H as (g1 & Hl & He).
    apply (Hemit g1 EmptyString); [|exact He].
    clear He. revert g Hg Hl. induction IHl as [|v l Hv _ IH]; intros g Hg; simpl.
    + now intros [= <-].
    + intros H. apply rbind_Ok in H as (g2 & H2 & H3). eapply IH; [|exact H3]. eauto.
  - rewrite parse_single_arg_object. intros H.
    apply rbind_Ok in H as (rv & _ & H).
    apply rbind_Ok in H as (rs & _ & H).
    apply rbind_Ok in H as (ok & _ & H).
    destruct ok; [|now injection H as <-].
    apply rbind_Ok in H as (v & Hv & H).
    unfold json_access_o in Hv. destruct (FindMember o "value") as [x|] eqn:Hf; [|discriminate].
    injection Hv as ->. apply FindMember_In in Hf.
    rewrite List.Forall_forall in IHo. exact (IHo _ Hf g g' Hg H).
Qed.

Lemma parse_each_preserves (I : GameRunner -> Prop) is_jvm paths :
  (forall g contents g', I g -> emit_contents g contents is_jvm paths = Ok g' -> I g') ->
  forall args g g', I g -> parse_each args is_jvm paths g = Ok g' -> I g'.
Proof.
  intros Hemit args. induction args as [|a l IH]; intros g g' Hg; simpl.
  - now intros [= <-].
  - intros H. apply rbind_Ok in H as (g1 & H1 & H2).
    eapply IH; [|exact H2]. eapply parse_single_arg_preserves; eauto.
Qed.







Lemma c_str_auth_placeholder p : In p auth_placeholders -> c_str p = p.
Proof. intros [<-|[<-|[<-|[]]]]; reflexivity. Qed.

Lemma repl_arg_token_auth_offline g paths version_string p :
  is_offline (user g) = true ->
  mc_version_reverse_map !! version g = Some version_string ->
  In p auth_placeholders ->
  repl_arg_token g p false paths = Ok (p, true).
Proof.
  intros Hoff Hv Hp. unfold Game.repl_arg_token. rewrite Hv, Hoff.
  destruct Hp as [<-|[<-|[<-|[]]]]; reflexivity.
Qed.



(** *** [fandr] on a literal with placeholders *)









(** *** Exact matches in the game phase *)


Lemma is_substring_length (p s : string) :
  is_substring p s -> String.length p = String.length s -> s = p.
Proof.
  intros (pre & post & ->) H. rewrite !length_append in H.
  destruct pre; [|simpl in H; lia]. destruct post; [|simpl in H; lia].
  simpl. apply append_nil_r.
Qed.








End Launch.

(** The claims at the sample launch. *)



(** A literal is read up to its first NUL: what stands behind it, a ['$']
    included, is not looked at. *)
Example literal_is_read_as_c_string :
  Game.parse_single_arg Sample.os Sample.arch Sample.allowed Sample.versions
    (kString ("--x" +:+ String "000" "${y}")) false Sample.paths Sample.runner
  = Ok (add_flag Sample.runner "--x").
Proof. vm_compute. reflexivity. Qed.



End Launch.

(** ** Acquisition *)

Module Acquire.

Import Game Net Shape Facts.

#[local] Arguments String.append : simpl nomatch.

Section Rules.

#[local] Set Default Proof Using "Type".

Variable OS_STRING : string.

Local Abbreviation rule_vetoes := (Net.rule_vetoes OS_STRING).
Local Abbreviation rules_loop := (Net.rules_loop OS_STRING).

(** The loop reads a rule as the evaluator of the specification does. *)
Lemma rule_vetoes_is_rule v r :
  is_rule v r -> rule_vetoes v = Ok (vetoes OS_STRING r).
Proof.
  intros (o & -> & (sa & Hact & Ea) & Hos).
  unfold Net.rule_vetoes, vetoes, json_access, json_access_o.
  simpl. rewrite Hact. simpl. rewrite Ea. unfold HasMember, member.
  destruct (osName r) as [n|].
  - destruct Hos as (os & -> & (sn & Hname & En)). simpl. rewrite Hname. simpl. rewrite En.
    destruct (action r); simpl.
    + now rewrite orb_false_r.
    + reflexivity.
  - rewrite Hos. reflexivity.
Qed.

Lemma rules_loop_excluded vs rs rule_fail :
  Forall2 is_rule vs rs ->
  rules_loop vs rule_fail = Ok (rule_fail || excluded OS_STRING rs).
Proof.
  intros H. revert rule_fail. induction H as [|v r vs rs Hr _ IH]; intros rule_fail; simpl.
  - now rewrite orb_false_r.
  - rewrite (rule_vetoes_is_rule _ _ Hr). simpl. rewrite IH.
    destruct (vetoes OS_STRING r), rule_fail; reflexivity.
Qed.



End Rules.

Section Plan.

#[local] Set Default Proof Using "Type".

Variable OS_STRING : string.
Variable remote : string -> Transfer.

Local Abbreviation rule_vetoes := (Net.rule_vetoes OS_STRING).
Local Abbreviation rules_loop := (Net.rules_loop OS_STRING).
Local Abbreviation library_step := (Net.library_step OS_STRING).
Local Abbreviation libraries_loop := (Net.libraries_loop OS_STRING).
Local Abbreviation perform_blocking := (Net.perform_blocking remote).

(** The body of the library loop, with what it reads of the entry
    gathered in [library_target] and [library_task]. *)
Lemma library_step_factored lp np lib_val multi native_libs w :
  library_step lp np lib_val (multi, native_libs) w =
  match library_target lp np lib_val with
  | Ok (p, native) =>
      let native_libs := if native then native_libs ++ [p] else native_libs in
      if bool_decide (is_Some (files w !! p)) then (Ok (multi, native_libs), w)
      else
        let w1 := add_event w (EvCreateLeading p) in
        match library_task OS_STRING lib_val p with
        | Ok None => (Ok (multi, native_libs), w1)
        | Ok (Some (h, line)) => (Ok (multi ++ [h], native_libs), add_event w1 (EvOut line))
        | AssertFail => (AssertFail, w1)
        | Throw e => (Throw e, w1)
        end
  | AssertFail => (AssertFail, w)
  | Throw e => (Throw e, w)
  end.
Proof.
  unfold Net.library_step, library_target, library_task.
  unfold mbind, M_bind, Res_bind, liftR, mret, M_ret, Res_ret, file_exists,
    create_leading_directories, OUT, log, add_event.
  destruct (GetObject lib_val) as [lib| |]; simpl; try reflexivity.
  destruct (json_access_o lib "downloads") as [d| |]; simpl; try reflexivity.
  destruct (json_access d "artifact") as [av| |]; simpl; try reflexivity.
  destruct (GetObject av) as [a| |]; simpl; try reflexivity.
  destruct (json_access_o lib "name") as [nv| |]; simpl; try reflexivity.
  destruct (GetString nv) as [nm| |]; simpl; try reflexivity.
  destruct (json_access_o a "path") as [pv| |]; simpl; try reflexivity.
  destruct (GetString pv) as [ps| |]; simpl; try reflexivity.
  destruct (bool_decide _); simpl; try reflexivity.
  destruct (json_access_o a "url") as [uv| |]; simpl; try reflexivity.
  destruct (GetString uv) as [u| |]; simpl; try reflexivity.
  destruct (HasMember lib "rules"); simpl; try reflexivity.
  destruct (member lib "rules") as [rv| |]; simpl; try reflexivity.
  destruct (GetArray rv) as [rs| |]; simpl; try reflexivity.
  destruct (Net.rules_loop OS_STRING rs false) as [[|]| |]; simpl; reflexivity.
Qed.

Lemma library_task_path lib_val p h line :
  library_task OS_STRING lib_val p = Ok (Some (h, line)) -> path h = p.
Proof.
  unfold library_task. intros H.
  repeat (apply rbind_Ok in H as (? & _ & H)).
  destruct x7; [discriminate|]. now injection H as <- <-.
Qed.

(** One turn of the library loop: it writes no file, a helper it adds has
    an absent destination, and run again on a world that has the files of
    this one and the destination of the helper it adds nothing. *)
Lemma library_step_rerun lp np lib_val m n w m' n' w' :
  library_step lp np lib_val (m, n) w = (Ok (m', n'), w') ->
  files w' = files w
  /\ exists extra,
       m' = m ++ extra
       /\ (forall h, In h extra -> files w !! path h = None)
       /\ forall w2 m2 n2,
            covers w w2 ->
            (forall h, In h extra -> is_Some (files w2 !! path h)) ->
            exists n2' w2',
              library_step lp np lib_val (m2, n2) w2 = (Ok (m2, n2'), w2')
              /\ files w2' = files w2.
Proof.
  rewrite library_step_factored.
  destruct (library_target lp np lib_val) as [[p native]| |] eqn:Ht; try discriminate.
  cbv zeta. destruct (bool_decide (is_Some (files w !! p))) eqn:Hex.
  - intros [= <- <- <-]. split; [reflexivity|]. exists []. rewrite app_nil_r.
    split; [reflexivity|]. split; [intros h []|].
    intros w2 m2 n2 Hcov _. rewrite library_step_factored, Ht. cbv zeta.
    apply bool_decide_eq_true in Hex. apply Hcov in Hex.
    rewrite bool_decide_eq_true_2 by exact Hex. eauto.
  - apply bool_decide_eq_false in Hex.
    destruct (library_task OS_STRING lib_val p) as [[[h line]|]| |] eqn:Hk; try discriminate.
    + intros [= <- <- <-]. split; [reflexivity|]. exists [h].
      pose proof (library_task_path _ _ _ _ Hk) as Hp.
      split; [reflexivity|]. split.
      * intros h' [<-|[]]. rewrite Hp. now apply eq_None_not_Some.
      * intros w2 m2 n2 _ Hin. rewrite library_step_factored, Ht. cbv zeta.
        specialize (Hin h (or_introl eq_refl)). rewrite Hp in Hin.
        rewrite bool_decide_eq_true_2 by exact Hin. eauto.
    + intros [= <- <- <-]. split; [reflexivity|]. exists []. rewrite app_nil_r.
      split; [reflexivity|]. split; [intros h []|].
      intros w2 m2 n2 _ _. rewrite library_step_factored, Ht. cbv zeta.
      destruct (bool_decide (is_Some (files w2 !! p))); [eauto|].
      rewrite Hk. eauto.
Qed.

Lemma libraries_loop_cons lp np lib_val libs st w :
  libraries_loop lp np (lib_val :: libs) st w =
  match library_step lp np lib_val st w with
  | (Ok st', w') => libraries_loop lp np libs st' w'
  | (AssertFail, w') => (AssertFail, w')
  | (Throw e, w') => (Throw e, w')
  end.
Proof. reflexivity. Qed.

Lemma assets_loop_cons assets_path asset_val objects m w :
  assets_loop assets_path (asset_val :: objects) m w =
  match asset_step assets_path asset_val m w with
  | (Ok m', w') => assets_loop assets_path objects m' w'
  | (AssertFail, w') => (AssertFail, w')
  | (Throw e, w') => (Throw e, w')
  end.
Proof. reflexivity. Qed.

Lemma libraries_loop_rerun lp np libs m n w m' n' w' :
  libraries_loop lp np libs (m, n) w = (Ok (m', n'), w') ->
  files w' = files w
  /\ exists extra,
       m' = m ++ extra
       /\ (forall h, In h extra -> files w !! path h = None)
       /\ forall w2 m2 n2,
            covers w w2 ->
            (forall h, In h extra -> is_Some (files w2 !! path h)) ->
            exists n2' w2',
              libraries_loop lp np libs (m2, n2) w2 = (Ok (m2, n2'), w2')
              /\ files w2' = files w2.
Proof.
  revert m n w. induction libs as [|lib_val libs IH]; intros m n w.
  - intros [= <- <- <-]. split; [reflexivity|]. exists []. rewrite app_nil_r.
    split; [reflexivity|]. split; [intros h []|]. intros w2 m2 n2 _ _.
    exists n2, w2. split; reflexivity.
  - rewrite libraries_loop_cons.
    destruct (library_step lp np lib_val (m, n) w) as [[[m1 n1]| |] w1] eqn:Hs;
      try discriminate.
    intros Hl.
    apply library_step_rerun in Hs as (Hf1 & ex1 & -> & Habs1 & Hre1).
    apply IH in Hl as (Hf2 & ex2 & -> & Habs2 & Hre2).
    split; [congruence|]. exists (ex1 ++ ex2). rewrite app_assoc.
    split; [reflexivity|]. split.
    + intros h Hin. apply in_app_or in Hin as [Hin|Hin]; [auto|].
      rewrite <- Hf1. auto.
    + intros w2 m2 n2 Hcov Hin.
      destruct (Hre1 w2 m2 n2 Hcov) as (n3 & w3 & Hs3 & Hf3).
      { intros h Hh. apply Hin, in_or_app. now left. }
      destruct (Hre2 w3 m2 n3) as (n4 & w4 & Hs4 & Hf4).
      { intros p. rewrite Hf1, Hf3. apply Hcov. }
      { intros h Hh. rewrite Hf3. apply Hin, in_or_app. now right. }
      exists n4, w4. rewrite libraries_loop_cons, Hs3. split; [exact Hs4 | congruence].
Qed.

(** The body of the asset loop, with the hash read first. *)
Lemma asset_step_factored assets_path asset_val multi w :
  asset_step assets_path asset_val multi w =
  match asset_hash asset_val with
  | Ok hash =>
      let p := assets_path // "objects" // hash_path hash in
      if bool_decide (is_Some (files w !! p)) then (Ok multi, w)
      else (Ok (multi ++ [set_options fresh_helper FILE
                            ("http://resources.download.minecraft.net/" +:+ hash_path hash)
                            p]),
            add_event w (EvCreateLeading p))
  | AssertFail => (AssertFail, w)
  | Throw e => (Throw e, w)
  end.
Proof.
  unfold asset_step, asset_hash.
  unfold mbind, M_bind, Res_bind, liftR, mret, M_ret, Res_ret, file_exists,
    create_leading_directories, log, add_event.
  destruct (GetObject asset_val.2) as [a| |]; simpl; try reflexivity.
  destruct (json_access_o a "hash") as [hv| |]; simpl; try reflexivity.
  destruct (GetString hv) as [h| |]; simpl; try reflexivity.
  destruct (bool_decide _); reflexivity.
Qed.

Lemma asset_step_rerun assets_path asset_val m w m' w' :
  asset_step assets_path asset_val m w = (Ok m', w') ->
  files w' = files w
  /\ exists extra,
       m' = m ++ extra
       /\ (forall h, In h extra -> files w !! path h = None)
       /\ forall w2 m2,
            covers w w2 ->
            (forall h, In h extra -> is_Some (files w2 !! path h)) ->
            asset_step assets_path asset_val m2 w2 = (Ok m2, w2).
Proof.
  rewrite asset_step_factored.
  destruct (asset_hash asset_val) as [hash| |] eqn:Hh; try discriminate.
  cbv zeta. destruct (bool_decide _) eqn:Hex.
  - intros [= <- <-]. split; [reflexivity|]. exists []. rewrite app_nil_r.
    split; [reflexivity|]. split; [intros h []|].
    intros w2 m2 Hcov _. rewrite asset_step_factored, Hh. cbv zeta.
    apply bool_decide_eq_true in Hex. apply Hcov in Hex.
    now rewrite bool_decide_eq_true_2 by exact Hex.
  - apply bool_decide_eq_false in Hex.
    intros [= <- <-]. split; [reflexivity|]. eexists [_].
    split; [reflexivity|]. split.
    + intros h [<-|[]]. simpl. now apply eq_None_not_Some.
    + intros w2 m2 _ Hin. rewrite asset_step_factored, Hh. cbv zeta.
      specialize (Hin _ (or_introl eq_refl)). simpl in Hin.
      now rewrite bool_decide_eq_true_2 by exact Hin.
Qed.

Lemma assets_loop_rerun assets_path objects m w m' w' :
  assets_loop assets_path objects m w = (Ok m', w') ->
  files w' = files w
  /\ exists extra,
       m' = m ++ extra
       /\ (forall h, In h extra -> files w !! path h = None)
       /\ forall w2 m2,
            covers w w2 ->
            (forall h, In h extra -> is_Some (files w2 !! path h)) ->
            assets_loop assets_path objects m2 w2 = (Ok m2, w2).
Proof.
  revert m w. induction objects as [|asset_val objects IH]; intros m w.
  - intros [= <- <-]. split; [reflexivity|]. exists []. rewrite app_nil_r.
    split; [reflexivity|]. split; [intros h []|]. reflexivity.
  - rewrite assets_loop_cons.
    destruct (asset_step assets_path asset_val m w) as [[m1| |] w1] eqn:Hs; try discriminate.
    intros Hl.
    apply asset_step_rerun in Hs as (Hf1 & ex1 & -> & Habs1 & Hre1).
    apply IH in Hl as (Hf2 & ex2 & -> & Habs2 & Hre2).
    split; [congruence|]. exists (ex1 ++ ex2). rewrite app_assoc.
    split; [reflexivity|]. split.
    + intros h Hin. apply in_app_or in Hin as [Hin|Hin]; [auto|].
      rewrite <- Hf1. auto.
    + intros w2 m2 Hcov Hin. rewrite assets_loop_cons, Hre1.
      * apply Hre2.
        -- intros p. rewrite Hf1. apply Hcov.
        -- intros h Hh. apply Hin, in_or_app. now right.
      * exact Hcov.
      * intros h Hh. apply Hin, in_or_app. now left.
Qed.

(** One transfer, whatever its outcome. *)
Lemma perform_run h w :
  Net.perform remote h w
  = (Ok ({| mode := mode h; url := url h; path := path h;
            str := match mode h with
                   | FILE_AND_STR => received (remote (url h))
                   | FILE => str h
                   end |},
         completed (remote (url h))),
     fetched w (mode h) (url h) (path h) (remote (url h))).
Proof.
  unfold Net.perform, fetched, mbind, M_bind, log, write_file, mret, M_ret.
  now destruct (landed (remote (url h))).
Qed.

Lemma fetched_files w m u p t q :
  files (fetched w m u p t) !! q
  = match landed t with
    | Some contents => if decide (p = q) then Some contents else files w !! q
    | None => files w !! q
    end.
Proof.
  unfold fetched. destruct (landed t) as [c|]; [|reflexivity]. simpl.
  destruct (decide (p = q)) as [->|Hne];
    [apply lookup_insert_eq | now apply lookup_insert_ne].
Qed.

(** A batch returns with the result of every task; afterwards no file is
    lost, only destinations of the batch are new, the destination of a
    task whose transfer left something is there, and the other files are
    as they were. *)
Lemma perform_blocking_files helpers w :
  exists w',
    perform_blocking helpers w
    = (Ok (map (fun h => completed (remote (url h))) helpers), w')
    /\ (forall p, is_Some (files w !! p) -> is_Some (files w' !! p))
    /\ (forall p, is_Some (files w' !! p) ->
                  is_Some (files w !! p) \/ In p (map path helpers))
    /\ (forall h, In h helpers -> landed (remote (url h)) <> None ->
                  is_Some (files w' !! path h))
    /\ (forall p, ~ In p (map path helpers) -> files w' !! p = files w !! p).
Proof.
  revert w. induction helpers as [|h l IH]; intros w.
  - exists w. split; [reflexivity|]. split; [auto|]. split; [auto|].
    split; [intros h []|reflexivity].
  - cbn [Net.perform_blocking map]. unfold mbind at 1. unfold M_bind at 1.
    rewrite perform_run.
    destruct (IH (fetched w (mode h) (url h) (path h) (remote (url h))))
      as (w' & Hrun & Hcov & Honly & Hthere & Hkeep).
    unfold mbind, M_bind. rewrite Hrun. exists w'. split; [reflexivity|].
    assert (Hstep : forall p, is_Some (files w !! p) ->
                              is_Some (files (fetched w (mode h) (url h) (path h)
                                                (remote (url h))) !! p)).
    { intros p Hp. rewrite fetched_files. destruct (landed _); [|exact Hp].
      destruct (decide _); [eauto | exact Hp]. }
    split; [intros p Hp; apply Hcov, Hstep, Hp|]. split; [|split].
    + intros p Hp. apply Honly in Hp as [Hp|Hp]; [|right; now right].
      rewrite fetched_files in Hp. destruct (landed _); [|now left].
      destruct (decide (path h = p)) as [E|_]; [right; now left | now left].
    + intros x [<-|Hx] Hl; [|now apply Hthere].
      apply Hcov. rewrite fetched_files.
      destruct (landed (remote (url h))); [|contradiction].
      rewrite decide_True by reflexivity. eauto.
    + intros p Hp. rewrite Hkeep by (intros Hin; apply Hp; now right).
      rewrite fetched_files. destruct (landed _); [|reflexivity].
      rewrite decide_False; [reflexivity|]. intros E. apply Hp. now left.
Qed.

Lemma completed_landed t : completed t = true -> landed t <> None.
Proof. destruct t; [discriminate | discriminate]. Qed.

(** *** Well-formed entries *)

Lemma library_target_is_library lp np lib_val e :
  is_library lib_val e ->
  library_target lp np lib_val = Ok (destination lp np e, isNative e).
Proof.
  intros (o & d & a & -> & Hd & Ha & (sn & Hn & En) & (sp & Hp & Ep) & Hu & Hnat & Hr).
  unfold library_target, destination, json_access, json_access_o. simpl.
  rewrite Hd. simpl. rewrite Ha. simpl. rewrite Hn. simpl. rewrite Hp. simpl.
  rewrite Ep, Hnat. now destruct (isNative e).
Qed.

Lemma library_task_is_library lib_val e p :
  is_library lib_val e ->
  library_task OS_STRING lib_val p =
  Ok (if match rules e with Some rs => excluded OS_STRING rs | None => false end
      then None
      else Some (set_options fresh_helper FILE (lib_url e) p, "Found library " +:+ name e)).
Proof.
  intros (o & d & a & -> & Hd & Ha & (sn & Hn & En) & Hp & (su & Hu & Eu) & Hnat & Hr).
  unfold library_task, json_access, json_access_o, HasMember, member. simpl.
  rewrite Hd. simpl. rewrite Ha. simpl. rewrite Hn. simpl. rewrite Hu. simpl.
  rewrite En, Eu.
  destruct (rules e) as [rs|].
  - destruct Hr as (vs & -> & Hrs). simpl.
    rewrite (rules_loop_excluded OS_STRING _ _ false Hrs). reflexivity.
  - rewrite Hr. reflexivity.
Qed.

(** The body of the library loop on a well-formed entry. *)
Lemma library_step_is_library lp np lib_val e multi native_libs w :
  is_library lib_val e ->
  library_step lp np lib_val (multi, native_libs) w =
  let p := destination lp np e in
  let native_libs := if isNative e then native_libs ++ [p] else native_libs in
  if bool_decide (is_Some (files w !! p)) then (Ok (multi, native_libs), w)
  else if match rules e with Some rs => excluded OS_STRING rs | None => false end
  then (Ok (multi, native_libs), add_event w (EvCreateLeading p))
  else (Ok (multi ++ [set_options fresh_helper FILE (lib_url e) p], native_libs),
        add_event (add_event w (EvCreateLeading p))
                  (EvOut ("Found library " +:+ name e))).
Proof.
  intros H. rewrite library_step_factored, (library_target_is_library _ _ _ _ H).
  cbv zeta. rewrite (library_task_is_library _ _ _ H).
  destruct (bool_decide _); [reflexivity|].
  now destruct (match rules e with Some rs => excluded OS_STRING rs | None => false end).
Qed.



Lemma asset_hash_is_asset name v hash : is_asset v hash -> asset_hash (name, v) = Ok hash.
Proof.
  intros (o & -> & (s & Hh & E)). unfold asset_hash, json_access_o. simpl.
  rewrite Hh. simpl. now rewrite E.
Qed.

(** C5.  A library or an asset object whose destination file is there adds
    no helper to the batch and leaves the world as it is.  The planner
    writes no file, every helper of the batch has a destination that was
    absent, and the batch writes nothing else; when every task of the
    batch has succeeded, planning again on the world that the batch leaves
    adds no helper at all. *)
Theorem C5_planning_is_idempotent lp np assets_path :
  (forall lib_val e multi native_libs w,
     is_library lib_val e ->
     is_Some (files w !! destination lp np e) ->
     exists native_libs',
       library_step lp np lib_val (multi, native_libs) w = (Ok (multi, native_libs'), w))
  /\ (forall name v hash multi w,
        is_asset v hash ->
        is_Some (files w !! (assets_path // "objects" // hash_path hash)) ->
        asset_step assets_path (name, v) multi w = (Ok multi, w))
  /\ (forall libs objects w tasks native_libs w1 tasks2 w2,
        libraries_loop lp np libs ([], []) w = (Ok (tasks, native_libs), w1) ->
        assets_loop assets_path objects tasks w1 = (Ok tasks2, w2) ->
        files w2 = files w
        /\ (forall h, In h tasks2 -> files w !! path h = None)
        /\ exists results w3,
             perform_blocking tasks2 w2 = (Ok results, w3)
             /\ results = map (fun h => completed (remote (url h))) tasks2
             /\ (forall p, is_Some (files w !! p) -> files w3 !! p = files w !! p)
             /\ (forallb (fun success : bool => success) results = true ->
                 exists native_libs' w4 w5,
                   libraries_loop lp np libs ([], []) w3 = (Ok ([], native_libs'), w4)
                   /\ assets_loop assets_path objects [] w4 = (Ok [], w5))).
Proof.
  split; [|split].
  - intros lib_val e multi native_libs w He Hex.
    rewrite (library_step_is_library _ _ _ _ _ _ _ He). cbv zeta.
    rewrite bool_decide_eq_true_2 by exact Hex. eauto.
  - intros name v hash multi w Ha Hex.
    rewrite asset_step_factored, (asset_hash_is_asset _ _ _ Ha). cbv zeta.
    now rewrite bool_decide_eq_true_2 by exact Hex.
  - intros libs objects w tasks native_libs w1 tasks2 w2 Hl Ha.
    apply libraries_loop_rerun in Hl as (Hf1 & exl & -> & Habs1 & Hre1).
    apply assets_loop_rerun in Ha as (Hf2 & exa & -> & Habs2 & Hre2).
    simpl in *.
    assert (Habs : forall h, In h (exl ++ exa) -> files w !! path h = None).
    { intros h Hin. apply in_app_or in Hin as [Hin|Hin]; [auto|].
      rewrite <- Hf1. auto. }
    split; [congruence|]. split; [exact Habs|].
    destruct (perform_blocking_files (exl ++ exa) w2)
      as (w3 & Hrun & Hcov & _ & Hthere & Hkeep).
    eexists _, w3. split; [exact Hrun|]. split; [reflexivity|]. split.
    + intros p Hp. rewrite Hkeep, Hf2, Hf1; [reflexivity|].
      intros Hin. apply in_map_iff in Hin as (h & <- & Hin).
      rewrite (Habs h Hin) in Hp. now destruct Hp.
    + intros Hall. rewrite forallb_forall in Hall.
      assert (Hdone : forall h, In h (exl ++ exa) -> is_Some (files w3 !! path h)).
      { intros h Hin. apply Hthere; [exact Hin|]. apply completed_landed.
        apply (Hall (completed (remote (url h)))).
        apply (in_map (fun h => completed (remote (url h)))), Hin. }
      destruct (Hre1 w3 [] []) as (n' & w4 & Hl2 & Hf4).
      * intros p Hp. apply Hcov. now rewrite Hf2, Hf1.
      * intros h Hin. apply Hdone, in_or_app. now left.
      * exists n', w4, w4. split; [exact Hl2|]. apply Hre2.
        -- intros p Hp. rewrite Hf4. apply Hcov. now rewrite Hf2.
        -- intros h Hin. rewrite Hf4. apply Hdone, in_or_app. now right.
Qed.

(** A native library that the rules exclude adds no helper, and still is
    put on [native_libs]. *)
Lemma excluded_native_is_listed lp np lib_val e rs multi native_libs w :
  is_library lib_val e ->
  isNative e = true -> rules e = Some rs -> excluded OS_STRING rs = true ->
  exists w',
    library_step lp np lib_val (multi, native_libs) w
    = (Ok (multi, native_libs ++ [np // artifactPath e]), w').
Proof.
  intros He Hn Hr Hx. rewrite (library_step_is_library _ _ _ _ _ _ _ He).
  unfold destination. rewrite Hn, Hr, Hx. cbv zeta.
  destruct (bool_decide _); eauto.
Qed.

(** *** Paths of assets *)

Lemma ends_with_slash_append (a b : string) :
  empty b = false -> ends_with_slash (a +:+ b) = ends_with_slash b.
Proof.
  intros Hb. induction a as [|c a IH]; [reflexivity|].
  change (String c a +:+ b) with (String c (a +:+ b)). cbn [ends_with_slash].
  destruct (a +:+ b) eqn:E; [|exact IH].
  destruct a; [|discriminate E]. simpl in E. now rewrite E in Hb.
Qed.

Lemma empty_append_r (a b : string) : empty b = false -> empty (a +:+ b) = false.
Proof. intros Hb. destruct a; [exact Hb | reflexivity]. Qed.

(** Joining a relative path to a directory named [objects]. *)
Lemma path_join_objects (a b : string) :
  is_absolute b = false -> a // "objects" // b = (a // "objects") +:+ "/" +:+ b.
Proof.
  intros Hb. unfold path_join at 1. rewrite Hb.
  assert (E : exists y, a // "objects" = y +:+ "objects").
  { unfold path_join. simpl is_absolute. cbv iota.
    destruct (empty a || ends_with_slash a).
    - now exists a.
    - exists (a +:+ "/"). now rewrite append_assoc. }
  destruct E as (y & ->).
  rewrite empty_append_r, ends_with_slash_append by reflexivity. reflexivity.
Qed.

Lemma is_sha1_shard (hash : string) :
  is_sha1 hash ->
  exists c1 c2 rest,
    hash = String c1 (String c2 rest)
    /\ substr hash 0 2 = String c1 (String c2 EmptyString)
    /\ is_absolute (hash_path hash) = false.
Proof.
  intros [Hlen Hhex]. destruct hash as [|c1 [|c2 rest]]; try discriminate Hlen.
  exists c1, c2, rest. split; [reflexivity|].
  split; [unfold substr; now destruct rest|].
  unfold hash_path, substr. simpl.
  simpl in Hhex. apply andb_true_iff in Hhex as [H1 _].
  destruct (Ascii.eqb_spec c1 "/") as [->|_]; [discriminate H1 | reflexivity].
Qed.

(** C8.  For an asset object with a 40-character hexadecimal hash the
    planner's destination is [objects/<first two characters>/<hash>] under
    the assets directory and its URL is
    [http://resources.download.minecraft.net/<first two characters>/<hash>];
    the helper with both is added when the destination is absent. *)
Theorem C8_asset_is_hash_sharded assets_path name v hash multi w :
  is_asset v hash ->
  is_sha1 hash ->
  let shard := substr hash 0 2 in
  let p := (assets_path // "objects") +:+ "/" +:+ shard +:+ "/" +:+ hash in
  let u := "http://resources.download.minecraft.net/" +:+ shard +:+ "/" +:+ hash in
  (exists c1 c2 rest,
     hash = String c1 (String c2 rest) /\ shard = String c1 (String c2 EmptyString))
  /\ assets_path // "objects" // hash_path hash = p
  /\ (empty assets_path = false -> ends_with_slash assets_path = false ->
      p = assets_path +:+ "/objects/" +:+ shard +:+ "/" +:+ hash)
  /\ asset_step assets_path (name, v) multi w =
     if bool_decide (is_Some (files w !! p)) then (Ok multi, w)
     else (Ok (multi ++ [{| mode := FILE; url := u; path := p; str := EmptyString |}]),
           add_event w (EvCreateLeading p)).
Proof.
  intros Ha Hs shard p u.
  destruct (is_sha1_shard hash Hs) as (c1 & c2 & rest & Hh & Hshard & Habs).
  assert (Hp : assets_path // "objects" // hash_path hash = p).
  { rewrite path_join_objects by exact Habs. reflexivity. }
  split; [now exists c1, c2, rest|]. split; [exact Hp|]. split.
  - intros Hne Hsl. subst p. unfold path_join. simpl is_absolute. cbv iota.
    rewrite Hne, Hsl. simpl orb. cbv iota. now rewrite !append_assoc.
  - rewrite asset_step_factored, (asset_hash_is_asset _ _ _ Ha). cbv zeta.
    rewrite Hp. reflexivity.
Qed.

End Plan.

Section Resolve.

#[local] Set Default Proof Using "Type".

Variable internal_dir : string.
Variable ASSETS_DIR : string.
Variable VERSION_MANIFEST_URL : string.
Variable remote : string -> Transfer.
Variable Parse : string -> Value.
Variable sha1 : string -> string.

Local Abbreviation get_version_manifest :=
  (Net.get_version_manifest internal_dir ASSETS_DIR VERSION_MANIFEST_URL remote).
Local Abbreviation obtain_version_json :=
  (Net.obtain_version_json internal_dir ASSETS_DIR VERSION_MANIFEST_URL remote Parse sha1).
Local Abbreviation index_file_path := (Shape.index_file_path internal_dir ASSETS_DIR).
Local Abbreviation descriptor_helper :=
  (Shape.descriptor_helper internal_dir ASSETS_DIR remote).
Local Abbreviation manifest_world :=
  (manifest_fetched internal_dir ASSETS_DIR VERSION_MANIFEST_URL (remote VERSION_MANIFEST_URL)).

(** The search loop stops at the first entry with the id. *)
Lemma find_version_lookup vs entries version found :
  Forall2 is_entry vs entries ->
  find_version vs version found =
  match lookup_entry version entries with
  | Some e =>
      if (String.length (entry_sha1 e) =? 40)%nat
      then Ok (entry_url e, entry_sha1 e) else AssertFail
  | None => Ok found
  end.
Proof.
  induction 1 as [|v e vs entries He _ IH]; [reflexivity|].
  destruct He as (o & -> & (si & Hid & Ei) & (su & Hurl & Eu) & (ss & Hsha & Es)).
  unfold lookup_entry in *. simpl. unfold json_access_o. rewrite Hid. simpl. rewrite Ei.
  destruct (String.eqb (id e) version); [|exact IH].
  rewrite Hurl. simpl. rewrite Eu, Hsha. simpl. rewrite Es.
  now destruct (String.length (entry_sha1 e) =? 40)%nat.
Qed.

(** [get_version_manifest] returns whether or not the transfer succeeds:
    the result of [perform] is not looked at. *)
Lemma get_version_manifest_run w :
  get_version_manifest w
  = (Ok {| mode := FILE_AND_STR; url := VERSION_MANIFEST_URL;
           path := internal_dir // ASSETS_DIR // "version_manifest.json";
           str := received (remote VERSION_MANIFEST_URL) |},
     fetched (add_event (add_event w (EvCreateDir (internal_dir // ASSETS_DIR)))
                        (EvOut "Obtaining version index..."))
             FILE_AND_STR VERSION_MANIFEST_URL
             (internal_dir // ASSETS_DIR // "version_manifest.json")
             (remote VERSION_MANIFEST_URL)).
Proof.
  unfold Net.get_version_manifest, create_dir_if_not_exists, OUT.
  unfold mbind, M_bind, log. rewrite perform_run. reflexivity.
Qed.

(** [obtain_version_json] once the manifest has been read, for the pair
    that the search loop yields. *)
Lemma obtain_version_json_found version w :
  obtain_version_json version w =
  let w1 := manifest_world w in
  match (versions_val ← json_access (Parse (received (remote VERSION_MANIFEST_URL)))
                                     "versions";
         versions ← GetArray versions_val;
         find_version versions version (EmptyString, EmptyString)) with
  | Ok (ver_url, ver_hash) =>
      if empty ver_url then (Throw VersionNotFoundException, w1)
      else
        let w2 := fetched w1 FILE_AND_STR ver_url (index_file_path version) (remote ver_url) in
        if String.eqb (sha1 (received (remote ver_url))) ver_hash
        then (Ok ({| mode := FILE_AND_STR; url := ver_url; path := index_file_path version;
                     str := received (remote ver_url) |},
                  Parse (received (remote ver_url))), w2)
        else (Throw IntegrityError, w2)
  | AssertFail => (AssertFail, w1)
  | Throw e => (Throw e, w1)
  end.
Proof.
  unfold Net.obtain_version_json, OUT. unfold mbind at 1 2. unfold M_bind at 1 2.
  unfold log at 1. rewrite get_version_manifest_run. cbv zeta.
  unfold manifest_fetched.
  change {| files := files w; events := events w ++ [EvOut "Downloading version json..."] |}
    with (add_event w (EvOut "Downloading version json...")).
  set (w1 := fetched _ FILE_AND_STR VERSION_MANIFEST_URL _ _). clearbody w1.
  unfold get_str. cbn [str].
  unfold mbind, M_bind, Res_bind, liftR.
  destruct (json_access (Parse (received (remote VERSION_MANIFEST_URL))) "versions")
    as [vv| |]; cbn [rbind]; try reflexivity.
  destruct (GetArray vv) as [vs| |]; cbn [rbind]; try reflexivity.
  destruct (find_version vs version (EmptyString, EmptyString)) as [[u h]| |];
    try reflexivity.
  destruct (empty u); [reflexivity|].
  rewrite perform_run. unfold Net.sha1_checksum, get_str, set_options, throw, mret, M_ret.
  cbn [mode url path str].
  now destruct (String.eqb (sha1 (received (remote u))) h).
Qed.

(** [obtain_version_json] on a well-formed manifest, case by case. *)
Lemma obtain_version_json_run version w entries :
  is_manifest (Parse (received (remote VERSION_MANIFEST_URL))) entries ->
  obtain_version_json version w =
  let w1 := manifest_world w in
  match lookup_entry version entries with
  | None => (Throw VersionNotFoundException, w1)
  | Some e =>
      if negb (String.length (entry_sha1 e) =? 40)%nat then (AssertFail, w1)
      else if empty (entry_url e) then (Throw VersionNotFoundException, w1)
      else
        let w2 := fetched w1 FILE_AND_STR (entry_url e) (index_file_path version)
                          (remote (entry_url e)) in
        if String.eqb (sha1 (received (remote (entry_url e)))) (entry_sha1 e)
        then (Ok (descriptor_helper version e, Parse (received (remote (entry_url e)))), w2)
        else (Throw IntegrityError, w2)
  end.
Proof.
  intros (o & vs & Hdoc & Hvs & Hentries).
  rewrite obtain_version_json_found, Hdoc. unfold json_access, json_access_o. simpl.
  rewrite Hvs. simpl. rewrite (find_version_lookup _ _ _ _ Hentries).
  destruct (lookup_entry version entries) as [e|]; [|reflexivity].
  destruct (String.length (entry_sha1 e) =? 40)%nat; reflexivity.
Qed.

Lemma lookup_entry_Some version entries e :
  lookup_entry version entries = Some e -> In e entries /\ id e = version.
Proof.
  unfold lookup_entry. intros H. apply find_some in H as [Hin Hid].
  split; [exact Hin | now apply String.eqb_eq].
Qed.

Lemma lookup_entry_None version entries :
  lookup_entry version entries = None <-> forall e, In e entries -> id e <> version.
Proof.
  unfold lookup_entry. split.
  - intros H e Hin. apply String.eqb_neq. exact (find_none _ _ H e Hin).
  - intros H. induction entries as [|e l IH]; [reflexivity|]. simpl.
    destruct (String.eqb_spec (id e) version) as [E|_].
    + destruct (H e (or_introl eq_refl) E).
    + apply IH. intros x Hx. apply H. now right.
Qed.

(** With ids that are unique, the entry with the id is the one found. *)
Lemma lookup_entry_unique version entries e :
  List.NoDup (map id entries) -> In e entries -> id e = version ->
  lookup_entry version entries = Some e.
Proof.
  unfold lookup_entry. induction entries as [|x l IH]; intros Hnd Hin Hid; [destruct Hin|].
  simpl. inversion Hnd as [|? ? Hx Hl]; subst.
  destruct Hin as [->|Hin].
  - now rewrite String.eqb_refl.
  - destruct (String.eqb_spec (id x) (id e)) as [E|_]; [|now apply IH].
    exfalso. apply Hx. rewrite E. now apply in_map.
Qed.

Lemma empty_false (s : string) : s <> EmptyString -> empty s = false.
Proof. destruct s; [contradiction | reflexivity]. Qed.

(** C1 (amended).  On a well-formed manifest, whose entries hold an id, a
    url and a sha1 that are read as C strings, resolution looks at the
    first entry with the requested id (the entry with that id, when ids
    are unique).  When its sha1 has 40 characters and its url is not
    empty, the loop yields its url and sha1, and the descriptor is
    transferred from that url and checked against that sha1.  When its
    sha1 has 40 characters and its url is empty, and when no entry has the
    id, resolution throws [VersionNotFoundException]; when its sha1 does
    not have 40 characters, an assertion fails, whatever its url.  In
    these three cases the only transfer made is that of the manifest. *)
Theorem C1_resolution version w entries :
  is_manifest (Parse (received (remote VERSION_MANIFEST_URL))) entries ->
  (forall e,
     lookup_entry version entries = Some e ->
     String.length (entry_sha1 e) = 40%nat -> entry_url e <> EmptyString ->
     (forall vs, Forall2 is_entry vs entries ->
        find_version vs version (EmptyString, EmptyString)
        = Ok (entry_url e, entry_sha1 e))
     /\ exists r w',
          obtain_version_json version w = (r, w')
          /\ events w' = events (manifest_world w)
                         ++ [EvDownload FILE_AND_STR (entry_url e) (index_file_path version)]
          /\ (r = Ok (descriptor_helper version e, Parse (received (remote (entry_url e))))
                /\ sha1 (received (remote (entry_url e))) = entry_sha1 e
              \/ r = Throw IntegrityError
                 /\ sha1 (received (remote (entry_url e))) <> entry_sha1 e))
  /\ ((forall e, In e entries -> id e <> version) ->
      obtain_version_json version w = (Throw VersionNotFoundException, manifest_world w))
  /\ (forall e,
        lookup_entry version entries = Some e ->
        String.length (entry_sha1 e) = 40%nat -> entry_url e = EmptyString ->
        obtain_version_json version w = (Throw VersionNotFoundException, manifest_world w))
  /\ (forall e,
        lookup_entry version entries = Some e ->
        String.length (entry_sha1 e) <> 40%nat ->
        obtain_version_json version w = (AssertFail, manifest_world w))
  /\ (forall e, List.NoDup (map id entries) -> In e entries -> id e = version ->
        lookup_entry version entries = Some e)
  /\ events (manifest_world w)
     = events w ++ [EvOut "Downloading version json...";
                    EvCreateDir (internal_dir // ASSETS_DIR);
                    EvOut "Obtaining version index...";
                    EvDownload FILE_AND_STR VERSION_MANIFEST_URL
                      (internal_dir // ASSETS_DIR // "version_manifest.json")].
Proof.
  intros Hm. pose proof (obtain_version_json_run version w entries Hm) as Hrun.
  cbv zeta in Hrun. split; [|split; [|split; [|split; [|split]]]].
  - intros e He Hlen Hurl. split.
    + intros vs Hvs. rewrite (find_version_lookup _ _ _ _ Hvs), He, Hlen. reflexivity.
    + rewrite Hrun, He, Hlen. simpl negb. cbv iota. rewrite (empty_false _ Hurl).
      assert (Hev : events (fetched (manifest_world w) FILE_AND_STR (entry_url e)
                              (index_file_path version) (remote (entry_url e)))
                    = events (manifest_world w)
                      ++ [EvDownload FILE_AND_STR (entry_url e) (index_file_path version)]).
      { unfold fetched at 1. now destruct (landed (remote (entry_url e))). }
      destruct (String.eqb_spec (sha1 (received (remote (entry_url e)))) (entry_sha1 e))
        as [E|E];
        eexists _, _; (split; [reflexivity|]); (split; [exact Hev|]); [left | right];
        (split; [reflexivity | exact E]).
  - intros Hnone. apply lookup_entry_None in Hnone. now rewrite Hrun, Hnone.
  - intros e He Hlen Hurl. now rewrite Hrun, He, Hlen, Hurl.
  - intros e He Hlen. rewrite Hrun, He.
    now rewrite (proj2 (Nat.eqb_neq _ _) Hlen).
  - intros e. now apply lookup_entry_unique.
  - unfold manifest_fetched, fetched, put_file, add_event.
    destruct (landed (remote VERSION_MANIFEST_URL)); simpl; now rewrite <- !app_assoc.
Qed.

(** C6.  On a well-formed manifest whose entry for the version has a
    40-character sha1 and a url, the descriptor is fetched and its
    checksum compared with the sha1 of the entry before anything is
    parsed: on a mismatch the fetch throws [IntegrityError] and yields no
    document, on a match it yields the parsed body; and whenever it yields
    a document, the checksum of the body is the sha1 of the entry. *)
Theorem C6_checksum_before_parse version w entries e :
  is_manifest (Parse (received (remote VERSION_MANIFEST_URL))) entries ->
  lookup_entry version entries = Some e ->
  String.length (entry_sha1 e) = 40%nat -> entry_url e <> EmptyString ->
  (sha1 (received (remote (entry_url e))) <> entry_sha1 e ->
     exists w', obtain_version_json version w = (Throw IntegrityError, w'))
  /\ (sha1 (received (remote (entry_url e))) = entry_sha1 e ->
      exists h w',
        obtain_version_json version w = (Ok (h, Parse (get_str h)), w')
        /\ get_str h = received (remote (entry_url e)))
  /\ (forall h doc w',
        obtain_version_json version w = (Ok (h, doc), w') ->
        sha1 (get_str h) = entry_sha1 e /\ doc = Parse (get_str h)).
Proof.
  intros Hm He Hlen Hurl.
  pose proof (obtain_version_json_run version w entries Hm) as Hrun.
  cbv zeta in Hrun. rewrite He, Hlen in Hrun. simpl negb in Hrun. cbv iota in Hrun.
  rewrite (empty_false _ Hurl) in Hrun. rewrite Hrun.
  destruct (String.eqb_spec (sha1 (received (remote (entry_url e)))) (entry_sha1 e))
    as [E|E].
  - split; [intros X; contradiction|]. split.
    + intros _. exists (descriptor_helper version e). eexists. split; reflexivity.
    + intros h doc w' [= <- <- <-]. split; [exact E | reflexivity].
  - split; [intros _; eauto|]. split; [intros X; contradiction | discriminate].
Qed.

End Resolve.

Section Install.

#[local] Set Default Proof Using "Type".

Variable zip_entries : string -> option (list string).

(** C9 fails on the code: [install_native_library] returns with the files
    of the world as they were, whatever the archive holds; it opens the
    archive and prints the names of its entries. *)
Theorem C9_install_writes_no_file p w :
  exists w',
    install_native_library zip_entries p w = (Ok tt, w')
    /\ files w' = files w
    /\ exists lines,
         events w' = events w ++ EvZipOpen p :: map EvOut lines.
Proof.
  unfold install_native_library, zip_open. unfold mbind at 1. unfold M_bind.
  set (z := files w !! p ≫= zip_entries).
  set (w1 := {| files := files w; events := events w ++ [EvZipOpen p] |}).
  generalize (seq 0 (Z.to_nat (zip_get_num_entries z))). intros indices.
  assert (H : forall w0, exists w' lines,
             list_entries z indices w0 = (Ok tt, w')
             /\ files w' = files w0 /\ events w' = events w0 ++ map EvOut lines).
  { induction indices as [|i l IH]; intros w0; simpl.
    - exists w0, []. simpl. now rewrite app_nil_r.
    - unfold mbind, M_bind, mret, M_ret, OUT, log.
      destruct (zip_stat_index z i) as [name|]; simpl.
      + match goal with
        | |- context [list_entries z l ?w1] =>
            destruct (IH w1) as (w' & lines & -> & Hf & He)
        end.
        exists w', (("NATIVE" +:+ name) :: lines). simpl in *.
        rewrite He, <- app_assoc. auto.
      + apply IH. }
  destruct (H w1) as (w' & lines & -> & Hf & He).
  exists w'. split; [reflexivity|]. split; [exact Hf|].
  exists lines. rewrite He. subst w1. simpl. now rewrite <- app_assoc.
Qed.

End Install.

(** The claims at the sample acquisition. *)

Lemma sample_manifest :
  is_manifest (Sample.Parse (received (Sample.remote Sample.VERSION_MANIFEST_URL)))
              [Sample.entry_1_19; Sample.entry_1_18; Sample.entry_1_17].
Proof.
  eexists _, _. split; [vm_compute; reflexivity|]. split; [reflexivity|].
  constructor; [|constructor; [|constructor; [|constructor]]];
    (eexists; split; [reflexivity|]);
    (split; [|split]); eexists; split; reflexivity.
Qed.


Lemma sample_glfw_macos : is_library Sample.glfw_macos Sample.glfw_macos_entry.
Proof.
  eexists _, _, _. split; [reflexivity|]. split; [reflexivity|]. split; [reflexivity|].
  split; [eexists; split; reflexivity|]. split; [eexists; split; reflexivity|].
  split; [eexists; split; reflexivity|]. split; [reflexivity|]. simpl.
  eexists. split; [reflexivity|].
  constructor; [|constructor]. eexists. split; [reflexivity|].
  split; [eexists; split; reflexivity|].
  simpl. eexists. split; [reflexivity|]. eexists; split; reflexivity.
Qed.

Lemma sample_brigadier : is_library Sample.brigadier Sample.brigadier_entry.
Proof.
  eexists _, _, _. split; [reflexivity|]. split; [reflexivity|]. split; [reflexivity|].
  split; [eexists; split; reflexivity|]. split; [eexists; split; reflexivity|].
  split; [eexists; split; reflexivity|]. split; reflexivity.
Qed.

Lemma sample_icon : is_asset Sample.icon Sample.icon_hash.
Proof. eexists. split; [reflexivity|]. eexists; split; reflexivity. Qed.

Lemma C1_resolution_witness :
  is_manifest (Sample.Parse (received (Sample.remote Sample.VERSION_MANIFEST_URL)))
              [Sample.entry_1_19; Sample.entry_1_18; Sample.entry_1_17]
  /\ lookup_entry "1.19" [Sample.entry_1_19; Sample.entry_1_18; Sample.entry_1_17]
     = Some Sample.entry_1_19
  /\ (exists r w',
        Sample.resolve "1.19" Sample.nothing = (r, w')
        /\ In (EvDownload FILE_AND_STR "https://meta.example/1.19.json"
                 "/mcvm/assets/1.19.json") (events w'))
  /\ Sample.resolve "1.20" Sample.nothing
     = (Throw VersionNotFoundException,
        manifest_fetched Sample.internal_dir Sample.ASSETS_DIR Sample.VERSION_MANIFEST_URL
          (Arrives "manifest") Sample.nothing)
  /\ Sample.resolve "1.18" Sample.nothing
     = (Throw VersionNotFoundException,
        manifest_fetched Sample.internal_dir Sample.ASSETS_DIR Sample.VERSION_MANIFEST_URL
          (Arrives "manifest") Sample.nothing)
  /\ Sample.resolve "1.17" Sample.nothing
     = (AssertFail,
        manifest_fetched Sample.internal_dir Sample.ASSETS_DIR Sample.VERSION_MANIFEST_URL
          (Arrives "manifest") Sample.nothing).
Proof.
  pose proof sample_manifest as Hm.
  assert (He : lookup_entry "1.19" [Sample.entry_1_19; Sample.entry_1_18; Sample.entry_1_17]
               = Some Sample.entry_1_19) by reflexivity.
  destruct (C1_resolution Sample.internal_dir Sample.ASSETS_DIR Sample.VERSION_MANIFEST_URL
              Sample.remote Sample.Parse Sample.sha1 "1.19" Sample.nothing _ Hm)
    as (Hfound & _).
  destruct (C1_resolution Sample.internal_dir Sample.ASSETS_DIR Sample.VERSION_MANIFEST_URL
              Sample.remote Sample.Parse Sample.sha1 "1.20" Sample.nothing _ Hm)
    as (_ & Habsent & _).
  destruct (C1_resolution Sample.internal_dir Sample.ASSETS_DIR Sample.VERSION_MANIFEST_URL
              Sample.remote Sample.Parse Sample.sha1 "1.18" Sample.nothing _ Hm)
    as (_ & _ & Hnourl & _).
  destruct (C1_resolution Sample.internal_dir Sample.ASSETS_DIR Sample.VERSION_MANIFEST_URL
              Sample.remote Sample.Parse Sample.sha1 "1.17" Sample.nothing _ Hm)
    as (_ & _ & _ & Hshort & _).
  split; [exact Hm|]. split; [exact He|]. split; [|split; [|split]].
  - destruct (Hfound Sample.entry_1_19 He eq_refl) as (_ & r & w' & Hrun & Hev & _).
    + discriminate.
    + exists r, w'. split; [exact Hrun|]. rewrite Hev. apply in_or_app. right. now left.
  - apply Habsent. intros e [<-|[<-|[<-|[]]]]; discriminate.
  - exact (Hnourl Sample.entry_1_18 eq_refl eq_refl eq_refl).
  - apply (Hshort Sample.entry_1_17 eq_refl). discriminate.
Defined.

(** C1 as stated fails: the manifest holds an entry with the id [1.18],
    its url is the empty string, and resolution throws
    [VersionNotFoundException] without fetching a descriptor. *)
Lemma C1_entry_with_empty_url_not_found :
  ~ (forall version entries e w,
       is_manifest (Sample.Parse (received (Sample.remote Sample.VERSION_MANIFEST_URL)))
                   entries ->
       In e entries -> id e = version ->
       exists r w',
         Sample.resolve version w = (r, w')
         /\ r <> Throw VersionNotFoundException
         /\ In (EvDownload FILE_AND_STR (entry_url e)
                  (index_file_path Sample.internal_dir Sample.ASSETS_DIR version))
               (events w')).
Proof.
  intros H.
  destruct (H "1.18" _ Sample.entry_1_18 Sample.nothing sample_manifest) as (r & w' & Hrun & Hr & _).
  - right. now left.
  - reflexivity.
  - vm_compute in Hrun. injection Hrun as <- _. now apply Hr.
Qed.



(** The ids of the manifest are compared as C strings. *)
Example id_is_read_as_c_string :
  find_version
    [kObject [("id", kString ("1.19" +:+ String "000" "-rc1"));
              ("url", kString "https://meta.example/1.19.json");
              ("sha1", kString Sample.sha1_descriptor)]]
    "1.19" (EmptyString, EmptyString)
  = Ok ("https://meta.example/1.19.json", Sample.sha1_descriptor).
Proof. vm_compute. reflexivity. Qed.

Lemma C5_planning_is_idempotent_witness :
  (exists tasks native_libs w1 tasks2 w2,
     libraries_loop Sample.os Sample.libraries_path Sample.natives_path
       [Sample.brigadier; Sample.glfw_linux; Sample.glfw_macos] ([], []) Sample.nothing
     = (Ok (tasks, native_libs), w1)
     /\ assets_loop "/mcvm/assets" [("icons/icon.png", Sample.icon)] tasks w1
        = (Ok tasks2, w2)
     /\ length tasks2 = 3%nat
     /\ exists w3,
          perform_blocking Sample.remote tasks2 w2 = (Ok [true; true; true], w3)
          /\ exists native_libs' w4 w5,
               libraries_loop Sample.os Sample.libraries_path Sample.natives_path
                 [Sample.brigadier; Sample.glfw_linux; Sample.glfw_macos] ([], []) w3
               = (Ok ([], native_libs'), w4)
               /\ assets_loop "/mcvm/assets" [("icons/icon.png", Sample.icon)] [] w4
                  = (Ok [], w5))
  /\ (let w := put_file Sample.nothing "/mcvm/libraries/com/mojang/brigadier.jar"
                        "https://libs.example/brigadier.jar" in
      exists native_libs',
        library_step Sample.os Sample.libraries_path Sample.natives_path
          Sample.brigadier ([], []) w = (Ok ([], native_libs'), w)).
Proof.
  destruct (C5_planning_is_idempotent Sample.os Sample.remote Sample.libraries_path
              Sample.natives_path "/mcvm/assets") as (Hlib & _ & Hplan).
  split.
  - do 5 eexists.
    split; [vm_compute; reflexivity|]. split; [vm_compute; reflexivity|].
    split; [reflexivity|].
    edestruct (Hplan [Sample.brigadier; Sample.glfw_linux; Sample.glfw_macos]
                 [("icons/icon.png", Sample.icon)] Sample.nothing)
      as (_ & _ & results & w3 & Hrun & Hres & _ & Hagain);
      [vm_compute; reflexivity | vm_compute; reflexivity |].
    exists w3. subst results. split; [exact Hrun | exact (Hagain eq_refl)].
  - intros w. apply (Hlib _ _ _ _ _ sample_brigadier).
    vm_compute. eexists. reflexivity.
Defined.

Lemma C6_checksum_before_parse_witness :
  lookup_entry "1.19" [Sample.entry_1_19; Sample.entry_1_18; Sample.entry_1_17]
  = Some Sample.entry_1_19
  /\ String.length (entry_sha1 Sample.entry_1_19) = 40%nat
  /\ (exists h w',
        Sample.resolve "1.19" Sample.nothing
        = (Ok (h, Sample.version_json), w'))
  /\ (exists w',
        Net.obtain_version_json Sample.internal_dir Sample.ASSETS_DIR
          Sample.VERSION_MANIFEST_URL Sample.remote Sample.Parse Sample.sha1_off
          "1.19" Sample.nothing
        = (Throw IntegrityError, w')).
Proof.
  assert (He : lookup_entry "1.19" [Sample.entry_1_19; Sample.entry_1_18; Sample.entry_1_17]
               = Some Sample.entry_1_19) by reflexivity.
  assert (Hlen : String.length (entry_sha1 Sample.entry_1_19) = 40%nat) by reflexivity.
  assert (Hurl : entry_url Sample.entry_1_19 <> EmptyString) by discriminate.
  split; [exact He|]. split; [exact Hlen|]. split.
  - destruct (C6_checksum_before_parse Sample.internal_dir Sample.ASSETS_DIR
                Sample.VERSION_MANIFEST_URL Sample.remote Sample.Parse Sample.sha1
                "1.19" Sample.nothing _ _ sample_manifest He Hlen Hurl) as (_ & Hok & _).
    destruct (Hok eq_refl) as (h & w' & Hrun & Hstr).
    exists h, w'. unfold Sample.resolve. rewrite Hrun, Hstr. reflexivity.
  - destruct (C6_checksum_before_parse Sample.internal_dir Sample.ASSETS_DIR
                Sample.VERSION_MANIFEST_URL Sample.remote Sample.Parse Sample.sha1_off
                "1.19" Sample.nothing _ _ sample_manifest He Hlen Hurl) as (Hbad & _).
    apply Hbad. discriminate.
Defined.

(** C7 fails on the code.  On Linux the rules keep the macOS natives out:
    the library loop adds no helper for the entry and still records its
    destination, and [obtain_libraries] opens that archive, which was
    never fetched. *)
Theorem C7_excluded_native_reaches_installer :
  is_library Sample.glfw_macos Sample.glfw_macos_entry
  /\ excluded Sample.os [{| action := Allow; osName := Some "osx" |}] = true
  /\ library_step Sample.os Sample.libraries_path Sample.natives_path Sample.glfw_macos
       ([], []) Sample.nothing
     = (Ok ([], [Sample.macos_archive]),
        add_event Sample.nothing (EvCreateLeading Sample.macos_archive))
  /\ (Sample.acquire "1.19" Sample.nothing).1 = Ok Sample.version_json
  /\ In (EvZipOpen Sample.macos_archive)
        (events (Sample.acquire "1.19" Sample.nothing).2)
  /\ files (Sample.acquire "1.19" Sample.nothing).2 !! Sample.macos_archive = None.
Proof.
  split; [exact sample_glfw_macos|]. split; [reflexivity|].
  split; [vm_compute; reflexivity|]. split; [vm_compute; reflexivity|].
  split; [vm_compute; auto 50 | vm_compute; reflexivity].
Qed.

Lemma C8_asset_is_hash_sharded_witness :
  is_asset Sample.icon Sample.icon_hash
  /\ is_sha1 Sample.icon_hash
  /\ asset_step "/mcvm/assets" ("icons/icon.png", Sample.icon) [] Sample.nothing
     = (Ok [{| mode := FILE;
               url := "http://resources.download.minecraft.net/89/"
                      +:+ Sample.icon_hash;
               path := "/mcvm/assets/objects/89/" +:+ Sample.icon_hash;
               str := EmptyString |}],
        add_event Sample.nothing
          (EvCreateLeading ("/mcvm/assets/objects/89/" +:+ Sample.icon_hash))).
Proof.
  assert (Hs : is_sha1 Sample.icon_hash) by (split; reflexivity).
  destruct (C8_asset_is_hash_sharded "/mcvm/assets" "icons/icon.png" Sample.icon
              Sample.icon_hash [] Sample.nothing sample_icon Hs) as (_ & _ & _ & Hstep).
  split; [exact sample_icon|]. split; [exact Hs|]. rewrite Hstep. reflexivity.
Defined.

(** The Linux archive has two entries; installing it prints their names
    and leaves the files as they were. *)
Example install_linux_archive :
  let w := put_file Sample.nothing Sample.linux_archive
                    "https://libs.example/glfw-natives-linux.jar" in
  install_native_library Sample.zip_entries Sample.linux_archive w
  = (Ok tt,
     {| files := files w;
        events := [EvZipOpen Sample.linux_archive;
                   EvOut "NATIVEliblwjgl_glfw.so";
                   EvOut "NATIVEMETA-INF/MANIFEST.MF"] |}).
Proof. vm_compute. reflexivity. Qed.

End Acquire.

(** ** More on the launch arguments *)

Module LaunchMore.

Import Game Shape Forms Facts.

#[local] Arguments String.append : simpl nomatch.

Section LaunchMore.

#[local] Set Default Proof Using "Type".

Variable OS_STRING : string.
Variable ARCH_STRING : string.
Variable is_allowed : string -> bool.
Variable mc_version_reverse_map : gmap MinecraftVersion string.

Local Abbreviation repl_arg_token := (Game.repl_arg_token mc_version_reverse_map).
Local Abbreviation emit_contents := (Game.emit_contents mc_version_reverse_map).
Local Abbreviation rule_passes := (Game.rule_passes OS_STRING ARCH_STRING is_allowed).
Local Abbreviation rules_pass := (Game.rules_pass OS_STRING ARCH_STRING is_allowed).
Local Abbreviation parse_single_arg :=
  (Game.parse_single_arg OS_STRING ARCH_STRING is_allowed mc_version_reverse_map).
Local Abbreviation parse_each :=
  (Game.parse_each OS_STRING ARCH_STRING is_allowed mc_version_reverse_map).
Local Abbreviation parse_args :=
  (Game.parse_args OS_STRING ARCH_STRING is_allowed mc_version_reverse_map).

Lemma substituted_empty g paths version_string is_jvm :
  substituted g paths version_string is_jvm EmptyString = EmptyString
  /\ is_auth_placeholder (game_repl_head g paths version_string EmptyString) = false.
Proof.
  unfold substituted. destruct is_jvm, (is_offline (user g)); split; reflexivity.
Qed.

(** Empty contents are never pushed and never dropped. *)
Lemma emit_contents_empty g is_jvm paths g' :
  emit_contents g EmptyString is_jvm paths <> Ok g'.
Proof.
  unfold Game.emit_contents.
  destruct (mc_version_reverse_map !! version g) as [vs|] eqn:Hv.
  - rewrite (Launch.repl_arg_token_cases _ _ _ _ _ _ Hv). cbv zeta.
    destruct (substituted_empty g paths vs is_jvm) as [-> ->].
    rewrite andb_false_r. simpl. discriminate.
  - unfold Game.repl_arg_token. rewrite Hv. discriminate.
Qed.

(** X1.  [parse_single_arg] returns only on a string or an object: null,
    booleans and numbers reach [ASSERT_NOREACH], and an array, once its
    elements are expanded, falls through to the assertion that the
    contents are not empty. *)
Theorem only_strings_and_objects_are_accepted arg is_jvm paths g g' :
  parse_single_arg arg is_jvm paths g = Ok g' ->
  (exists s, arg = kString s) \/ (exists arg_obj, arg = kObject arg_obj).
Proof.
  destruct arg as [| b | n | s | values | arg_obj]; try discriminate; eauto.
  rewrite Launch.parse_single_arg_array. intros H.
  apply rbind_Ok in H as (g1 & _ & H). now apply emit_contents_empty in H.
Qed.

Lemma emit_contents_nonempty is_jvm paths g contents g' :
  Forall (fun f => f <> EmptyString) (flags g) ->
  emit_contents g contents is_jvm paths = Ok g' ->
  Forall (fun f => f <> EmptyString) (flags g').
Proof.
  intros Hf H. unfold Game.emit_contents in H.
  apply rbind_Ok in H as ([s drop] & _ & H). destruct drop.
  - injection H as <-. destruct (0 <? length (flags g))%nat; simpl; [|exact Hf].
    now apply removelast_Forall.
  - apply rbind_Ok in H as (u & Ha & H). injection H as <-. simpl.
    apply assert_Ok in Ha. apply negb_true_iff, String.eqb_neq in Ha.
    apply Forall_app. split; [exact Hf | now repeat constructor].
Qed.

(** X2.  An expansion pushes no empty flag: when the flags are not empty
    texts before a list of arguments is expanded, they are not afterwards. *)
Theorem flags_stay_nonempty args is_jvm paths g g' :
  Forall (fun f => f <> EmptyString) (flags g) ->
  parse_each args is_jvm paths g = Ok g' ->
  Forall (fun f => f <> EmptyString) (flags g').
Proof.
  intros Hf H.
  apply (Launch.parse_each_preserves OS_STRING ARCH_STRING is_allowed
           mc_version_reverse_map
           (fun h => Forall (fun f => f <> EmptyString) (flags h)) is_jvm paths) in H;
    [exact H | | exact Hf].
  intros a c b. apply emit_contents_nonempty.
Qed.

(** X3.  When the version of the runner is not in the version table, a
    literal throws [out_of_range], and an expansion that returns all the
    same (every argument kept out by its rules) has changed nothing. *)
Theorem unmapped_version_expands_nothing args is_jvm paths g :
  mc_version_reverse_map !! version g = None ->
  (forall s, parse_single_arg (kString s) is_jvm paths g = Throw out_of_range)
  /\ (forall g', parse_each args is_jvm paths g = Ok g' -> g' = g).
Proof.
  intros Hv. split.
  - intros s. simpl. unfold Game.emit_contents, Game.repl_arg_token. now rewrite Hv.
  - intros g' H. symmetry.
    apply (Launch.parse_each_preserves OS_STRING ARCH_STRING is_allowed
             mc_version_reverse_map (fun h => g = h) is_jvm paths) in H; [exact H| |reflexivity].
    intros a c b <- He. unfold Game.emit_contents, Game.repl_arg_token in He.
    rewrite Hv in He. discriminate He.
Qed.

(** *** The rules of a conditional argument *)

Lemma rule_passes_is_arg_rule u v r :
  is_arg_rule v r ->
  rule_passes u v = Ok (arg_rule_ok OS_STRING ARCH_STRING is_allowed u r).
Proof.
  intros (o & -> & (sa & Hact & Ea) & Hos & Hfeat).
  unfold Game.rule_passes, arg_rule_ok, json_access_o, HasMember, member. simpl.
  rewrite Hact. simpl. rewrite Ea.
  assert (Hf : forall b : bool,
    (if b then
       if match FindMember o "features" with Some _ => true | None => false end
       then features_val ← match FindMember o "features" with
                           | Some x => Ok x | None => AssertFail end;
            features ← GetObject features_val;
            (if match FindMember features "has_custom_resolution" with
                | Some _ => true | None => false end
             then Ok false
             else if match FindMember features "is_demo_user" with
                     | Some _ => true | None => false end
                  then Ok (is_demo u) else Ok true)
       else Ok true
     else Ok false)
    = Ok (b && negb (has_custom_resolution r) && (negb (is_demo_user r) || is_demo u))).
  { intros b. destruct b; [|reflexivity].
    destruct (has_custom_resolution r) eqn:Hc, (is_demo_user r) eqn:Hd; simpl in Hfeat.
    - destruct Hfeat as (f & -> & Hfc & Hfd). simpl. unfold HasMember in Hfc.
      destruct (FindMember f "has_custom_resolution"); [reflexivity | discriminate].
    - destruct Hfeat as (f & -> & Hfc & Hfd). simpl. unfold HasMember in Hfc.
      destruct (FindMember f "has_custom_resolution"); [reflexivity | discriminate].
    - destruct Hfeat as (f & -> & Hfc & Hfd). simpl. unfold HasMember in Hfc, Hfd.
      destruct (FindMember f "has_custom_resolution"); [discriminate|].
      destruct (FindMember f "is_demo_user"); [reflexivity | discriminate].
    - rewrite Hfeat. reflexivity. }
  destruct (rule_os_name r) as [n|], (rule_os_arch r) as [a|].
  - destruct Hos as (os & -> & Hn & Ha). simpl in *. rewrite Hn, Ha. simpl.
    destruct (Bool.eqb (is_allowed (rule_action r)) (String.eqb n OS_STRING)); simpl.
    + apply Hf.
    + apply (Hf false).
  - destruct Hos as (os & -> & Hn & Ha). simpl in *. rewrite Hn, Ha. simpl.
    destruct (Bool.eqb (is_allowed (rule_action r)) (String.eqb n OS_STRING)); simpl.
    + apply (Hf true).
    + apply (Hf false).
  - destruct Hos as (os & -> & Hn & Ha). simpl in *. rewrite Hn, Ha. simpl.
    apply Hf.
  - rewrite Hos. simpl. apply (Hf true).
Qed.

Lemma rules_pass_forallb u vs rs junk :
  Forall2 is_arg_rule vs rs ->
  rules_pass u (vs ++ junk) =
  if forallb (arg_rule_ok OS_STRING ARCH_STRING is_allowed u) rs
  then rules_pass u junk else Ok false.
Proof.
  induction 1 as [|v r vs rs Hr _ IH]; [reflexivity|].
  simpl. rewrite (rule_passes_is_arg_rule _ _ _ Hr). simpl.
  destruct (arg_rule_ok OS_STRING ARCH_STRING is_allowed u r); [exact IH | reflexivity].
Qed.

Lemma forallb_Permutation {A} (f : A -> bool) (l l' : list A) :
  Permutation l l' -> forallb f l = forallb f l'.
Proof.
  induction 1 as [|x l l' _ IH|x y l|l l' l'' _ IH1 _ IH2]; simpl.
  - reflexivity.
  - now rewrite IH.
  - now destruct (f x), (f y).
  - now rewrite IH1.
Qed.

(** X4.  The rules of a conditional argument are conjunctive: the value is
    expanded exactly when every rule lets it through (its OS name and
    architecture agree with the action, it asks for no custom resolution,
    and it asks for a demo user only under one), otherwise the argument
    leaves the runner as it is; the order of the rules does not matter,
    and behind a rule that fails nothing is read. *)
Theorem argument_rules_are_conjunctive arg_obj vs rs value is_jvm paths g :
  FindMember arg_obj "rules" = Some (kArray vs) ->
  FindMember arg_obj "value" = Some value ->
  Forall2 is_arg_rule vs rs ->
  parse_single_arg (kObject arg_obj) is_jvm paths g =
    (if forallb (arg_rule_ok OS_STRING ARCH_STRING is_allowed (user g)) rs
     then parse_single_arg value is_jvm paths g else Ok g)
  /\ (forall vs' rs', Forall2 is_arg_rule vs' rs' -> Permutation rs rs' ->
        rules_pass (user g) vs' = rules_pass (user g) vs)
  /\ (forall junk,
        forallb (arg_rule_ok OS_STRING ARCH_STRING is_allowed (user g)) rs = false ->
        rules_pass (user g) (vs ++ junk) = Ok false).
Proof.
  intros Hrules Hvalue Hrs.
  pose proof (rules_pass_forallb (user g) vs rs [] Hrs) as Hpass.
  rewrite app_nil_r in Hpass. simpl in Hpass. split; [|split].
  - rewrite Launch.parse_single_arg_object. unfold json_access_o.
    rewrite Hrules. simpl. rewrite Hpass, Hvalue.
    now destruct (forallb _ rs).
  - intros vs' rs' Hrs' Hperm.
    pose proof (rules_pass_forallb (user g) vs' rs' [] Hrs') as Hpass'.
    rewrite app_nil_r in Hpass'. simpl in Hpass'.
    rewrite Hpass, Hpass', (forallb_Permutation _ _ _ Hperm).
    reflexivity.
  - intros junk Hfalse. now rewrite (rules_pass_forallb _ _ _ junk Hrs), Hfalse.
Qed.

(** *** Flushing and the whole command *)

(** X5.  [write_flags] appends every flag to the output in order, each
    behind a space, empties the list and changes nothing else; flushing
    again right away changes nothing. *)
Theorem write_flags_flushes_once g :
  output (write_flags g) = output g +:+ words (flags g)
  /\ flags (write_flags g) = []
  /\ user (write_flags g) = user g /\ version (write_flags g) = version g
  /\ classpath (write_flags g) = classpath g /\ mc_dir (write_flags g) = mc_dir g
  /\ write_flags (write_flags g) = write_flags g.
Proof.
  assert (H : forall l h,
             output (fold_left add_word l h) = output h +:+ words l
             /\ user (fold_left add_word l h) = user h
             /\ version (fold_left add_word l h) = version h
             /\ classpath (fold_left add_word l h) = classpath h
             /\ mc_dir (fold_left add_word l h) = mc_dir h
             /\ jar_path (fold_left add_word l h) = jar_path h).
  { induction l as [|w l IH]; intros h; simpl.
    - now rewrite append_nil_r.
    - destruct (IH (add_word h w)) as (-> & -> & -> & -> & -> & ->). simpl.
      now rewrite !append_assoc. }
  destruct (H (flags g) g) as (Ho & Hu & Hv & Hc & Hm & Hj).
  unfold write_flags. simpl. repeat split; auto.
Qed.

(** X6.  [parse_args] returns only on an object with an [arguments]
    object that has a [game] and a [jvm] array and with a string
    [mainClass]; the command is then the JVM phase, the debug flag, a
    flush, the main class (read as a C string), the game phase and a
    flush. *)
Theorem parse_args_needs_a_full_descriptor ret paths g g' :
  parse_args ret paths g = Ok g' ->
  exists o arguments game_args jvm_args main_class g1 g2,
    ret = kObject o
    /\ FindMember o "arguments" = Some (kObject arguments)
    /\ FindMember arguments "game" = Some (kArray game_args)
    /\ FindMember arguments "jvm" = Some (kArray jvm_args)
    /\ FindMember o "mainClass" = Some (kString main_class)
    /\ parse_each jvm_args true paths g = Ok g1
    /\ parse_each game_args false paths
         (add_word (write_flags (add_flag g1 "-Dorg.lwjgl.util.DebugLoader=true"))
                   (c_str main_class)) = Ok g2
    /\ g' = write_flags g2.
Proof.
  unfold Game.parse_args. intros H.
  apply rbind_Ok in H as (u0 & Hobj & H). apply assert_Ok in Hobj.
  destruct ret as [| | | | |o]; try discriminate Hobj.
  unfold json_access, json_access_o in H. simpl in H.
  destruct (FindMember o "arguments") as [[| | | | |arguments]|] eqn:Ha; try discriminate H.
  simpl in H.
  destruct (FindMember arguments "game") as [[| | | |game_args|]|] eqn:Hg; try discriminate H.
  simpl in H.
  destruct (FindMember arguments "jvm") as [[| | | |jvm_args|]|] eqn:Hj; try discriminate H.
  simpl in H.
  apply rbind_Ok in H as (g1 & H1 & H).
  destruct (FindMember o "mainClass") as [[| | |main_class| |]|] eqn:Hm; try discriminate H.
  simpl in H.
  apply rbind_Ok in H as (g2 & H2 & H). injection H as <-.
  exists o, arguments, game_args, jvm_args, main_class, g1, g2. repeat split; assumption.
Qed.

(** X7.  The main class is not checked: on a descriptor without arguments
    the command is the flags at hand, the debug flag and the main class
    as [GetString] reads it, whatever characters it holds. *)
Theorem main_class_is_not_checked o arguments main_class paths g :
  FindMember o "arguments" = Some (kObject arguments) ->
  FindMember arguments "game" = Some (kArray []) ->
  FindMember arguments "jvm" = Some (kArray []) ->
  FindMember o "mainClass" = Some (kString main_class) ->
  exists g',
    parse_args (kObject o) paths g = Ok g'
    /\ output g' = output g
                   +:+ words (flags g ++ ["-Dorg.lwjgl.util.DebugLoader=true"])
                   +:+ " " +:+ c_str main_class
    /\ flags g' = []
    /\ (forall c, find_char c (c_str main_class) <> None ->
                  find_char c (output g') <> None).
Proof.
  intros Ha Hg Hj Hm. unfold Game.parse_args, json_access, json_access_o. simpl.
  rewrite Ha. simpl. rewrite Hg, Hj. simpl. rewrite Hm. simpl.
  eexists. split; [reflexivity|].
  assert (Hout : output (write_flags
                   (add_word (write_flags (add_flag g "-Dorg.lwjgl.util.DebugLoader=true"))
                             (c_str main_class)))
                 = output g +:+ words (flags g ++ ["-Dorg.lwjgl.util.DebugLoader=true"])
                   +:+ " " +:+ c_str main_class).
  { destruct (write_flags_flushes_once
                (add_word (write_flags (add_flag g "-Dorg.lwjgl.util.DebugLoader=true"))
                          (c_str main_class))) as (-> & _).
    unfold add_word at 1 2. unfold set_output at 1 2. cbn [output flags].
    destruct (write_flags_flushes_once (add_flag g "-Dorg.lwjgl.util.DebugLoader=true"))
      as (-> & -> & _).
    cbn [add_flag set_flags output flags words].
    now rewrite append_nil_r, !append_assoc. }
  split; [exact Hout|]. split; [reflexivity|].
  intros c Hc. rewrite Hout. intros Hnone.
  apply find_char_append in Hnone as [_ Hnone].
  apply find_char_append in Hnone as [_ Hnone].
  apply find_char_append in Hnone as [_ Hnone]. contradiction.
Qed.

(** *** Drops *)

Lemma removelast_firstn {A} (l : list A) (k : nat) :
  removelast (firstn (length l - k) l) = firstn (length l - S k) l.
Proof.
  destruct (Nat.le_gt_cases (length l) k) as [Hle|Hgt].
  - replace (length l - k)%nat with 0%nat by lia.
    replace (length l - S k)%nat with 0%nat by lia. reflexivity.
  - rewrite removelast_firstn_len, length_firstn.
    rewrite firstn_firstn. f_equal. lia.
Qed.

(** X8.  Under an offline user every authentication placeholder of the
    game phase pops one flag: after a run of [k] such literals the flags
    are the old ones without their last [k] (none is left when there were
    fewer), whatever those flags were, and the output is untouched. *)
Theorem offline_drops_pop_one_flag_each ps paths g version_string :
  is_offline (user g) = true ->
  mc_version_reverse_map !! version g = Some version_string ->
  Forall (fun p => In p auth_placeholders) ps ->
  exists g',
    parse_each (map kString ps) false paths g = Ok g'
    /\ flags g' = firstn (length (flags g) - length ps) (flags g)
    /\ output g' = output g.
Proof.
  intros Hoff Hv Hps. revert g Hoff Hv.
  induction Hps as [|p ps Hp _ IH]; intros g Hoff Hv.
  - exists g. simpl. rewrite Nat.sub_0_r, firstn_all. auto.
  - cbn [map Game.parse_each Game.parse_single_arg].
    rewrite (Launch.c_str_auth_placeholder p Hp). unfold Game.emit_contents.
    rewrite (Launch.repl_arg_token_auth_offline _ _ paths _ _ Hoff Hv Hp). simpl.
    set (g1 := if (0 <? length (flags g))%nat then set_flags g (pop_back (flags g)) else g).
    assert (H1 : flags g1 = removelast (flags g) /\ output g1 = output g
                 /\ user g1 = user g /\ version g1 = version g).
    { subst g1. destruct (flags g) as [|x l] eqn:E; simpl; [rewrite E|]; auto. }
    destruct H1 as (Hf1 & Ho1 & Hu1 & Hver1).
    destruct (IH g1) as (g' & Hrun & Hf & Ho).
    + now rewrite Hu1.
    + now rewrite Hver1.
    + exists g'. split; [exact Hrun|]. split; [|congruence].
      rewrite Hf, Hf1.
      pose proof (removelast_firstn (flags g) 0) as Hr.
      rewrite Nat.sub_0_r, firstn_all in Hr. rewrite Hr.
      rewrite length_firstn, firstn_firstn. f_equal. lia.
Qed.

Lemma emit_contents_grows is_jvm paths g0 g contents g' :
  is_jvm = true \/ is_offline (user g0) = false ->
  (exists added, flags g = flags g0 ++ added) /\ user g = user g0 ->
  emit_contents g contents is_jvm paths = Ok g' ->
  (exists added, flags g' = flags g0 ++ added) /\ user g' = user g0.
Proof.
  intros Hmode [[added Hf] Hu] H. unfold Game.emit_contents in H.
  apply rbind_Ok in H as ([s drop] & Hr & H).
  apply Launch.repl_arg_token_Ok in Hr as (vs & _ & _ & _ & Hdrop).
  destruct drop.
  - destruct (Hdrop eq_refl) as (Hj & Hoff & _). rewrite Hu in Hoff.
    destruct Hmode as [Hm|Hm]; congruence.
  - apply rbind_Ok in H as (u & _ & H). injection H as <-. simpl.
    split; [|exact Hu]. exists (added ++ [s]). now rewrite Hf, app_assoc.
Qed.

(** X9.  In the JVM phase, and in the game phase of a user who is not
    offline, an expansion only pushes: the flags before it are a prefix of
    the flags after it. *)
Theorem flags_only_grow_without_offline_drops args is_jvm paths g g' :
  is_jvm = true \/ is_offline (user g) = false ->
  parse_each args is_jvm paths g = Ok g' ->
  exists added, flags g' = flags g ++ added.
Proof.
  intros Hmode H.
  apply (Launch.parse_each_preserves OS_STRING ARCH_STRING is_allowed
           mc_version_reverse_map
           (fun h => (exists added, flags h = flags g ++ added) /\ user h = user g)
           is_jvm paths) in H.
  - now destruct H.
  - intros a c b. now apply emit_contents_grows.
  - split; [exists []; now rewrite app_nil_r | reflexivity].
Qed.

End LaunchMore.

(** The properties at concrete cases. *)

Lemma only_strings_and_objects_are_accepted_witness :
  Game.parse_single_arg Sample.os Sample.arch Sample.allowed Sample.versions
    (kString "-Xmx2G") true Sample.paths Sample.runner
  = Ok (add_flag Sample.runner "-Xmx2G")
  /\ ((exists s, kString "-Xmx2G" = kString s)
      \/ (exists arg_obj, kString "-Xmx2G" = kObject arg_obj)).
Proof.
  assert (H : Game.parse_single_arg Sample.os Sample.arch Sample.allowed Sample.versions
                (kString "-Xmx2G") true Sample.paths Sample.runner
              = Ok (add_flag Sample.runner "-Xmx2G")) by (vm_compute; reflexivity).
  split; [exact H|].
  exact (only_strings_and_objects_are_accepted Sample.os Sample.arch Sample.allowed
           Sample.versions _ _ _ _ _ H).
Defined.

Lemma flags_stay_nonempty_witness :
  Forall (fun f => f <> EmptyString) (flags Sample.runner)
  /\ Game.parse_each Sample.os Sample.arch Sample.allowed Sample.versions
       [kString "--version"; kString "${version_name}"] false Sample.paths Sample.runner
     = Ok (set_flags Sample.runner ["--version"; "1.19"])
  /\ Forall (fun f => f <> EmptyString) ["--version"; "1.19"].
Proof.
  assert (H0 : Forall (fun f => f <> EmptyString) (flags Sample.runner)) by constructor.
  assert (H : Game.parse_each Sample.os Sample.arch Sample.allowed Sample.versions
                [kString "--version"; kString "${version_name}"] false Sample.paths
                Sample.runner
              = Ok (set_flags Sample.runner ["--version"; "1.19"]))
    by (vm_compute; reflexivity).
  split; [exact H0|]. split; [exact H|].
  exact (flags_stay_nonempty Sample.os Sample.arch Sample.allowed Sample.versions
           _ _ _ _ _ H0 H).
Defined.

Lemma unmapped_version_expands_nothing_witness :
  Sample.versions !! version Cases.unlisted_runner = None
  /\ Game.parse_single_arg Sample.os Sample.arch Sample.allowed Sample.versions
       (kString "-Xmx2G") true Sample.paths Cases.unlisted_runner = Throw out_of_range.
Proof.
  assert (H : Sample.versions !! version Cases.unlisted_runner = None)
    by (vm_compute; reflexivity).
  split; [exact H|].
  exact (proj1 (unmapped_version_expands_nothing Sample.os Sample.arch Sample.allowed
                  Sample.versions [] true Sample.paths _ H) "-Xmx2G").
Defined.

Lemma sample_demo_rule : Forall2 is_arg_rule [Cases.demo_rule_json] [Cases.demo_rule].
Proof.
  constructor; [|constructor]. eexists. split; [reflexivity|].
  split; [eexists; split; reflexivity|]. split.
  - simpl. eexists. repeat split; reflexivity.
  - simpl. eexists. repeat split; reflexivity.
Qed.

Lemma argument_rules_are_conjunctive_witness :
  FindMember Cases.demo_argument "rules" = Some (kArray [Cases.demo_rule_json])
  /\ FindMember Cases.demo_argument "value" = Some (kString "--demo")
  /\ Forall2 is_arg_rule [Cases.demo_rule_json] [Cases.demo_rule]
  /\ Game.parse_single_arg Sample.os Sample.arch Sample.allowed Sample.versions
       (kObject Cases.demo_argument) false Sample.paths Sample.runner = Ok Sample.runner.
Proof.
  assert (H1 : FindMember Cases.demo_argument "rules" = Some (kArray [Cases.demo_rule_json]))
    by reflexivity.
  assert (H2 : FindMember Cases.demo_argument "value" = Some (kString "--demo"))
    by reflexivity.
  split; [exact H1|]. split; [exact H2|]. split; [exact sample_demo_rule|].
  destruct (argument_rules_are_conjunctive Sample.os Sample.arch Sample.allowed
              Sample.versions _ _ _ _ false Sample.paths Sample.runner H1 H2 sample_demo_rule)
    as (-> & _). reflexivity.
Defined.

Lemma parse_args_needs_a_full_descriptor_witness :
  Game.parse_args Sample.os Sample.arch Sample.allowed Sample.versions
    Sample.descriptor Sample.paths Sample.runner = Ok Sample.launched
  /\ exists o main_class, Sample.descriptor = kObject o
       /\ FindMember o "mainClass" = Some (kString main_class).
Proof.
  assert (H : Game.parse_args Sample.os Sample.arch Sample.allowed Sample.versions
                Sample.descriptor Sample.paths Sample.runner = Ok Sample.launched)
    by (vm_compute; reflexivity).
  split; [exact H|].
  destruct (parse_args_needs_a_full_descriptor Sample.os Sample.arch Sample.allowed
              Sample.versions _ _ _ _ H)
    as (o & a & ga & ja & m & g1 & g2 & Ho & _ & _ & _ & Hm & _).
  now exists o, m.
Defined.

Lemma main_class_is_not_checked_witness :
  exists g',
    Game.parse_args Sample.os Sample.arch Sample.allowed Sample.versions
      (kObject Cases.bare_descriptor) Sample.paths Sample.runner = Ok g'
    /\ find_char "$" (output g') <> None.
Proof.
  destruct (main_class_is_not_checked Sample.os Sample.arch Sample.allowed Sample.versions
              Cases.bare_descriptor
              [("game", kArray []); ("jvm", kArray [])] "net.minecraft.Main$Inner"
              Sample.paths Sample.runner eq_refl eq_refl eq_refl eq_refl)
    as (g' & Hrun & _ & _ & Hchar).
  exists g'. split; [exact Hrun|]. apply Hchar. discriminate.
Defined.

Lemma offline_drops_pop_one_flag_each_witness :
  is_offline (user (set_flags Sample.runner ["--demo"; "--uuid"])) = true
  /\ Sample.versions !! version (set_flags Sample.runner ["--demo"; "--uuid"]) = Some "1.19"
  /\ exists g',
       Game.parse_each Sample.os Sample.arch Sample.allowed Sample.versions
         [kString "${auth_uuid}"; kString "${auth_access_token}"] false Sample.paths
         (set_flags Sample.runner ["--demo"; "--uuid"]) = Ok g'
       /\ flags g' = [].
Proof.
  assert (H1 : is_offline (user (set_flags Sample.runner ["--demo"; "--uuid"])) = true)
    by reflexivity.
  assert (H2 : Sample.versions !! version (set_flags Sample.runner ["--demo"; "--uuid"])
               = Some "1.19") by (vm_compute; reflexivity).
  split; [exact H1|]. split; [exact H2|].
  assert (H3 : Forall (fun p => In p auth_placeholders)
                      ["${auth_uuid}"; "${auth_access_token}"]).
  { constructor; [simpl; auto 6|]. constructor; [simpl; auto 6 | constructor]. }
  destruct (offline_drops_pop_one_flag_each Sample.os Sample.arch Sample.allowed
              Sample.versions ["${auth_uuid}"; "${auth_access_token}"] Sample.paths
              _ _ H1 H2 H3) as (g' & Hrun & Hf & _).
  exists g'. split; [exact Hrun | exact Hf].
Defined.

Lemma flags_only_grow_without_offline_drops_witness :
  is_offline (user (set_flags Cases.online_runner ["--uuid"])) = false
  /\ Game.parse_each Sample.os Sample.arch Sample.allowed Sample.versions
       [kString "${auth_uuid}"] false Sample.paths
       (set_flags Cases.online_runner ["--uuid"])
     = Ok (set_flags Cases.online_runner ["--uuid"; "aaaaa-aaaaa-aaaa-a"])
  /\ exists added,
       flags (set_flags Cases.online_runner ["--uuid"; "aaaaa-aaaaa-aaaa-a"])
       = flags (set_flags Cases.online_runner ["--uuid"]) ++ added.
Proof.
  assert (H1 : is_offline (user (set_flags Cases.online_runner ["--uuid"])) = false)
    by reflexivity.
  assert (H2 : Game.parse_each Sample.os Sample.arch Sample.allowed Sample.versions
                 [kString "${auth_uuid}"] false Sample.paths
                 (set_flags Cases.online_runner ["--uuid"])
               = Ok (set_flags Cases.online_runner ["--uuid"; "aaaaa-aaaaa-aaaa-a"]))
    by (vm_compute; reflexivity).
  split; [exact H1|]. split; [exact H2|].
  exact (flags_only_grow_without_offline_drops Sample.os Sample.arch Sample.allowed
           Sample.versions _ _ _ _ _ (or_intror H1) H2).
Defined.

End LaunchMore.

(** ** More on the acquisition *)

Module AcquireMore.

Import Game Net Shape Forms Facts.

#[local] Arguments String.append : simpl nomatch.

(** A bind returns only when both of its parts do. *)
Lemma mbind_Ok {A B} (m : M A) (k : A -> M B) (w w' : World) (b : B) :
  (m ≫= k) w = (Ok b, w') ->
  exists a w1, m w = (Ok a, w1) /\ k a w1 = (Ok b, w').
Proof.
  unfold mbind, M_bind. destruct (m w) as [[a| |] w1]; try discriminate. eauto.
Qed.

Lemma liftR_Ok {A} (r : Res A) (w w' : World) (a : A) :
  liftR r w = (Ok a, w') -> r = Ok a /\ w' = w.
Proof. unfold liftR. now intros [= -> ->]. Qed.

(** The accessors assert; they throw nothing. *)
Lemma GetObject_throws_not v e : GetObject v <> Throw e.
Proof. now destruct v. Qed.

Lemma GetString_throws_not v e : GetString v <> Throw e.
Proof. now destruct v. Qed.

Lemma GetArray_throws_not v e : GetArray v <> Throw e.
Proof. now destruct v. Qed.

Lemma json_access_o_throws_not o name e : json_access_o o name <> Throw e.
Proof. unfold json_access_o. now destruct (FindMember o name). Qed.

Lemma member_throws_not o name e : member o name <> Throw e.
Proof. unfold member. now destruct (FindMember o name). Qed.

Lemma json_access_throws_not v name e : json_access v name <> Throw e.
Proof.
  unfold json_access. destruct v; try discriminate. simpl. apply json_access_o_throws_not.
Qed.

Lemma extends_refl w : extends w w.
Proof. split; [intros p H; exact H | exists []; now rewrite app_nil_r]. Qed.

Lemma extends_trans w1 w2 w3 : extends w1 w2 -> extends w2 w3 -> extends w1 w3.
Proof.
  intros [Hc1 [m1 He1]] [Hc2 [m2 He2]]. split.
  - intros p H. auto.
  - exists (m1 ++ m2). now rewrite He2, He1, app_assoc.
Qed.

Lemma extends_add_event w e : extends w (add_event w e).
Proof. split; [intros p H; exact H | now exists [e]]. Qed.

Lemma extends_put_file w p c : extends w (put_file w p c).
Proof.
  split.
  - intros q H. unfold put_file. simpl.
    destruct (decide (p = q)) as [->|Hne];
      [rewrite lookup_insert_eq; eauto | now rewrite lookup_insert_ne].
  - exists []. simpl. now rewrite app_nil_r.
Qed.

Lemma extends_In w w' e : extends w w' -> In e (events w) -> In e (events w').
Proof. intros [_ [more ->]] H. apply in_or_app. now left. Qed.

Lemma extends_fetched w m u p t : extends w (fetched w m u p t).
Proof.
  unfold fetched. destruct (landed t) as [c|]; [|apply extends_add_event].
  eapply extends_trans; [apply extends_add_event | apply extends_put_file].
Qed.

Lemma find_version_throws_not vs version found e : find_version vs version found <> Throw e.
Proof.
  revert found. induction vs as [|v vs IH]; intros found; simpl; [discriminate|].
  destruct (GetObject v) as [o| |e0] eqn:E; simpl; try discriminate;
    [|now apply GetObject_throws_not in E].
  destruct (json_access_o o "id") as [iv| |e0] eqn:E1; simpl; try discriminate;
    [|now apply json_access_o_throws_not in E1].
  destruct (GetString iv) as [i| |e0] eqn:E2; simpl; try discriminate;
    [|now apply GetString_throws_not in E2].
  destruct (String.eqb i version); [|apply IH].
  destruct (json_access_o o "url") as [uv| |e0] eqn:E3; simpl; try discriminate;
    [|now apply json_access_o_throws_not in E3].
  destruct (GetString uv) as [u| |e0] eqn:E4; simpl; try discriminate;
    [|now apply GetString_throws_not in E4].
  destruct (json_access_o o "sha1") as [hv| |e0] eqn:E5; simpl; try discriminate;
    [|now apply json_access_o_throws_not in E5].
  destruct (GetString hv) as [h| |e0] eqn:E6; simpl; try discriminate;
    [|now apply GetString_throws_not in E6].
  destruct (String.length h =? 40)%nat; discriminate.
Qed.

Section Resolve.

#[local] Set Default Proof Using "Type".

Variable internal_dir : string.
Variable ASSETS_DIR : string.
Variable VERSION_MANIFEST_URL : string.
Variable remote : string -> Transfer.
Variable Parse : string -> Value.
Variable sha1 : string -> string.

Local Abbreviation obtain_version_json :=
  (Net.obtain_version_json internal_dir ASSETS_DIR VERSION_MANIFEST_URL remote Parse sha1).
Local Abbreviation index_file_path := (Shape.index_file_path internal_dir ASSETS_DIR).
Local Abbreviation manifest_world :=
  (manifest_fetched internal_dir ASSETS_DIR VERSION_MANIFEST_URL (remote VERSION_MANIFEST_URL)).

(** [obtain_version_json] without any assumption on the manifest or on
    the transfers: the world when resolution is over, and what is left to
    happen. *)
Lemma obtain_version_json_cases version w :
  obtain_version_json version w = (AssertFail, manifest_world w)
  \/ obtain_version_json version w = (Throw VersionNotFoundException, manifest_world w)
  \/ exists u r,
       obtain_version_json version w
       = (r, fetched (manifest_world w) FILE_AND_STR u (index_file_path version) (remote u))
       /\ (r = Throw IntegrityError
           \/ r = Ok ({| mode := FILE_AND_STR; url := u; path := index_file_path version;
                         str := received (remote u) |}, Parse (received (remote u)))).
Proof.
  rewrite Acquire.obtain_version_json_found. cbv zeta.
  destruct (json_access (Parse (received (remote VERSION_MANIFEST_URL))) "versions")
    as [vv| |e] eqn:Hj; [|now left|now apply json_access_throws_not in Hj].
  cbn [mbind Res_bind rbind].
  destruct (GetArray vv) as [vs| |e] eqn:Hg; [|now left|now apply GetArray_throws_not in Hg].
  cbn [mbind Res_bind rbind].
  destruct (find_version vs version (EmptyString, EmptyString)) as [[u h]| |e] eqn:Hfind;
    [|now left|now apply find_version_throws_not in Hfind].
  destruct (empty u); [right; now left|]. right. right. exists u.
  destruct (String.eqb (sha1 (received (remote u))) h); eexists; (split; [reflexivity|]); auto.
Qed.

Lemma manifest_world_extends w : extends w (manifest_world w).
Proof.
  unfold manifest_fetched.
  eapply extends_trans; [|apply extends_fetched].
  repeat (eapply extends_trans; [|apply extends_add_event]). apply extends_refl.
Qed.

Lemma obtain_version_json_extends version w r w' :
  obtain_version_json version w = (r, w') -> extends w w'.
Proof.
  intros Hrun. pose proof (manifest_world_extends w) as Hext.
  destruct (obtain_version_json_cases version w) as [H|[H|(u & r0 & H & Hr)]];
    rewrite H in Hrun; injection Hrun as <- <-; try exact Hext.
  eapply extends_trans; [exact Hext | apply extends_fetched].
Qed.

(** X10.  Whatever the manifest holds and however [obtain_version_json]
    ends, it has fetched the manifest first and at most the descriptor
    after it, it returns a document only after that second transfer,
    [VersionNotFoundException] comes before it, and no file but the cached
    manifest and the cached descriptor is written. *)
Theorem resolution_writes_two_files_at_most version w r w' :
  obtain_version_json version w = (r, w') ->
  (exists rest,
     events w' = events (manifest_world w) ++ rest
     /\ (rest = [] \/ exists u, rest = [EvDownload FILE_AND_STR u (index_file_path version)])
     /\ (forall x, r = Ok x -> rest <> [])
     /\ (r = Throw VersionNotFoundException -> rest = []))
  /\ (forall p, p <> internal_dir // ASSETS_DIR // "version_manifest.json" ->
                p <> index_file_path version ->
                files w' !! p = files w !! p)
  /\ extends w w'.
Proof.
  intros Hrun.
  assert (Hm : forall p, p <> internal_dir // ASSETS_DIR // "version_manifest.json" ->
                         files (manifest_world w) !! p = files w !! p).
  { intros p Hp. unfold manifest_fetched. rewrite Acquire.fetched_files.
    destruct (landed _); [|reflexivity]. now rewrite decide_False by congruence. }
  pose proof (manifest_world_extends w) as Hext.
  destruct (obtain_version_json_cases version w) as [H|[H|(u & r0 & H & Hr)]];
    rewrite H in Hrun; injection Hrun as <- <-.
  - split; [|split; [auto | exact Hext]]. exists []. rewrite app_nil_r.
    repeat split; auto; discriminate.
  - split; [|split; [auto | exact Hext]]. exists []. rewrite app_nil_r.
    repeat split; auto; discriminate.
  - split; [|split].
    + exists [EvDownload FILE_AND_STR u (index_file_path version)].
      split; [unfold fetched at 1; now destruct (landed (remote u))|].
      split; [right; eauto|]. split; [discriminate|].
      destruct Hr as [-> | ->]; discriminate.
    + intros p Hp1 Hp2. rewrite Acquire.fetched_files.
      destruct (landed (remote u)); [|now apply Hm].
      rewrite decide_False by congruence. now apply Hm.
    + eapply extends_trans; [exact Hext | apply extends_fetched].
Qed.

End Resolve.

(** X11.  The search for a version stops at the first entry with the id
    (an id that reads, as a C string, as the version): what comes behind
    it in the manifest is not read, so it cannot change the result,
    well-formed or not. *)
Theorem find_version_stops_at_the_match pre o post post' version found :
  reads_as (FindMember o "id") version ->
  find_version (pre ++ kObject o :: post) version found
  = find_version (pre ++ kObject o :: post') version found.
Proof.
  intros (s & Hid & Es). induction pre as [|v pre IH].
  - simpl. unfold json_access_o. rewrite Hid. simpl. now rewrite Es, String.eqb_refl.
  - change ((v :: pre) ++ kObject o :: post) with (v :: (pre ++ kObject o :: post)).
    change ((v :: pre) ++ kObject o :: post') with (v :: (pre ++ kObject o :: post')).
    cbn [find_version]. now rewrite IH.
Qed.

Section Install.

#[local] Set Default Proof Using "Type".

Variable zip_entries : string -> option (list string).

Lemma list_entries_all pre entries w :
  list_entries (Some (pre ++ entries)) (seq (length pre) (length entries)) w
  = (Ok tt, {| files := files w; events := events w ++ map native_line entries |}).
Proof.
  revert pre w. induction entries as [|e entries IH]; intros pre w.
  - simpl. rewrite app_nil_r. now destruct w.
  - cbn [length seq list_entries zip_stat_index].
    rewrite nth_error_app2 by lia. rewrite Nat.sub_diag. cbn [nth_error].
    unfold mbind at 1. unfold M_bind, OUT, log.
    replace (pre ++ e :: entries) with ((pre ++ [e]) ++ entries)
      by now rewrite <- app_assoc.
    replace (S (length pre)) with (length (pre ++ [e]))
      by (rewrite length_app; simpl; lia).
    rewrite IH. simpl. now rewrite <- app_assoc.
Qed.

Lemma install_native_library_run p w :
  install_native_library zip_entries p w
  = (Ok tt,
     {| files := files w;
        events := events w ++ EvZipOpen p
                  :: map native_line (default [] (files w !! p ≫= zip_entries)) |}).
Proof.
  unfold install_native_library, zip_open. unfold mbind at 1. unfold M_bind.
  destruct (files w !! p ≫= zip_entries) as [entries|] eqn:Hz.
  - cbn [zip_get_num_entries default]. rewrite Nat2Z.id.
    pose proof (list_entries_all [] entries) as H. simpl in H. rewrite H. simpl.
    now rewrite <- app_assoc.
  - reflexivity.
Qed.

(** X12.  [install_native_library] always returns and leaves the files
    alone.  For a path at which there is no file, or a file that is no
    archive, it records the attempt to open it and nothing else, without
    an error; for an archive it prints one line for each entry, in the
    order of the archive. *)
Theorem install_never_fails_and_lists_in_order p w :
  install_native_library zip_entries p w
  = (Ok tt,
     {| files := files w;
        events := events w ++ EvZipOpen p
                  :: map native_line (default [] (files w !! p ≫= zip_entries)) |})
  /\ (files w !! p ≫= zip_entries = None ->
      install_native_library zip_entries p w = (Ok tt, add_event w (EvZipOpen p))).
Proof.
  split; [apply install_native_library_run|].
  intros Hz. rewrite install_native_library_run, Hz. reflexivity.
Qed.

Lemma install_each_run native_libs w :
  exists w',
    install_each zip_entries native_libs w = (Ok tt, w')
    /\ files w' = files w
    /\ extends w w'
    /\ forall p, In p native_libs -> In (EvZipOpen p) (events w').
Proof.
  revert w. induction native_libs as [|p l IH]; intros w.
  - exists w. split; [reflexivity|]. split; [reflexivity|].
    split; [apply extends_refl | intros p []].
  - cbn [install_each]. unfold mbind at 1. unfold M_bind.
    rewrite install_native_library_run.
    match goal with |- context [install_each zip_entries l ?w1] =>
      destruct (IH w1) as (w' & -> & Hf & Hext & Hin);
      assert (Hw1 : extends w w1)
    end.
    { split; [intros q H; exact H | eexists; reflexivity]. }
    exists w'. split; [reflexivity|]. split; [exact Hf|].
    split; [eapply extends_trans; eauto|].
    intros q [<-|Hq]; [|auto].
    apply (extends_In _ _ _ Hext). simpl. apply in_or_app. right. now left.
Qed.

End Install.

Section Plan.

#[local] Set Default Proof Using "Type".

Variable OS_STRING : string.
Variable ARCH_STRING : string.
Variable is_allowed : string -> bool.
Variable remote : string -> Transfer.

Local Abbreviation rule_vetoes := (Net.rule_vetoes OS_STRING).
Local Abbreviation rules_loop := (Net.rules_loop OS_STRING).
Local Abbreviation library_step := (Net.library_step OS_STRING).
Local Abbreviation libraries_loop := (Net.libraries_loop OS_STRING).
Local Abbreviation perform_blocking := (Net.perform_blocking remote).

Lemma wanted_same_files lp np w w1 e :
  files w1 = files w -> wanted OS_STRING lp np w1 e = wanted OS_STRING lp np w e.
Proof. intros H. unfold wanted, present. now rewrite H. Qed.

Lemma libraries_loop_is_library lp np libs entries multi native_libs w :
  Forall2 is_library libs entries ->
  exists w',
    libraries_loop lp np libs (multi, native_libs) w
    = (Ok (multi ++ map (library_helper lp np)
                        (List.filter (wanted OS_STRING lp np w) entries),
           native_libs ++ map (destination lp np) (List.filter isNative entries)), w')
    /\ files w' = files w
    /\ extends w w'.
Proof.
  intros H. revert multi native_libs w.
  induction H as [|lib_val e libs entries He _ IH]; intros multi native_libs w.
  - exists w. simpl. rewrite !app_nil_r. split; [reflexivity|].
    split; [reflexivity | apply extends_refl].
  - rewrite Acquire.libraries_loop_cons,
      (Acquire.library_step_is_library _ _ _ _ _ _ _ _ He).
    cbv zeta. cbn [List.filter]. unfold wanted at 1. unfold present.
    destruct (bool_decide (is_Some (files w !! destination lp np e))) eqn:Hex; cbn [negb andb].
    + destruct (IH multi (if isNative e then native_libs ++ [destination lp np e]
                          else native_libs) w) as (w' & -> & Hf & Hext).
      exists w'. split; [|split; assumption].
      destruct (isNative e); [|reflexivity]. cbn [map]. now rewrite <- app_assoc.
    + destruct (match rules e with Some rs => excluded OS_STRING rs | None => false end);
        cbn [negb].
      * destruct (IH multi (if isNative e then native_libs ++ [destination lp np e]
                            else native_libs) (add_event w (EvCreateLeading (destination lp np e))))
          as (w' & -> & Hf & Hext).
        exists w'. split; [|split].
        -- erewrite (List.filter_ext
                       (wanted OS_STRING lp np
                          (add_event w (EvCreateLeading (destination lp np e)))))
             by (intros x; now apply wanted_same_files).
           destruct (isNative e); [|reflexivity]. cbn [map]. now rewrite <- app_assoc.
        -- exact Hf.
        -- eapply extends_trans; [apply extends_add_event | exact Hext].
      * match goal with |- context [Net.libraries_loop _ _ _ _ ?st ?w1] =>
          destruct (IH (multi ++ [set_options fresh_helper FILE (lib_url e)
                                    (destination lp np e)])
                       (if isNative e then native_libs ++ [destination lp np e]
                        else native_libs) w1) as (w' & -> & Hf & Hext)
        end.
        exists w'. split; [|split].
        -- erewrite (List.filter_ext (wanted OS_STRING lp np _))
             by (intros x; now apply wanted_same_files).
           cbn [map]. unfold library_helper at 2. rewrite <- !app_assoc. cbn [app].
           destruct (isNative e); [|reflexivity]. cbn [map]. now rewrite <- app_assoc.
        -- exact Hf.
        -- eapply extends_trans; [|exact Hext].
           eapply extends_trans; apply extends_add_event.
Qed.

(** X13.  On well-formed libraries the library loop adds, in the order of
    the descriptor, one helper for every entry whose destination is absent
    and that no rule vetoes, puts the destination of every native entry on
    [native_libs], the excluded and the present ones too, and writes no
    file. *)
Theorem library_loop_plans_in_order lp np libs entries multi native_libs w :
  Forall2 is_library libs entries ->
  exists w',
    libraries_loop lp np libs (multi, native_libs) w
    = (Ok (multi ++ map (library_helper lp np)
                        (List.filter (wanted OS_STRING lp np w) entries),
           native_libs ++ map (destination lp np) (List.filter isNative entries)), w')
    /\ files w' = files w
    /\ extends w w'.
Proof. apply libraries_loop_is_library. Qed.

Lemma asset_step_extends assets_path asset_val multi w r w' :
  asset_step assets_path asset_val multi w = (r, w') ->
  files w' = files w /\ extends w w'.
Proof.
  rewrite Acquire.asset_step_factored.
  destruct (asset_hash asset_val) as [hash| |];
    try (intros [= <- <-]; split; [reflexivity | apply extends_refl]).
  cbv zeta. destruct (bool_decide _); intros [= <- <-];
    (split; [reflexivity|]); [apply extends_refl | apply extends_add_event].
Qed.

Lemma assets_loop_extends assets_path objects multi w r w' :
  assets_loop assets_path objects multi w = (r, w') ->
  files w' = files w /\ extends w w'.
Proof.
  revert multi w. induction objects as [|asset_val objects IH]; intros multi w.
  - intros [= <- <-]. split; [reflexivity | apply extends_refl].
  - rewrite Acquire.assets_loop_cons.
    destruct (asset_step assets_path asset_val multi w) as [[m1| |] w1] eqn:Hs;
      apply asset_step_extends in Hs as [Hf1 He1].
    + intros H. apply IH in H as [Hf2 He2]. split; [congruence|].
      eapply extends_trans; eauto.
    + now intros [= <- <-].
    + now intros [= <- <-].
Qed.

Lemma assets_loop_is_asset assets_path objects hashes multi w :
  Forall2 (fun asset_val hash => is_asset asset_val.2 hash) objects hashes ->
  exists w',
    assets_loop assets_path objects multi w
    = (Ok (multi ++ map (asset_helper assets_path)
                        (List.filter (fun hash => negb (present w (asset_path assets_path hash)))
                                     hashes)), w')
    /\ files w' = files w.
Proof.
  intros H. revert multi w.
  induction H as [|[name v] hash objects hashes Ha _ IH]; intros multi w.
  - exists w. simpl. now rewrite app_nil_r.
  - rewrite Acquire.assets_loop_cons, Acquire.asset_step_factored,
      (Acquire.asset_hash_is_asset _ _ _ Ha).
    cbv zeta. cbn [List.filter]. unfold present at 1. unfold asset_path at 1.
    destruct (bool_decide _) eqn:Hex; cbn [negb].
    + apply IH.
    + match goal with |- context [assets_loop _ _ ?m1 ?w1] =>
        destruct (IH m1 w1) as (w' & -> & Hf)
      end.
      exists w'. split; [|exact Hf].
      erewrite (List.filter_ext (fun hash0 => negb (present (add_event w _) _)))
        by (intros x; unfold present; reflexivity).
      cbn [map]. unfold asset_helper at 2. unfold asset_path at 2.
      now rewrite <- app_assoc.
Qed.

(** X14.  On well-formed objects the asset loop adds, in the order of the
    index, one helper for every object whose destination is absent when
    planning starts, and writes no file; it does not look at the helpers
    it holds already, so two objects with the same absent hash give two
    helpers with the same destination. *)
Theorem asset_loop_plans_every_absent_object assets_path objects hashes multi w :
  Forall2 (fun asset_val hash => is_asset asset_val.2 hash) objects hashes ->
  (exists w',
     assets_loop assets_path objects multi w
     = (Ok (multi ++ map (asset_helper assets_path)
                         (List.filter (fun hash => negb (present w (asset_path assets_path hash)))
                                      hashes)), w')
     /\ files w' = files w)
  /\ (forall name1 v1 name2 v2 hash,
        objects = [(name1, v1); (name2, v2)] -> hashes = [hash; hash] ->
        files w !! asset_path assets_path hash = None ->
        exists w',
          assets_loop assets_path objects multi w
          = (Ok (multi ++ [asset_helper assets_path hash; asset_helper assets_path hash]),
             w')).
Proof.
  intros H. split; [now apply assets_loop_is_asset|].
  intros name1 v1 name2 v2 hash -> -> Habs.
  destruct (assets_loop_is_asset assets_path _ _ multi w H) as (w' & Hrun & _).
  exists w'. rewrite Hrun. cbn [List.filter]. unfold present.
  rewrite bool_decide_eq_false_2 by (rewrite Habs; apply is_Some_None). reflexivity.
Qed.

(** X15.  Edges of the library rules.  A rule without [os] never vetoes,
    nor does a rule whose action is neither [allow] nor [disallow]; a rule
    with an [os] object that has no [name] fails an assertion, and with it
    the rule loop, although the argument expander lets the same rule
    through. *)
Theorem library_rule_edges o action :
  reads_as (FindMember o "action") action ->
  (FindMember o "os" = None -> rule_vetoes (kObject o) = Ok false)
  /\ (forall os n,
        FindMember o "os" = Some (kObject os) ->
        FindMember os "name" = Some (kString n) ->
        action <> "allow" -> action <> "disallow" ->
        rule_vetoes (kObject o) = Ok false)
  /\ (forall os,
        FindMember o "os" = Some (kObject os) ->
        FindMember os "name" = None ->
        rule_vetoes (kObject o) = AssertFail
        /\ (forall rest rule_fail, rules_loop (kObject o :: rest) rule_fail = AssertFail)
        /\ (FindMember os "arch" = None -> FindMember o "features" = None ->
            forall u, Game.rule_passes OS_STRING ARCH_STRING is_allowed u (kObject o)
                      = Ok true)).
Proof.
  intros (sa & Hact & Ea).
  unfold Net.rule_vetoes, json_access, json_access_o, HasMember, member.
  simpl. rewrite Hact. simpl. rewrite Ea. split; [|split].
  - intros ->. reflexivity.
  - intros os n -> Hn Ha Hd. simpl. rewrite Hn. simpl.
    apply String.eqb_neq in Ha, Hd. now rewrite Ha, Hd.
  - intros os Hos Hn. rewrite Hos. simpl. rewrite Hn. simpl.
    split; [reflexivity|]. split.
    + intros rest rule_fail. simpl.
      unfold Net.rule_vetoes, json_access, json_access_o, HasMember, member. simpl.
      rewrite Hact. simpl. rewrite Hos. simpl. now rewrite Hn.
    + intros Harch Hfeat u.
      unfold Game.rule_passes, json_access_o, HasMember, member. simpl.
      rewrite Hact. simpl. rewrite Hos. simpl. rewrite Hn, Harch. simpl.
      now rewrite Hfeat.
Qed.

(** X16.  The url of a library is read only once its destination is known
    to be absent: an entry without [url] is skipped like any other when its
    file is there, and fails an assertion, after its directories have been
    asked for, when it is not. *)
Theorem library_url_is_read_late lp np o d a name_text path_text multi native_libs w :
  FindMember o "downloads" = Some (kObject d) ->
  FindMember d "artifact" = Some (kObject a) ->
  reads_as (FindMember o "name") name_text ->
  reads_as (FindMember a "path") path_text ->
  FindMember a "url" = None ->
  let p := if HasMember o "natives" then np // path_text else lp // path_text in
  let native_libs' := if HasMember o "natives" then native_libs ++ [p] else native_libs in
  library_step lp np (kObject o) (multi, native_libs) w
  = if present w p then (Ok (multi, native_libs'), w)
    else (AssertFail, add_event w (EvCreateLeading p)).
Proof.
  intros Hd Ha (sn & Hn & En) (sp & Hp & Ep) Hu p native_libs'.
  rewrite Acquire.library_step_factored.
  assert (Ht : library_target lp np (kObject o) = Ok (p, HasMember o "natives")).
  { unfold library_target, json_access, json_access_o. simpl.
    rewrite Hd. simpl. rewrite Ha. simpl. rewrite Hn. simpl. rewrite Hp. simpl.
    now rewrite Ep. }
  assert (Hk : library_task OS_STRING (kObject o) p = AssertFail).
  { unfold library_task, json_access, json_access_o. simpl.
    rewrite Hd. simpl. rewrite Ha. simpl. rewrite Hn. simpl. now rewrite Hu. }
  rewrite Ht. cbv zeta. rewrite Hk. unfold present. subst native_libs'.
  now destruct (bool_decide _).
Qed.

Lemma library_step_extends lp np lib_val st w r w' :
  library_step lp np lib_val st w = (r, w') -> extends w w'.
Proof.
  destruct st as [multi native_libs]. rewrite Acquire.library_step_factored.
  destruct (library_target lp np lib_val) as [[p native]| |];
    try (intros [= _ <-]; apply extends_refl).
  cbv zeta. destruct (bool_decide _); [intros [= _ <-]; apply extends_refl|].
  destruct (library_task OS_STRING lib_val p) as [[[h line]|]| |]; intros [= _ <-];
    try apply extends_add_event.
  eapply extends_trans; apply extends_add_event.
Qed.

Lemma libraries_loop_extends lp np libs st w r w' :
  libraries_loop lp np libs st w = (r, w') -> extends w w'.
Proof.
  revert st w. induction libs as [|lib_val libs IH]; intros st w.
  - intros [= _ <-]. apply extends_refl.
  - rewrite Acquire.libraries_loop_cons.
    destruct (library_step lp np lib_val st w) as [[st1| |] w1] eqn:Hs;
      apply library_step_extends in Hs.
    + intros H. apply IH in H. eapply extends_trans; eauto.
    + now intros [= _ <-].
    + now intros [= _ <-].
Qed.

(** A batch returns, whatever its transfers do; the destination of every
    task whose transfer left something is there afterwards. *)
Lemma perform_blocking_extends helpers w :
  exists results w',
    perform_blocking helpers w = (Ok results, w')
    /\ extends w w'
    /\ forall h, In h helpers -> landed (remote (url h)) <> None ->
                 is_Some (files w' !! path h).
Proof.
  revert w. induction helpers as [|h l IH]; intros w.
  - exists [], w. split; [reflexivity|]. split; [apply extends_refl | intros h []].
  - cbn [Net.perform_blocking]. unfold mbind at 1. unfold M_bind at 1.
    rewrite Acquire.perform_run.
    destruct (IH (fetched w (mode h) (url h) (path h) (remote (url h))))
      as (results & w' & Hrun & Hext & Hin).
    unfold mbind, M_bind. rewrite Hrun. eexists _, w'. split; [reflexivity|].
    split; [eapply extends_trans; [apply extends_fetched | exact Hext]|].
    intros x [<-|Hx] Hl; [|auto]. apply (proj1 Hext). rewrite Acquire.fetched_files.
    destruct (landed (remote (url h))); [|contradiction].
    rewrite decide_True by reflexivity. eauto.
Qed.

End Plan.

Section Whole.

#[local] Set Default Proof Using "Type".

Variable OS_STRING : string.
Variable internal_dir : string.
Variable ASSETS_DIR : string.
Variable VERSION_MANIFEST_URL : string.
Variable remote : string -> Transfer.
Variable Parse : string -> Value.
Variable sha1 : string -> string.
Variable zip_entries : string -> option (list string).

Local Abbreviation obtain_version_json :=
  (Net.obtain_version_json internal_dir ASSETS_DIR VERSION_MANIFEST_URL remote Parse sha1).
Local Abbreviation obtain_libraries :=
  (Net.obtain_libraries OS_STRING internal_dir ASSETS_DIR VERSION_MANIFEST_URL remote Parse
     sha1 zip_entries).

Lemma log_run e w r w' : log e w = (r, w') -> w' = add_event w e.
Proof. unfold log. now intros [= _ <-]. Qed.

Lemma download_cached_file_extends u p b w r w' :
  download_cached_file remote u p b w = (r, w') -> extends w w'.
Proof.
  unfold download_cached_file. destruct (files w !! p).
  - intros [= _ <-]. apply extends_refl.
  - unfold mbind at 1. unfold M_bind at 1. rewrite Acquire.perform_run.
    intros [= _ <-]. apply extends_fetched.
Qed.

(** What a run of [obtain_libraries] that returns went through. *)
Lemma obtain_libraries_Ok version w ret w' :
  obtain_libraries version w = (Ok ret, w') ->
  exists h w1 w2 libs multi native_libs w3 w4 multi2 w5,
    obtain_version_json version w = (Ok (h, ret), w1)
    /\ extends w1 w2
    /\ json_access ret "libraries" = Ok (kArray libs)
    /\ Net.libraries_loop OS_STRING (internal_dir // "libraries")
         (internal_dir // "versions" // version // "natives") libs ([], []) w2
       = (Ok (multi, native_libs), w3)
    /\ extends w3 w4
    /\ (exists extra, multi2 = multi ++ extra)
    /\ extends w4 w5
    /\ (forall x, In x multi2 -> landed (remote (url x)) <> None ->
                  is_Some (files w5 !! path x))
    /\ extends w5 w'
    /\ (forall p, In p native_libs -> In (EvZipOpen p) (events w')).
Proof.
  unfold Net.obtain_libraries. intros H.
  apply mbind_Ok in H as ([h ret0] & w1 & Hv & H).
  apply mbind_Ok in H as (u1 & wa & Ha & H). apply log_run in Ha.
  apply mbind_Ok in H as (u2 & wb & Hb & H). apply log_run in Hb.
  apply mbind_Ok in H as (u3 & w2 & Hc & H). apply log_run in Hc.
  apply mbind_Ok in H as (libs_val & ? & Hl & H). apply liftR_Ok in Hl as [Hl ->].
  apply mbind_Ok in H as (libs & ? & Hg & H). apply liftR_Ok in Hg as [Hg ->].
  apply mbind_Ok in H as ([multi native_libs] & w3 & Hloop & H).
  apply mbind_Ok in H as (u4 & wd & Hd & H). apply log_run in Hd.
  apply mbind_Ok in H as (index_val & ? & Hi1 & H). apply liftR_Ok in Hi1 as [Hi1 ->].
  apply mbind_Ok in H as (index_url_val & ? & Hi2 & H). apply liftR_Ok in Hi2 as [Hi2 ->].
  apply mbind_Ok in H as (index_url & ? & Hi3 & H). apply liftR_Ok in Hi3 as [Hi3 ->].
  apply mbind_Ok in H as (contents & we & Hcache & H).
  apply download_cached_file_extends in Hcache.
  apply mbind_Ok in H as (u5 & wf & Hf & H). apply log_run in Hf.
  apply mbind_Ok in H as (u6 & wg & Hgg & H). apply log_run in Hgg.
  apply mbind_Ok in H as (objects_val & ? & Ho1 & H). apply liftR_Ok in Ho1 as [Ho1 ->].
  apply mbind_Ok in H as (objects & ? & Ho2 & H). apply liftR_Ok in Ho2 as [Ho2 ->].
  apply mbind_Ok in H as (multi2 & w4 & Hassets & H).
  apply mbind_Ok in H as (u7 & wh & Hh & H). apply log_run in Hh.
  apply mbind_Ok in H as (u8 & w5 & Hbatch & H).
  apply mbind_Ok in H as (u9 & wi & Hi & H). apply log_run in Hi.
  apply mbind_Ok in H as (u10 & wj & Hj & H). apply log_run in Hj.
  apply mbind_Ok in H as (u11 & wk & Hinst & H).
  injection H as <- <-.
  destruct (Acquire.assets_loop_rerun _ _ _ _ _ _ Hassets) as (_ & extra & Hextra & _).
  apply assets_loop_extends in Hassets as [_ Hassets].
  destruct (perform_blocking_extends remote multi2 wh)
    as (results & w5' & Hb' & Hbext & Hbin).
  rewrite Hb' in Hbatch. injection Hbatch as _ <-.
  destruct (install_each_run zip_entries native_libs wj) as (wk' & Hi' & _ & Hiext & Hiin).
  rewrite Hi' in Hinst. injection Hinst as _ <-.
  assert (Hlibs : exists vs, libs_val = kArray vs /\ vs = libs).
  { destruct libs_val; try discriminate Hg. injection Hg as <-. eauto. }
  destruct Hlibs as (vs & -> & ->).
  exists h, w1, w2, libs, multi, native_libs, w3, w4, multi2, w5'.
  subst wa wb w2 wd wf wg wh wi wj.
  split; [exact Hv|]. split.
  { repeat (eapply extends_trans; [|apply extends_add_event]). apply extends_refl. }
  split; [exact Hl|]. split; [exact Hloop|]. split.
  { eapply extends_trans; [|exact Hassets].
    repeat (eapply extends_trans; [|apply extends_add_event]).
    eapply extends_trans; [apply extends_add_event | exact Hcache]. }
  split; [eauto|]. split.
  { eapply extends_trans; [apply extends_add_event | exact Hbext]. }
  split; [exact Hbin|]. split; [|exact Hiin].
  eapply extends_trans; [|exact Hiext].
  eapply extends_trans; apply extends_add_event.
Qed.

Lemma obtain_libraries_extends version w ret w' :
  obtain_libraries version w = (Ok ret, w') -> extends w w'.
Proof.
  intros Hrun.
  apply obtain_libraries_Ok in Hrun
    as (h & w1 & w2 & libs0 & multi & native_libs & w3 & w4 & multi2 & w5
        & Hv & H12 & Hl0 & Hloop & H34 & _ & H45 & _ & H5 & _).
  apply obtain_version_json_extends in Hv. apply libraries_loop_extends in Hloop.
  repeat (eapply extends_trans; [eassumption|]). apply extends_refl.
Qed.

(** X17.  [obtain_libraries] does not look at the results of the batch.
    When it returns on a descriptor with well-formed libraries, the file
    of every library that no rule vetoes and whose transfer left something
    at the destination is there (a part of the body, when the transfer
    failed), [install_native_library] has been called on the destination
    of every native library, vetoed or not, fetched or not, and every file
    and event from before the run is still there. *)
Theorem acquisition_leaves_the_libraries_in_place version w ret w' libs entries :
  obtain_libraries version w = (Ok ret, w') ->
  json_access ret "libraries" = Ok (kArray libs) ->
  Forall2 is_library libs entries ->
  let lp := internal_dir // "libraries" in
  let np := internal_dir // "versions" // version // "natives" in
  (forall e, In e entries ->
     match rules e with Some rs => excluded OS_STRING rs | None => false end = false ->
     landed (remote (lib_url e)) <> None ->
     is_Some (files w' !! destination lp np e))
  /\ (forall e, In e entries -> isNative e = true ->
        In (EvZipOpen (destination lp np e)) (events w'))
  /\ extends w w'.
Proof.
  intros Hrun Hlibs Hentries lp np.
  apply obtain_libraries_Ok in Hrun
    as (h & w1 & w2 & libs0 & multi & native_libs & w3 & w4 & multi2 & w5
        & Hv & H12 & Hl0 & Hloop & H34 & (extra & ->) & H45 & Hin & H5 & Hzip).
  rewrite Hlibs in Hl0. injection Hl0 as <-.
  destruct (libraries_loop_is_library OS_STRING lp np libs entries [] [] w2 Hentries)
    as (w3' & Hloop' & Hf3 & H23).
  fold lp np in Hloop. rewrite Hloop' in Hloop. injection Hloop as <- <- <-.
  apply obtain_version_json_extends in Hv.
  assert (H3' : extends w3' w').
  { eapply extends_trans; [exact H34|]. eapply extends_trans; [exact H45 | exact H5]. }
  split; [|split].
  - intros e He Hrules Hlanded.
    destruct (present w2 (destination lp np e)) eqn:Hp.
    + apply (proj1 H3'), (proj1 H23). unfold present in Hp.
      now apply bool_decide_eq_true in Hp.
    + apply (proj1 H5).
      apply (Hin (library_helper lp np e)); [|exact Hlanded].
      apply in_or_app. left. simpl. apply in_map, filter_In. split; [exact He|].
      unfold wanted. now rewrite Hp, Hrules.
  - intros e He Hn. apply Hzip. simpl. apply in_map, filter_In. now split.
  - eapply extends_trans; [exact Hv|]. eapply extends_trans; [exact H12|].
    eapply extends_trans; [exact H23 | exact H3'].
Qed.

End Whole.

(** The extras at the sample acquisition. *)

Lemma sample_glfw_linux : is_library Sample.glfw_linux Cases.glfw_linux_entry.
Proof.
  eexists _, _, _. split; [reflexivity|]. split; [reflexivity|]. split; [reflexivity|].
  split; [eexists; split; reflexivity|]. split; [eexists; split; reflexivity|].
  split; [eexists; split; reflexivity|]. split; [reflexivity|]. simpl.
  eexists. split; [reflexivity|].
  constructor; [|constructor]. eexists. split; [reflexivity|].
  split; [eexists; split; reflexivity|].
  simpl. eexists. split; [reflexivity|]. eexists; split; reflexivity.
Qed.

Lemma sample_libraries :
  Forall2 is_library [Sample.brigadier; Sample.glfw_linux; Sample.glfw_macos]
          [Sample.brigadier_entry; Cases.glfw_linux_entry; Sample.glfw_macos_entry].
Proof.
  constructor; [exact Acquire.sample_brigadier|].
  constructor; [exact sample_glfw_linux|].
  constructor; [exact Acquire.sample_glfw_macos | constructor].
Qed.

Lemma resolution_writes_two_files_at_most_witness :
  let w' := (Sample.resolve "1.20" Sample.nothing).2 in
  Sample.resolve "1.20" Sample.nothing = (Throw VersionNotFoundException, w')
  /\ events w'
     = events (manifest_fetched Sample.internal_dir Sample.ASSETS_DIR
                 Sample.VERSION_MANIFEST_URL (Sample.remote Sample.VERSION_MANIFEST_URL)
                 Sample.nothing)
  /\ extends Sample.nothing w'.
Proof.
  intros w'.
  assert (Hrun : Sample.resolve "1.20" Sample.nothing = (Throw VersionNotFoundException, w'))
    by (vm_compute; reflexivity).
  destruct (resolution_writes_two_files_at_most Sample.internal_dir Sample.ASSETS_DIR
              Sample.VERSION_MANIFEST_URL Sample.remote Sample.Parse Sample.sha1
              "1.20" Sample.nothing _ w' Hrun)
    as ((rest & Hev & _ & _ & Hnf) & _ & Hext).
  split; [exact Hrun|]. split; [|exact Hext].
  rewrite Hev, (Hnf eq_refl). apply app_nil_r.
Defined.

Lemma find_version_stops_at_the_match_witness :
  reads_as (FindMember [("id", kString "1.19"); ("type", kString "release");
                        ("url", kString "https://meta.example/1.19.json");
                        ("sha1", kString Sample.sha1_descriptor)] "id") "1.19"
  /\ find_version [Sample.entry_json Sample.entry_1_19; Sample.entry_json Sample.entry_1_18]
       "1.19" (EmptyString, EmptyString)
     = find_version [Sample.entry_json Sample.entry_1_19; kNull]
         "1.19" (EmptyString, EmptyString).
Proof.
  assert (H : reads_as (FindMember [("id", kString "1.19"); ("type", kString "release");
                                    ("url", kString "https://meta.example/1.19.json");
                                    ("sha1", kString Sample.sha1_descriptor)] "id") "1.19")
    by (eexists; split; reflexivity).
  split; [exact H|].
  exact (find_version_stops_at_the_match []
           [("id", kString "1.19"); ("type", kString "release");
            ("url", kString "https://meta.example/1.19.json");
            ("sha1", kString Sample.sha1_descriptor)]
           [Sample.entry_json Sample.entry_1_18] [kNull] "1.19"
           (EmptyString, EmptyString) H).
Defined.

Lemma install_never_fails_and_lists_in_order_witness :
  files Sample.nothing !! Sample.macos_archive ≫= Sample.zip_entries = None
  /\ install_native_library Sample.zip_entries Sample.macos_archive Sample.nothing
     = (Ok tt, add_event Sample.nothing (EvZipOpen Sample.macos_archive)).
Proof.
  split; [reflexivity|].
  apply (proj2 (install_never_fails_and_lists_in_order Sample.zip_entries
                  Sample.macos_archive Sample.nothing)).
  reflexivity.
Defined.

Lemma library_loop_plans_in_order_witness :
  Forall2 is_library [Sample.brigadier; Sample.glfw_linux; Sample.glfw_macos]
          [Sample.brigadier_entry; Cases.glfw_linux_entry; Sample.glfw_macos_entry]
  /\ exists w',
       Net.libraries_loop Sample.os Sample.libraries_path Sample.natives_path
         [Sample.brigadier; Sample.glfw_linux; Sample.glfw_macos] ([], []) Sample.nothing
       = (Ok ([library_helper Sample.libraries_path Sample.natives_path
                 Sample.brigadier_entry;
               library_helper Sample.libraries_path Sample.natives_path
                 Cases.glfw_linux_entry],
              [Sample.linux_archive; Sample.macos_archive]), w')
       /\ files w' = files Sample.nothing.
Proof.
  split; [exact sample_libraries|].
  destruct (library_loop_plans_in_order Sample.os Sample.libraries_path Sample.natives_path
              _ _ [] [] Sample.nothing sample_libraries) as (w' & Hrun & Hf & _).
  exists w'. split; [exact Hrun | exact Hf].
Defined.

Lemma asset_loop_plans_every_absent_object_witness :
  Forall2 (fun asset_val hash => is_asset asset_val.2 hash)
          [("icons/icon.png", Sample.icon); ("icons/icon_copy.png", Sample.icon)]
          [Sample.icon_hash; Sample.icon_hash]
  /\ exists w',
       assets_loop "/mcvm/assets"
         [("icons/icon.png", Sample.icon); ("icons/icon_copy.png", Sample.icon)] []
         Sample.nothing
       = (Ok [asset_helper "/mcvm/assets" Sample.icon_hash;
              asset_helper "/mcvm/assets" Sample.icon_hash], w').
Proof.
  assert (H : Forall2 (fun asset_val hash => is_asset asset_val.2 hash)
                [("icons/icon.png", Sample.icon); ("icons/icon_copy.png", Sample.icon)]
                [Sample.icon_hash; Sample.icon_hash])
    by (repeat constructor; exact Acquire.sample_icon).
  split; [exact H|].
  destruct (asset_loop_plans_every_absent_object "/mcvm/assets" _ _ [] Sample.nothing H)
    as (_ & Htwice).
  apply (Htwice _ _ _ _ _ eq_refl eq_refl). reflexivity.
Defined.

Lemma library_rule_edges_witness :
  reads_as (FindMember Cases.version_rule "action") "allow"
  /\ Net.rule_vetoes Sample.os (kObject Cases.version_rule) = AssertFail
  /\ Game.rule_passes Sample.os Sample.arch Sample.allowed Sample.offline_user
       (kObject Cases.version_rule) = Ok true.
Proof.
  assert (H : reads_as (FindMember Cases.version_rule "action") "allow")
    by (eexists; split; reflexivity).
  destruct (library_rule_edges Sample.os Sample.arch Sample.allowed Cases.version_rule
              "allow" H) as (_ & _ & Hnameless).
  destruct (Hnameless [("version", kString "^10")] eq_refl eq_refl) as (Hveto & _ & Hpass).
  split; [exact H|]. split; [exact Hveto|]. now apply Hpass.
Defined.

Lemma library_url_is_read_late_witness :
  reads_as (FindMember Cases.library_without_url "name") "com.example:local:1.0"
  /\ Net.library_step Sample.os Sample.libraries_path Sample.natives_path
       (kObject Cases.library_without_url) ([], []) Sample.nothing
     = (AssertFail,
        add_event Sample.nothing
          (EvCreateLeading (Sample.libraries_path // "com/example/local.jar")))
  /\ (let w := put_file Sample.nothing (Sample.libraries_path // "com/example/local.jar")
                        "jar" in
      Net.library_step Sample.os Sample.libraries_path Sample.natives_path
        (kObject Cases.library_without_url) ([], []) w
      = (Ok ([], []), w)).
Proof.
  assert (Hn : reads_as (FindMember Cases.library_without_url "name") "com.example:local:1.0")
    by (eexists; split; reflexivity).
  assert (Hp : reads_as (FindMember [("path", kString "com/example/local.jar")] "path")
                        "com/example/local.jar")
    by (eexists; split; reflexivity).
  split; [exact Hn|]. split.
  - rewrite (library_url_is_read_late Sample.os Sample.libraries_path Sample.natives_path
               Cases.library_without_url _ _ _ _ [] [] Sample.nothing
               eq_refl eq_refl Hn Hp eq_refl).
    reflexivity.
  - intros w.
    rewrite (library_url_is_read_late Sample.os Sample.libraries_path Sample.natives_path
               Cases.library_without_url _ _ _ _ [] [] w
               eq_refl eq_refl Hn Hp eq_refl).
    reflexivity.
Defined.

Lemma acquisition_leaves_the_libraries_in_place_witness :
  let w' := (Cases.acquire_without_brigadier "1.19" Sample.nothing).2 in
  let lp := Sample.internal_dir // "libraries" in
  let np := Sample.internal_dir // "versions" // "1.19" // "natives" in
  Cases.acquire_without_brigadier "1.19" Sample.nothing = (Ok Sample.version_json, w')
  /\ json_access Sample.version_json "libraries"
     = Ok (kArray [Sample.brigadier; Sample.glfw_linux; Sample.glfw_macos])
  /\ landed (Cases.remote_without_brigadier (lib_url Cases.glfw_linux_entry)) <> None
  /\ is_Some (files w' !! destination lp np Cases.glfw_linux_entry)
  /\ In (EvZipOpen (destination lp np Sample.glfw_macos_entry)) (events w')
  /\ extends Sample.nothing w'
  /\ files w' !! destination lp np Sample.brigadier_entry = None.
Proof.
  intros w' lp np.
  assert (Hrun : Cases.acquire_without_brigadier "1.19" Sample.nothing
                 = (Ok Sample.version_json, w'))
    by (vm_compute; reflexivity).
  assert (Hlinux : landed (Cases.remote_without_brigadier (lib_url Cases.glfw_linux_entry))
                   <> None) by discriminate.
  destruct (acquisition_leaves_the_libraries_in_place Sample.os Sample.internal_dir
              Sample.ASSETS_DIR Sample.VERSION_MANIFEST_URL Cases.remote_without_brigadier
              Sample.Parse Sample.sha1 Sample.zip_entries "1.19" Sample.nothing
              Sample.version_json w' _ _ Hrun eq_refl sample_libraries)
    as (Hfiles & Hzip & Hext).
  split; [exact Hrun|]. split; [reflexivity|]. split; [exact Hlinux|].
  split; [exact (Hfiles Cases.glfw_linux_entry (or_intror (or_introl eq_refl)) eq_refl
                   Hlinux)|].
  split; [exact (Hzip Sample.glfw_macos_entry (or_intror (or_intror (or_introl eq_refl)))
                   eq_refl)|].
  split; [exact Hext | vm_compute; reflexivity].
Defined.

End AcquireMore.

(** ** Profiles and instances *)

Module InstancesMore.

Import Game Net Shape Forms Facts Instances.

#[local] Arguments String.append : simpl nomatch.
#[local] Set Warnings "-clear-no-such-hyp".

Lemma delete_each_Some pkgs live live' :
  delete_each pkgs live = Some live' <->
  NoDup (addresses pkgs)
  /\ (forall a, a ∈ addresses pkgs -> a ∈ live)
  /\ live' = live ∖ list_to_set (addresses pkgs).
Proof.
  revert live. induction pkgs as [|[a|] pkgs IH]; intros live.
  - simpl. split.
    + intros [= <-]. split; [constructor|]. split; [intros a Ha; inversion Ha | set_solver].
    + intros (_ & _ & ->). f_equal. set_solver.
  - cbn [delete_each delete]. change (addresses (Some a :: pkgs)) with (a :: addresses pkgs).
    destruct (bool_decide (a ∈ live)) eqn:Ha.
    + apply bool_decide_eq_true in Ha. rewrite IH, NoDup_cons. split.
      * intros (Hnd & Hin & ->). split; [split; [|exact Hnd]|split].
        -- intros Hmem. specialize (Hin a Hmem). set_solver.
        -- intros b Hb. apply elem_of_cons in Hb as [->|Hb]; [exact Ha|].
           specialize (Hin b Hb). set_solver.
        -- set_solver.
      * intros ([Hfresh Hnd] & Hin & ->). split; [exact Hnd|]. split.
        -- intros b Hb. apply elem_of_difference. split; [apply Hin; now right|].
           intros Hba. apply elem_of_singleton in Hba as ->. contradiction.
        -- set_solver.
    + apply bool_decide_eq_false in Ha. split; [discriminate|].
      intros (_ & Hin & _). exfalso. apply Ha, Hin. now left.
  - cbn [delete_each delete]. apply IH.
Qed.

(** X18.  [delete_all_packages] has a defined result exactly when the
    addresses among the packages of the profile are live and no address
    occurs twice; it then has released exactly those and left the profile
    without packages.  A package that was added twice is deleted twice,
    which has no defined result. *)
Theorem delete_all_packages_frees_each_once p live :
  (forall p' live',
     delete_all_packages p live = Some (p', live') <->
     NoDup (addresses (packages p))
     /\ (forall a, a ∈ addresses (packages p) -> a ∈ live)
     /\ live' = live ∖ list_to_set (addresses (packages p))
     /\ p' = {| profile_name := profile_name p; profile_version := profile_version p;
                packages := [] |})
  /\ (forall a, delete_all_packages (add_package (add_package p (Some a)) (Some a)) live
                = None).
Proof.
  split.
  - intros p' live'. unfold delete_all_packages.
    destruct (delete_each (packages p) live) as [l|] eqn:E.
    + apply delete_each_Some in E as (Hnd & Hin & ->). split.
      * intros [= <- <-]. auto.
      * intros (_ & _ & -> & ->). reflexivity.
    + split; [discriminate|]. intros (Hnd & Hin & Hl & _).
      assert (H : delete_each (packages p) live = Some live')
        by (apply delete_each_Some; auto).
      congruence.
  - intros a. unfold delete_all_packages.
    destruct (delete_each _ live) as [l|] eqn:E; [|reflexivity].
    apply delete_each_Some in E as (Hnd & _). exfalso. simpl in Hnd.
    assert (Happ : forall l1 l2, addresses (l1 ++ l2) = addresses l1 ++ addresses l2).
    { intros l1 l2. unfold addresses. apply flat_map_app. }
    rewrite !Happ in Hnd. simpl in Hnd.
    apply NoDup_app in Hnd as (_ & Hdis & _).
    apply (Hdis a); [apply elem_of_app; right|]; apply elem_of_cons; now left.
Qed.

Section InstancesMore.

#[local] Set Default Proof Using "Type".

Variable OS_STRING : string.
Variable internal_dir : string.
Variable ASSETS_DIR : string.
Variable VERSION_MANIFEST_URL : string.
Variable CLIENT_INSTANCES_DIR : string.
Variable SERVER_INSTANCES_DIR : string.
Variable remote : string -> Transfer.
Variable Parse : string -> Value.
Variable sha1 : string -> string.
Variable zip_entries : string -> option (list string).
Variable fopen_w : World -> string -> bool.

Local Abbreviation obtain_libraries :=
  (Net.obtain_libraries OS_STRING internal_dir ASSETS_DIR VERSION_MANIFEST_URL remote Parse
     sha1 zip_entries).
Local Abbreviation obtain_version_json :=
  (Net.obtain_version_json internal_dir ASSETS_DIR VERSION_MANIFEST_URL remote Parse sha1).
Local Abbreviation client_create :=
  (Instances.client_create OS_STRING internal_dir ASSETS_DIR VERSION_MANIFEST_URL remote
     Parse sha1 zip_entries).
Local Abbreviation server_fetch :=
  (Instances.server_fetch internal_dir ASSETS_DIR VERSION_MANIFEST_URL remote Parse sha1).
Local Abbreviation server_create :=
  (Instances.server_create internal_dir ASSETS_DIR VERSION_MANIFEST_URL remote Parse sha1
     fopen_w).

Lemma append_cancel_l (a b c : string) : a +:+ b = a +:+ c -> b = c.
Proof. induction a as [|x a IH]; simpl; [auto | intros [= H]; auto]. Qed.

Lemma path_join_cancel_l (a b c : string) :
  is_absolute b = false -> is_absolute c = false -> a // b = a // c -> b = c.
Proof.
  unfold path_join. intros -> ->. destruct (empty a || ends_with_slash a); intros H.
  - now apply append_cancel_l in H.
  - apply append_cancel_l in H. now apply (append_cancel_l "/") in H.
Qed.

Lemma jar_url_throws_not doc side e : jar_url doc side <> Throw e.
Proof.
  unfold jar_url.
  destruct (GetObject doc) as [o| |e0] eqn:E; simpl; try discriminate;
    [|now apply AcquireMore.GetObject_throws_not in E].
  destruct (HasMember o "downloads"); simpl; try discriminate.
  destruct (member o "downloads") as [dv| |e0] eqn:E1; simpl; try discriminate;
    [|now apply AcquireMore.member_throws_not in E1].
  destruct (GetObject dv) as [d| |e0] eqn:E2; simpl; try discriminate;
    [|now apply AcquireMore.GetObject_throws_not in E2].
  destruct (member d side) as [sv| |e0] eqn:E3; simpl; try discriminate;
    [|now apply AcquireMore.member_throws_not in E3].
  destruct (GetObject sv) as [sd| |e0] eqn:E4; simpl; try discriminate;
    [|now apply AcquireMore.GetObject_throws_not in E4].
  destruct (member sd "url") as [uv| |e0] eqn:E5; simpl; try discriminate;
    [|now apply AcquireMore.member_throws_not in E5].
  apply AcquireMore.GetString_throws_not.
Qed.

(** The reads of the descriptor in both [create] functions are those of
    [jar_url]. *)
Lemma jar_url_chain {B} doc side (k : string -> M B) w :
  (o ← liftR (GetObject doc);
   liftR (assert (HasMember o "downloads"));;
   downloads_val ← liftR (member o "downloads");
   downloads ← liftR (GetObject downloads_val);
   side_val ← liftR (member downloads side);
   side_download ← liftR (GetObject side_val);
   url_val ← liftR (member side_download "url");
   u ← liftR (GetString url_val);
   k u) w
  = (u ← liftR (jar_url doc side); k u) w.
Proof.
  unfold jar_url, mbind, M_bind, liftR.
  destruct (GetObject doc) as [o| |e0]; simpl; try reflexivity.
  destruct (HasMember o "downloads"); simpl; try reflexivity.
  destruct (member o "downloads") as [dv| |e0]; simpl; try reflexivity.
  destruct (GetObject dv) as [d| |e0]; simpl; try reflexivity.
  destruct (member d side) as [sv| |e0]; simpl; try reflexivity.
  destruct (GetObject sv) as [sd| |e0]; simpl; try reflexivity.
  destruct (member sd "url") as [uv| |e0]; simpl; try reflexivity.
Qed.

Lemma mbind_run {A B} (m : M A) (k : A -> M B) (w : World) :
  (m ≫= k) w
  = match m w with
    | (Ok a, w') => k a w'
    | (AssertFail, w') => (AssertFail, w')
    | (Throw e, w') => (Throw e, w')
    end.
Proof. reflexivity. Qed.

(** The end of both [create] functions: the line on the console and the
    transfer, whose result is bound and not used. *)
Lemma jar_transfer_run line u jar w :
  (OUT line;;
   '(_, success) ← Net.perform remote (set_options fresh_helper FILE u jar);
   mret tt) w
  = (Ok tt, fetched (add_event w (EvOut line)) FILE u jar (remote u)).
Proof.
  rewrite mbind_run. unfold OUT, log at 1. cbv beta iota.
  rewrite mbind_run, Acquire.perform_run. reflexivity.
Qed.

Lemma fetched_events w m u p t :
  events (fetched w m u p t) = events w ++ [EvDownload m u p].
Proof. unfold fetched. now destruct (landed t). Qed.

Lemma quiet_trans P w1 w2 w3 : quiet P w1 w2 -> quiet P w2 w3 -> quiet P w1 w3.
Proof.
  intros (m1 & E1 & H1) (m2 & E2 & H2). exists (m1 ++ m2).
  split; [now rewrite E2, E1, app_assoc | now apply Forall_app].
Qed.

Lemma quiet_refl P w : quiet P w w.
Proof. exists []. split; [now rewrite app_nil_r | constructor]. Qed.

Lemma quiet_add_event (P : Event -> Prop) w e : P e -> quiet P w (add_event w e).
Proof. intros H. exists [e]. split; [reflexivity | now repeat constructor]. Qed.

Lemma quiet_put_file P w p c : quiet P w (put_file w p c).
Proof. exists []. split; [simpl; now rewrite app_nil_r | constructor]. Qed.

Lemma quiet_fetched (P : Event -> Prop) w m u p t :
  P (EvDownload m u p) -> quiet P w (fetched w m u p t).
Proof.
  intros H. exists [EvDownload m u p]. split; [apply fetched_events|].
  now repeat constructor.
Qed.

(** Resolution transfers in mode [FILE_AND_STR] only and opens no archive. *)
Lemma obtain_version_json_quiet (P : Event -> Prop) version w r w' :
  (forall e, (forall u q, e <> EvDownload FILE u q) -> (forall p, e <> EvZipOpen p) -> P e) ->
  obtain_version_json version w = (r, w') -> quiet P w w'.
Proof.
  intros HP Hrun.
  assert (Hm : quiet P w (manifest_fetched internal_dir ASSETS_DIR VERSION_MANIFEST_URL
                            (remote VERSION_MANIFEST_URL) w)).
  { unfold manifest_fetched.
    eapply quiet_trans; [|apply quiet_fetched; apply HP; discriminate].
    repeat (eapply quiet_trans; [|apply quiet_add_event; apply HP; discriminate]).
    apply quiet_refl. }
  destruct (AcquireMore.obtain_version_json_cases internal_dir ASSETS_DIR
              VERSION_MANIFEST_URL remote Parse sha1 version w)
    as [H|[H|(u & r0 & H & Hr)]];
    rewrite H in Hrun; injection Hrun as <- <-; try exact Hm.
  eapply quiet_trans; [exact Hm|]. apply quiet_fetched. apply HP; discriminate.
Qed.

(** X19.  [ClientInstance::create] does not use the result of the transfer
    of the jar.  Once the directories have been asked for, the libraries
    of the profile's version acquired and [downloads.client.url] read, it
    records the transfer to [client.jar] in the instance directory, as its
    last step and without looking whether the jar is there already, and
    returns, whether the transfer succeeded or not: the jar holds the body
    when it arrived, and is what it was when the transfer failed and left
    nothing.  Every file and event from before is kept. *)
Theorem client_create_ignores_the_transfer i w doc wb u :
  obtain_libraries (get_version (parent i))
    (add_event (add_event (add_event w (EvCreateLeading (dir i))) (EvCreateDir (dir i)))
               (EvCreateDir (dir i // ".minecraft")))
  = (Ok doc, wb) ->
  jar_url doc "client" = Ok u ->
  let jar := dir i // "client.jar" in
  let w' := fetched (add_event wb (EvOut "Downloading client jar...")) FILE u jar
                    (remote u) in
  client_create i w = (Ok tt, w')
  /\ (forall body, remote u = Arrives body -> files w' !! jar = Some body)
  /\ (remote u = Fails None -> files w' !! jar = files wb !! jar)
  /\ extends w w'.
Proof.
  intros Hlib Hu jar w'.
  assert (He : client_ensure_instance_dir i w
               = (Ok tt, add_event (add_event (add_event w (EvCreateLeading (dir i)))
                                              (EvCreateDir (dir i)))
                                   (EvCreateDir (dir i // ".minecraft"))))
    by reflexivity.
  split; [|split; [|split]].
  - unfold Instances.client_create. rewrite mbind_run, He. cbv beta iota.
    rewrite mbind_run, Hlib. cbv beta iota zeta.
    rewrite jar_url_chain, mbind_run. unfold liftR. rewrite Hu. cbv beta iota.
    apply jar_transfer_run.
  - intros body Hb. subst w'. rewrite Acquire.fetched_files, Hb. simpl.
    now rewrite decide_True by reflexivity.
  - intros Hf. subst w'. rewrite Acquire.fetched_files, Hf. reflexivity.
  - eapply AcquireMore.extends_trans;
      [|eapply AcquireMore.extends_trans;
          [exact (AcquireMore.obtain_libraries_extends _ _ _ _ _ _ _ _ _ _ _ _ Hlib)|]].
    + repeat (eapply AcquireMore.extends_trans; [|apply AcquireMore.extends_add_event]).
      apply AcquireMore.extends_refl.
    + eapply AcquireMore.extends_trans;
        [apply (AcquireMore.extends_add_event wb (EvOut "Downloading client jar..."))|].
      apply AcquireMore.extends_fetched.
Qed.

(** [ServerInstance::create] up to the EULA: it ends where resolution or the
    reads of the descriptor end, or with the transfer of the server jar. *)
Lemma server_fetch_cases i w r w1 :
  server_fetch i w = (r, w1) ->
  exists rv wv,
    obtain_version_json (get_version (parent i))
      (add_event (add_event (add_event w (EvCreateLeading (dir i))) (EvCreateDir (dir i)))
                 (EvCreateDir (dir i // "server")))
    = (rv, wv)
    /\ ((w1 = wv
         /\ (r = AssertFail \/ r = Throw VersionNotFoundException \/ r = Throw IntegrityError))
        \/ exists d u,
             rv = Ok d /\ jar_url d.2 "server" = Ok u /\ r = Ok tt
             /\ w1 = fetched (add_event wv (EvOut "Downloading server jar...")) FILE u
                             (server_dir i // "server.jar") (remote u)).
Proof.
  intros Hrun.
  set (w0 := add_event (add_event (add_event w (EvCreateLeading (dir i)))
                                  (EvCreateDir (dir i)))
                       (EvCreateDir (dir i // "server"))).
  assert (He : server_ensure_instance_dir i w = (Ok tt, w0)) by reflexivity.
  unfold Instances.server_fetch in Hrun.
  rewrite mbind_run, He in Hrun. cbv beta iota in Hrun. rewrite mbind_run in Hrun.
  destruct (obtain_version_json (get_version (parent i)) w0) as [rv wv] eqn:Hv.
  exists rv, wv. split; [reflexivity|].
  destruct (AcquireMore.obtain_version_json_cases internal_dir ASSETS_DIR
              VERSION_MANIFEST_URL remote Parse sha1 (get_version (parent i)) w0)
    as [H|[H|(u & r0 & H & Hr)]]; rewrite Hv in H; injection H as -> Hw.
  - injection Hrun as <- <-. auto.
  - injection Hrun as <- <-. auto.
  - destruct Hr as [->| ->].
    + injection Hrun as <- <-. auto.
    + cbv beta iota zeta in Hrun. rewrite jar_url_chain, mbind_run in Hrun.
      unfold liftR in Hrun.
      destruct (jar_url (Parse (received (remote u))) "server") as [su| |e] eqn:Hj.
      * right. eexists _, su. split; [reflexivity|]. split; [exact Hj|].
        cbv beta iota in Hrun. rewrite jar_transfer_run in Hrun.
        injection Hrun as <- <-. split; reflexivity.
      * injection Hrun as <- <-. auto.
      * now apply jar_url_throws_not in Hj.
Qed.

(** X20.  [ServerInstance::create] opens no archive, and every transfer
    it makes in mode [FILE] goes to [server.jar] in the server directory,
    so it fetches no library and no asset; it keeps what was there.  It
    does not use the result of the transfer of the jar: the EULA is
    written, or [FileOpenError] thrown, after that transfer whether it
    succeeded or not, and the jar holds the body when it arrived.  When
    [create] returns, [eula.txt] holds the line [eula = true].  The only
    other exceptions are those of resolution. *)
Theorem server_create_fetches_the_jar_then_writes_the_eula i w r w' :
  server_create i w = (r, w') ->
  let jar := server_dir i // "server.jar" in
  let eula := server_dir i // "eula.txt" in
  extends w w'
  /\ quiet (fun e => transfers_only_to jar e /\ forall p, e <> EvZipOpen p) w w'
  /\ (r = Returned tt \/ r = FileOpenError ->
      exists u, In (EvDownload FILE u jar) (events w')
                /\ (forall body, remote u = Arrives body -> files w' !! jar = Some body))
  /\ (r = Returned tt -> files w' !! eula = Some eula_text)
  /\ (r = FileOpenError -> fopen_w w' eula = false)
  /\ (forall e, r = Raised e -> e = VersionNotFoundException \/ e = IntegrityError).
Proof.
  intros Hrun jar eula.
  set (P := fun e => transfers_only_to jar e /\ forall p, e <> EvZipOpen p).
  assert (HP : forall e, (forall u q, e <> EvDownload FILE u q) ->
                         (forall p, e <> EvZipOpen p) -> P e).
  { intros e H1 H2. split; [|exact H2]. intros u q ->. now destruct (H1 u q). }
  assert (Hne : eula <> jar).
  { intros H. apply path_join_cancel_l in H; [discriminate|reflexivity|reflexivity]. }
  unfold Instances.server_create in Hrun.
  destruct (server_fetch i w) as [r0 w1] eqn:Hf.
  apply server_fetch_cases in Hf as (rv & wv & Hv & Hcase).
  assert (H0 : extends w wv /\ quiet P w wv).
  { split.
    - eapply AcquireMore.extends_trans;
        [|exact (AcquireMore.obtain_version_json_extends _ _ _ _ _ _ _ _ _ _ Hv)].
      repeat (eapply AcquireMore.extends_trans; [|apply AcquireMore.extends_add_event]).
      apply AcquireMore.extends_refl.
    - eapply quiet_trans; [|exact (obtain_version_json_quiet P _ _ _ _ HP Hv)].
      repeat (eapply quiet_trans; [|apply quiet_add_event; apply HP; discriminate]).
      apply quiet_refl. }
  destruct H0 as [Hext Hq].
  destruct Hcase as [[-> Hr]|(d & u & -> & Hj & -> & ->)].
  - assert (Hw : r <> Returned tt /\ r <> FileOpenError /\ w' = wv
                 /\ forall e, r = Raised e ->
                              e = VersionNotFoundException \/ e = IntegrityError).
    { destruct Hr as [->|[->| ->]]; injection Hrun as <- <-;
        (split; [discriminate|]; split; [discriminate|]; split; [reflexivity|]);
        intros e [= <-]; auto. }
    destruct Hw as (Hr1 & Hr2 & -> & Hr3).
    split; [exact Hext|]. split; [exact Hq|].
    split; [intros [Hr'|Hr']; contradiction|].
    split; [intros Hr'; contradiction|].
    split; [intros Hr'; contradiction | exact Hr3].
  - set (wo := add_event wv (EvOut "Downloading server jar...")) in *.
    set (w1 := fetched wo FILE u (server_dir i // "server.jar") (remote u)) in *.
    assert (Hext1 : extends w w1).
    { eapply AcquireMore.extends_trans; [exact Hext|].
      eapply AcquireMore.extends_trans;
        [apply (AcquireMore.extends_add_event wv (EvOut "Downloading server jar..."))|].
      apply AcquireMore.extends_fetched. }
    assert (Hq1 : quiet P w w1).
    { eapply quiet_trans; [exact Hq|].
      eapply quiet_trans;
        [apply (quiet_add_event P wv (EvOut "Downloading server jar...")); apply HP;
         discriminate|].
      apply quiet_fetched. split; [|discriminate].
      unfold transfers_only_to. intros u0 q Heq. now injection Heq as _ <-. }
    assert (Hjar : In (EvDownload FILE u jar) (events w1)
                   /\ forall body, remote u = Arrives body -> files w1 !! jar = Some body).
    { split.
      - subst w1. rewrite fetched_events. apply in_or_app. right. now left.
      - intros body Hb. subst w1. rewrite Acquire.fetched_files, Hb. simpl.
        now rewrite decide_True by reflexivity. }
    destruct (fopen_w w1 (server_dir i // "eula.txt")) eqn:Ho; injection Hrun as <- <-.
    + split; [eapply AcquireMore.extends_trans;
                [exact Hext1 | apply (AcquireMore.extends_put_file w1)]|].
      split; [eapply quiet_trans; [exact Hq1 | apply (quiet_put_file P w1)]|].
      split; [|split; [|split; [discriminate | discriminate]]].
      * intros _. exists u. split; [exact (proj1 Hjar)|]. intros body Hb. simpl.
        rewrite lookup_insert_ne by exact Hne. now apply (proj2 Hjar).
      * intros _. simpl. apply lookup_insert_eq.
    + split; [exact Hext1|]. split; [exact Hq1|].
      split; [intros _; exists u; exact Hjar|].
      split; [discriminate|]. split; [intros _; exact Ho | discriminate].
Qed.

End InstancesMore.

Lemma delete_all_packages_frees_each_once_witness :
  Instances.delete_all_packages
    (add_package (add_package Cases.profile (Some 5%nat)) (Some 5%nat)) {[5%nat]}
  = None.
Proof.
  exact (proj2 (delete_all_packages_frees_each_once Cases.profile {[5%nat]}) 5%nat).
Defined.

Lemma client_create_ignores_the_transfer_witness :
  let wa := add_event (add_event (add_event Sample.nothing
                                    (EvCreateLeading (dir Cases.client)))
                                 (EvCreateDir (dir Cases.client)))
                      (EvCreateDir (dir Cases.client // ".minecraft")) in
  let run := Net.obtain_libraries Sample.os Sample.internal_dir Sample.ASSETS_DIR
               Sample.VERSION_MANIFEST_URL Cases.remote_without_jars Cases.Parse_jars
               Sample.sha1 Sample.zip_entries "1.19" wa in
  run = (Ok Cases.jar_descriptor, run.2)
  /\ jar_url Cases.jar_descriptor "client" = Ok "https://jars.example/client.jar"
  /\ Cases.remote_without_jars "https://jars.example/client.jar" = Fails None
  /\ (exists w', Cases.create_client Cases.remote_without_jars Sample.nothing = (Ok tt, w')
                 /\ files w' !! (dir Cases.client // "client.jar")
                    = files run.2 !! (dir Cases.client // "client.jar")).
Proof.
  intros wa run.
  assert (Hrun : run = (Ok Cases.jar_descriptor, run.2)) by (vm_compute; reflexivity).
  assert (Hu : jar_url Cases.jar_descriptor "client" = Ok "https://jars.example/client.jar")
    by reflexivity.
  destruct (client_create_ignores_the_transfer Sample.os Sample.internal_dir
              Sample.ASSETS_DIR Sample.VERSION_MANIFEST_URL Cases.remote_without_jars
              Cases.Parse_jars Sample.sha1 Sample.zip_entries Cases.client Sample.nothing
              Cases.jar_descriptor run.2 "https://jars.example/client.jar" Hrun Hu)
    as (Hcreate & _ & Hfails & _).
  split; [exact Hrun|]. split; [exact Hu|]. split; [reflexivity|].
  eexists. split; [exact Hcreate | exact (Hfails eq_refl)].
Defined.

Lemma server_create_fetches_the_jar_then_writes_the_eula_witness :
  let w' := (Cases.create_server Cases.remote_without_jars true Sample.nothing).2 in
  Cases.create_server Cases.remote_without_jars true Sample.nothing = (Returned tt, w')
  /\ files w' !! (server_dir Cases.server // "eula.txt") = Some eula_text
  /\ files w' !! (server_dir Cases.server // "server.jar") = None
  /\ extends Sample.nothing w'.
Proof.
  intros w'.
  assert (Hrun : Cases.create_server Cases.remote_without_jars true Sample.nothing
                 = (Returned tt, w'))
    by (vm_compute; reflexivity).
  destruct (server_create_fetches_the_jar_then_writes_the_eula Sample.internal_dir
              Sample.ASSETS_DIR Sample.VERSION_MANIFEST_URL Cases.remote_without_jars
              Cases.Parse_jars Sample.sha1 (fun _ _ => true) Cases.server Sample.nothing
              _ w' Hrun)
    as (Hext & _ & _ & Hret & _).
  split; [exact Hrun|]. split; [exact (Hret eq_refl)|].
  split; [vm_compute; reflexivity | exact Hext].
Defined.

End InstancesMore.
